(** * MediaBoard backend: monitoring and metrics aggregation

    A shallow embedding of the in-process monitoring code of the backend
    ([src/services/monitoringService.js], [src/middleware/monitoring.js],
    the monitoring routes and the dashboard metrics route), together with
    the properties its specification states about it.

    Conventions of the embedding:
    - [Date.now()] and the other readings of the environment are explicit
      arguments; timestamps and durations are integers ([Z], milliseconds);
    - a JavaScript [Map] is an association list in insertion order
      ([JsMap]), because iteration order is observable in the queries;
    - an array mutated in place inside a [Map] is written back with
      [JsMap.set], which keeps the position of an existing key;
    - a property that may be missing from an object is an [option];
    - quotients and percentages are exact rationals ([Q]). *)

From Stdlib Require Import ZArith String Ascii List Bool Lia.
From Stdlib Require Import Permutation Sorted QArith Qround DecimalString.
Import ListNotations.

Local Open Scope string_scope.
Local Open Scope list_scope.
Local Open Scope Z_scope.

(** ** JavaScript [Map] with string keys, in insertion order *)

Module JsMap.
Section Defs.
Context {V : Type}.

Definition t := list (string * V).

Definition empty : t := [].

Fixpoint get (m : t) (k : string) : option V :=
  match m with
  | [] => None
  | (k', v) :: m' => if String.eqb k k' then Some v else get m' k
  end.

Definition has (m : t) (k : string) : bool :=
  match get m k with Some _ => true | None => false end.

(** [set] on a key already present replaces the value where it stands;
    a new key goes to the end. *)
Fixpoint set (m : t) (k : string) (v : V) : t :=
  match m with
  | [] => [(k, v)]
  | (k', v') :: m' =>
      if String.eqb k k' then (k', v) :: m' else (k', v') :: set m' k v
  end.

Definition size (m : t) : nat := length m.

Definition keys (m : t) : list string := map fst m.

End Defs.
Arguments t : clear implicits.
End JsMap.

(** ** Data model *)

Record RequestRecord := mkRequestRecord {
  rq_timestamp : Z;
  rq_statusCode : Z;
  rq_responseTime : Z;
  rq_userId : option string;
  rq_success : bool
}.

(** The property bag handed to [recordError] as [context]. *)
Definition Context := list (string * string).

(** A JavaScript [Error]: an empty [err_name] stands for a missing one. *)
Record JsError := mkJsError {
  err_name : string;
  err_message : string;
  err_stack : string
}.

Record ErrorRecord := mkErrorRecord {
  er_timestamp : Z;
  er_message : string;
  er_stack : string;
  er_context : Context;
  er_severity : string
}.

(** [this.metrics] of the service; [system] maps a timestamp to a snapshot,
    of which only the key matters here. *)
Record Metrics := mkMetrics {
  requests : JsMap.t (list RequestRecord);
  errors : JsMap.t (list ErrorRecord);
  system : list Z
}.

(** The state the constructor leaves. *)
Definition newMetrics : Metrics :=
  {| requests := JsMap.empty; errors := JsMap.empty; system := [] |}.

(** ** Metric stores *)

(** [arr.splice(0, arr.length - cap)] when [arr.length > cap]. *)
Definition truncate {A} (cap : nat) (arr : list A) : list A :=
  if (cap <? length arr)%nat then skipn (length arr - cap) arr else arr.

(** The last [n] elements of a list, in order. *)
Definition lastn {A} (n : nat) (l : list A) : list A :=
  skipn (length l - n) l.

Definition requestKey (method endpoint : string) : string :=
  (method ++ ":" ++ endpoint)%string.

Definition mkRequest (now statusCode responseTime : Z)
    (userId : option string) : RequestRecord :=
  {| rq_timestamp := now;
     rq_statusCode := statusCode;
     rq_responseTime := responseTime;
     rq_userId := userId;
     rq_success := (200 <=? statusCode) && (statusCode <? 400) |}.

Definition getOr {A} (m : JsMap.t (list A)) (k : string) : list A :=
  match JsMap.get m k with Some l => l | None => [] end.

Definition recordRequest (now : Z) (endpoint method : string)
    (statusCode responseTime : Z) (userId : option string)
    (m : Metrics) : Metrics :=
  let key := requestKey method endpoint in
  let reqs :=
    if JsMap.has (requests m) key then requests m
    else JsMap.set (requests m) key [] in
  let pushed :=
    getOr reqs key ++ [mkRequest now statusCode responseTime userId] in
  {| requests := JsMap.set reqs key (truncate 1000 pushed);
     errors := errors m;
     system := system m |}.

Definition getErrorSeverity (error : JsError) : string :=
  if String.eqb (err_name error) "ValidationError" then "low"
  else if String.eqb (err_name error) "AuthenticationError" then "medium"
  else if String.eqb (err_name error) "DatabaseError" then "high"
  else if String.eqb (err_name error) "SystemError" then "critical"
  else "medium".

(** [error.name || 'UnknownError'] *)
Definition errorKeyOf (error : JsError) : string :=
  if String.eqb (err_name error) "" then "UnknownError" else err_name error.

Definition mkError (now : Z) (error : JsError) (context : Context)
    : ErrorRecord :=
  {| er_timestamp := now;
     er_message := err_message error;
     er_stack := err_stack error;
     er_context := context;
     er_severity := getErrorSeverity error |}.

(** The console output of [recordError] is not part of the state. *)
Definition recordError (now : Z) (error : JsError) (context : Context)
    (m : Metrics) : Metrics :=
  let errorKey := errorKeyOf error in
  let errs :=
    if JsMap.has (errors m) errorKey then errors m
    else JsMap.set (errors m) errorKey [] in
  let pushed := getOr errs errorKey ++ [mkError now error context] in
  {| requests := requests m;
     errors := JsMap.set errs errorKey (truncate 500 pushed);
     system := system m |}.

(** [getStats]: the sizes of the three maps. The uptime, the memory reading
    and the names of the health checks do not depend on the stores. *)
Record Stats := mkStats {
  st_requests : nat;
  st_errors : nat;
  st_systemSnapshots : nat
}.

Definition getStats (m : Metrics) : Stats :=
  {| st_requests := JsMap.size (requests m);
     st_errors := JsMap.size (errors m);
     st_systemSnapshots := length (system m) |}.

(** A call of [recordRequest] and a call of [recordError], with the clock
    reading each one sees. *)
Record RequestCall := mkRequestCall {
  rc_now : Z;
  rc_endpoint : string;
  rc_method : string;
  rc_statusCode : Z;
  rc_responseTime : Z;
  rc_userId : option string
}.

Record ErrorCall := mkErrorCall {
  ec_now : Z;
  ec_error : JsError;
  ec_context : Context
}.

Definition doRequest (m : Metrics) (c : RequestCall) : Metrics :=
  recordRequest (rc_now c) (rc_endpoint c) (rc_method c) (rc_statusCode c)
    (rc_responseTime c) (rc_userId c) m.

Definition doError (m : Metrics) (c : ErrorCall) : Metrics :=
  recordError (ec_now c) (ec_error c) (ec_context c) m.

(** Any sequence of calls of the two recording operations. *)
Inductive Call :=
| CallRequest (c : RequestCall)
| CallError (c : ErrorCall).

Definition doCall (m : Metrics) (c : Call) : Metrics :=
  match c with
  | CallRequest c => doRequest m c
  | CallError c => doError m c
  end.

Definition run (m : Metrics) (cs : list Call) : Metrics :=
  fold_left doCall cs m.

Definition callKey (c : RequestCall) : string :=
  requestKey (rc_method c) (rc_endpoint c).

Definition callRecord (c : RequestCall) : RequestRecord :=
  mkRequest (rc_now c) (rc_statusCode c) (rc_responseTime c) (rc_userId c).

Definition errCallKey (c : ErrorCall) : string := errorKeyOf (ec_error c).

Definition errCallRecord (c : ErrorCall) : ErrorRecord :=
  mkError (ec_now c) (ec_error c) (ec_context c).

(** The key and the record of every request call of a sequence, and of
    every error call, in the order of the calls. *)
Definition requestPairs (cs : list Call) : list (string * RequestRecord) :=
  flat_map
    (fun c =>
       match c with
       | CallRequest c => [(callKey c, callRecord c)]
       | CallError _ => []
       end) cs.

Definition errorPairs (cs : list Call) : list (string * ErrorRecord) :=
  flat_map
    (fun c =>
       match c with
       | CallRequest _ => []
       | CallError c => [(errCallKey c, errCallRecord c)]
       end) cs.

(** The values a list of pairs holds for key [k], oldest first. *)
Definition valuesFor {R} (k : string) (ps : list (string * R)) : list R :=
  map snd (filter (fun p => String.eqb (fst p) k) ps).

(** The arguments of a request call apart from the endpoint and the method:
    the clock, the status code, the response time and the user. *)
Definition RequestArgs : Type := Z * Z * Z * option string.

Definition requestWith (endpoint method : string) (a : RequestArgs) : Call :=
  let '(now, statusCode, responseTime, userId) := a in
  CallRequest
    {| rc_now := now; rc_endpoint := endpoint; rc_method := method;
       rc_statusCode := statusCode; rc_responseTime := responseTime;
       rc_userId := userId |}.

(** [cleanOldMetrics]: every key keeps its entry, with the records older
    than one hour filtered out. *)
Definition cleanOldMetrics (now : Z) (m : Metrics) : Metrics :=
  let oneHourAgo := now - 60 * 60 * 1000 in
  {| requests :=
       map (fun e => (fst e,
              filter (fun r => oneHourAgo <=? rq_timestamp r) (snd e)))
           (requests m);
     errors :=
       map (fun e => (fst e,
              filter (fun r => oneHourAgo <=? er_timestamp r) (snd e)))
           (errors m);
     system := system m |}.

(** ** [Array.prototype.sort]

    The sort of the language is stable, so with a comparator that is a
    consistent preorder its result is determined: equal elements keep their
    order. Insertion from the right computes that arrangement; a new
    element goes in front of the first one it does not have to follow. *)

Section Sort.
Context {A : Type} (cmp : A -> A -> Z).

Fixpoint insertSorted (x : A) (l : list A) : list A :=
  match l with
  | [] => [x]
  | y :: l' => if cmp x y <=? 0 then x :: l else y :: insertSorted x l'
  end.

Fixpoint jsSort (l : list A) : list A :=
  match l with
  | [] => []
  | x :: l' => insertSorted x (jsSort l')
  end.

End Sort.

(** ** Metrics queries *)

(** [Math.round]: the nearest integer, halves upwards. *)
Definition mathRound (q : Q) : Z := Qfloor (q + (1 # 2)).

Record EndpointMetrics := mkEndpointMetrics {
  em_total : Z;
  em_successful : Z;
  em_failed : Z;
  em_averageResponseTime : Z;
  em_errorRate : Q
}.

(** The object [getRequestMetrics] returns. Its literal has no [errorRate]
    property; the property is only assigned after the loop. *)
Record RequestMetrics := mkRequestMetrics {
  rm_total : Z;
  rm_successful : Z;
  rm_failed : Z;
  rm_averageResponseTime : Z;
  rm_errorRate : option Q;
  rm_endpoints : JsMap.t EndpointMetrics
}.

Definition sumResponseTime (rs : list RequestRecord) : Z :=
  fold_left (fun sum r => sum + rq_responseTime r) rs 0.

Definition lengthZ {A} (l : list A) : Z := Z.of_nat (length l).

(** The loop state of [getRequestMetrics]: the object under construction
    and the two local counters. *)
Record RequestAcc := mkRequestAcc {
  ra_metrics : RequestMetrics;
  ra_totalResponseTime : Z;
  ra_requestCount : Z
}.

Definition requestMetricsStep (since : Z) (acc : RequestAcc)
    (entry : string * list RequestRecord) : RequestAcc :=
  let endpoint := fst entry in
  let recentRequests :=
    filter (fun r => since <=? rq_timestamp r) (snd entry) in
  if 0 <? lengthZ recentRequests then
    let successful := lengthZ (filter rq_success recentRequests) in
    let failed := lengthZ recentRequests - successful in
    let avgResponseTime :=
      (inject_Z (sumResponseTime recentRequests)
       / inject_Z (lengthZ recentRequests))%Q in
    let metrics := ra_metrics acc in
    {| ra_metrics :=
         {| rm_total := rm_total metrics + lengthZ recentRequests;
            rm_successful := rm_successful metrics + successful;
            rm_failed := rm_failed metrics + failed;
            rm_averageResponseTime := rm_averageResponseTime metrics;
            rm_errorRate := rm_errorRate metrics;
            rm_endpoints :=
              JsMap.set (rm_endpoints metrics) endpoint
                {| em_total := lengthZ recentRequests;
                   em_successful := successful;
                   em_failed := failed;
                   em_averageResponseTime := mathRound avgResponseTime;
                   em_errorRate :=
                     (inject_Z failed
                      / inject_Z (lengthZ recentRequests))%Q |} |};
       ra_totalResponseTime :=
         ra_totalResponseTime acc + sumResponseTime recentRequests;
       ra_requestCount := ra_requestCount acc + lengthZ recentRequests |}
  else acc.

Definition getRequestMetrics (since : Z) (m : Metrics) : RequestMetrics :=
  let init :=
    {| ra_metrics :=
         {| rm_total := 0; rm_successful := 0; rm_failed := 0;
            rm_averageResponseTime := 0;
            rm_errorRate := None;
            rm_endpoints := JsMap.empty |};
       ra_totalResponseTime := 0;
       ra_requestCount := 0 |} in
  let acc := fold_left (requestMetricsStep since) (requests m) init in
  let metrics := ra_metrics acc in
  if 0 <? ra_requestCount acc then
    {| rm_total := rm_total metrics;
       rm_successful := rm_successful metrics;
       rm_failed := rm_failed metrics;
       rm_averageResponseTime :=
         mathRound (inject_Z (ra_totalResponseTime acc)
                    / inject_Z (ra_requestCount acc))%Q;
       rm_errorRate :=
         Some (inject_Z (rm_failed metrics)
               / inject_Z (rm_total metrics))%Q;
       rm_endpoints := rm_endpoints metrics |}
  else metrics.

(** An entry of [recent] in the result of [getErrorMetrics]. *)
Record RecentError := mkRecentError {
  re_type : string;
  re_message : string;
  re_timestamp : Z;
  re_severity : string
}.

Record ErrorMetrics := mkErrorMetrics {
  xm_total : Z;
  xm_byType : JsMap.t Z;
  xm_bySeverity : JsMap.t Z;
  xm_recent : list RecentError
}.

(** [metrics.bySeverity[error.severity]++] on the four counters the literal
    declares; [recordError] stores no other severity. *)
Definition bumpSeverity (bySeverity : JsMap.t Z) (severity : string)
    : JsMap.t Z :=
  match JsMap.get bySeverity severity with
  | Some n => JsMap.set bySeverity severity (n + 1)
  | None => bySeverity
  end.

Definition toRecent (errorType : string) (error : ErrorRecord)
    : RecentError :=
  {| re_type := errorType;
     re_message := er_message error;
     re_timestamp := er_timestamp error;
     re_severity := er_severity error |}.

Definition errorMetricsStep (since : Z) (metrics : ErrorMetrics)
    (entry : string * list ErrorRecord) : ErrorMetrics :=
  let errorType := fst entry in
  let recentErrors :=
    filter (fun e => since <=? er_timestamp e) (snd entry) in
  if 0 <? lengthZ recentErrors then
    {| xm_total := xm_total metrics + lengthZ recentErrors;
       xm_byType :=
         JsMap.set (xm_byType metrics) errorType (lengthZ recentErrors);
       xm_bySeverity :=
         fold_left (fun by_ e => bumpSeverity by_ (er_severity e))
           recentErrors (xm_bySeverity metrics);
       xm_recent :=
         xm_recent metrics
         ++ map (toRecent errorType) (lastn 10 recentErrors) |}
  else metrics.

(** The comparator of the sort of [recent]: [b.timestamp - a.timestamp]. *)
Definition newestFirst (a b : RecentError) : Z :=
  re_timestamp b - re_timestamp a.

Definition getErrorMetrics (since : Z) (m : Metrics) : ErrorMetrics :=
  let init :=
    {| xm_total := 0;
       xm_byType := JsMap.empty;
       xm_bySeverity :=
         [("low", 0); ("medium", 0); ("high", 0); ("critical", 0)];
       xm_recent := [] |} in
  let metrics := fold_left (errorMetricsStep since) (errors m) init in
  {| xm_total := xm_total metrics;
     xm_byType := xm_byType metrics;
     xm_bySeverity := xm_bySeverity metrics;
     xm_recent := firstn 20 (jsSort newestFirst (xm_recent metrics)) |}.

(** ** Numbers in messages *)

(** An integer written in decimal, as template literals print it. *)
Definition showZ (z : Z) : string := NilZero.string_of_int (Z.to_int z).

(** [x.toFixed(1)] for the non-negative readings the service formats:
    the nearest multiple of one tenth, halves upwards. *)
Definition toFixed1 (q : Q) : string :=
  let tenths := Qfloor (q * inject_Z 10 + (1 # 2)) in
  (showZ (tenths / 10) ++ "." ++ showZ (tenths mod 10))%string.

(** [a > b] on numbers. *)
Definition gtQ (a b : Q) : bool := negb (Qle_bool a b).

(** [s || d] on strings: the empty string is falsy. *)
Definition orElse (s d : string) : string :=
  if String.eqb s "" then d else s.

(** ** Health evaluator *)

Record AlertThresholds := mkAlertThresholds {
  th_responseTime : Z;
  th_errorRate : Q;
  th_memoryUsage : Q;
  th_diskUsage : Q;
  th_cpuUsage : Q
}.

Definition alertThresholds : AlertThresholds :=
  {| th_responseTime := 5000;
     th_errorRate := 1 # 10;
     th_memoryUsage := 9 # 10;
     th_diskUsage := 9 # 10;
     th_cpuUsage := 8 # 10 |}.

(** What a health check returns: the status and the message. The fields
    that only repeat the readings are left out. *)
Record CheckResult := mkCheckResult {
  cr_status : string;
  cr_message : string
}.

(** The readings [getMemoryMetrics] takes from the runtime and the host. *)
Record MemoryReadings := mkMemoryReadings {
  heapUsed : Z;
  heapTotal : Z;
  totalmem : Z;
  freemem : Z
}.

(** The two [usagePercent] fields of [getMemoryMetrics]. *)
Record MemoryMetrics := mkMemoryMetrics {
  mm_processUsage : Q;
  mm_systemUsage : Q
}.

Definition getMemoryMetrics (r : MemoryReadings) : MemoryMetrics :=
  {| mm_processUsage :=
       (inject_Z (heapUsed r) / inject_Z (heapTotal r) * inject_Z 100)%Q;
     mm_systemUsage :=
       (inject_Z (totalmem r - freemem r) / inject_Z (totalmem r)
        * inject_Z 100)%Q |}.

(** [checkMemoryHealth], on the metrics it reads first. The product
    [memoryUsage * 100] is 90 in double arithmetic as well. *)
Definition checkMemoryHealth (memory : MemoryMetrics) : CheckResult :=
  let processUsage := mm_processUsage memory in
  let systemUsage := mm_systemUsage memory in
  let limit := (th_memoryUsage alertThresholds * inject_Z 100)%Q in
  if gtQ processUsage limit then
    {| cr_status := "critical";
       cr_message :=
         ("High process memory usage: " ++ toFixed1 processUsage ++ "%")
           %string |}
  else if gtQ systemUsage limit then
    {| cr_status := "warning";
       cr_message :=
         ("High system memory usage: " ++ toFixed1 systemUsage ++ "%")
           %string |}
  else if gtQ processUsage (inject_Z 75) then
    {| cr_status := "warning";
       cr_message :=
         ("Elevated process memory usage: " ++ toFixed1 processUsage ++ "%")
           %string |}
  else
    {| cr_status := "healthy"; cr_message := "Memory usage normal" |}.

(** A health check either returns a result or throws. *)
Inductive CheckOutcome :=
| Returned (result : CheckResult)
| Threw (message : string).

Record Alert := mkAlert {
  al_component : string;
  al_severity : string;
  al_message : string
}.

(** The result of [performHealthCheck], without the time stamp and the
    metrics summary attached at the end. *)
Record HealthResults := mkHealthResults {
  hr_overall : string;
  hr_components : JsMap.t CheckResult;
  hr_alerts : list Alert
}.

Definition isFailure (status : string) : bool :=
  String.eqb status "critical" || String.eqb status "error".

(** One turn of the loop over [this.healthChecks], with the outcome of the
    awaited check. *)
Definition healthStep (results : HealthResults)
    (entry : string * CheckOutcome) : HealthResults :=
  let name := fst entry in
  match snd entry with
  | Returned result =>
      let components := JsMap.set (hr_components results) name result in
      if isFailure (cr_status result) then
        {| hr_overall := "critical";
           hr_components := components;
           hr_alerts :=
             hr_alerts results
             ++ [{| al_component := name;
                    al_severity := "critical";
                    al_message :=
                      orElse (cr_message result)
                        (name ++ " health check failed")%string |}] |}
      else if String.eqb (cr_status result) "warning"
              && String.eqb (hr_overall results) "healthy" then
        {| hr_overall := "warning";
           hr_components := components;
           hr_alerts :=
             hr_alerts results
             ++ [{| al_component := name;
                    al_severity := "warning";
                    al_message :=
                      orElse (cr_message result)
                        (name ++ " health check warning")%string |}] |}
      else
        {| hr_overall := hr_overall results;
           hr_components := components;
           hr_alerts := hr_alerts results |}
  | Threw message =>
      {| hr_overall := "critical";
         hr_components :=
           JsMap.set (hr_components results) name
             {| cr_status := "error"; cr_message := message |};
         hr_alerts :=
           hr_alerts results
           ++ [{| al_component := name;
                  al_severity := "critical";
                  al_message :=
                    ("Health check failed: " ++ message)%string |}] |}
  end.

Definition performHealthCheck (checks : list (string * CheckOutcome))
    : HealthResults :=
  fold_left healthStep checks
    {| hr_overall := "healthy";
       hr_components := JsMap.empty;
       hr_alerts := [] |}.

(** The status a check contributes: the one it returns, or [error] when it
    throws. *)
Definition outcomeStatus (o : CheckOutcome) : string :=
  match o with
  | Returned result => cr_status result
  | Threw _ => "error"
  end.

(** The order of the statuses: error and critical above warning above the
    rest. *)
Definition statusRank (status : string) : nat :=
  if isFailure status then 2%nat
  else if String.eqb status "warning" then 1%nat
  else 0%nat.

(** ** Monitoring routes *)

(** What [healthCheckMiddleware] leaves in [req.healthCheck]: the result of
    [performHealthCheck], or an object with [overall: 'error'] when the
    call throws. *)
Inductive HealthCheck :=
| HealthOk (results : HealthResults)
| HealthFailed (message : string).

Definition overallOf (h : HealthCheck) : string :=
  match h with
  | HealthOk results => hr_overall results
  | HealthFailed _ => "error"
  end.

Definition alertsOf (h : HealthCheck) : list Alert :=
  match h with
  | HealthOk results => hr_alerts results
  | HealthFailed _ => []
  end.

(** [GET /monitoring/health]: the HTTP status of the response. *)
Definition healthStatusCode (overall : string) : Z :=
  if String.eqb overall "warning" then 200
  else if String.eqb overall "critical" || String.eqb overall "error"
  then 503
  else 200.

Record HealthResponse := mkHealthResponse {
  hp_statusCode : Z;
  hp_success : bool;
  hp_health : HealthCheck
}.

Definition healthRoute (healthCheck : HealthCheck) : HealthResponse :=
  {| hp_statusCode := healthStatusCode (overallOf healthCheck);
     hp_success := negb (String.eqb (overallOf healthCheck) "error");
     hp_health := healthCheck |}.

(** [generatePerformanceAlerts], on the heap reading and the uptime (in
    milliseconds) that [getStats] reports. *)
Definition generatePerformanceAlerts (heapUsed heapTotal uptime : Z)
    : list Alert :=
  let memoryUsage :=
    (inject_Z heapUsed / inject_Z heapTotal * inject_Z 100)%Q in
  (if gtQ memoryUsage (inject_Z 90) then
     [{| al_component := "memory";
         al_severity := "critical";
         al_message :=
           ("High memory usage: " ++ toFixed1 memoryUsage ++ "%")%string |}]
   else if gtQ memoryUsage (inject_Z 75) then
     [{| al_component := "memory";
         al_severity := "warning";
         al_message :=
           ("Elevated memory usage: " ++ toFixed1 memoryUsage ++ "%")
             %string |}]
   else [])
  ++
  (if uptime <? 300000 then
     [{| al_component := "system";
         al_severity := "info";
         al_message :=
           ("System recently restarted (uptime: "
            ++ showZ (mathRound (inject_Z uptime / inject_Z 1000)%Q)
            ++ "s)")%string |}]
   else []).

(** [severityOrder[s] || 0] *)
Definition severityOrder (severity : string) : Z :=
  if String.eqb severity "critical" then 3
  else if String.eqb severity "warning" then 2
  else if String.eqb severity "info" then 1
  else 0.

(** The comparator of the sort of the alerts. *)
Definition bySeverity (a b : Alert) : Z :=
  severityOrder (al_severity b) - severityOrder (al_severity a).

Record AlertsResponse := mkAlertsResponse {
  ar_total : Z;
  ar_critical : Z;
  ar_warning : Z;
  ar_info : Z;
  ar_items : list Alert
}.

Definition countSeverity (severity : string) (alerts : list Alert) : Z :=
  lengthZ (filter (fun a => String.eqb (al_severity a) severity) alerts).

(** The order in which the alerts endpoint returns a combined list. *)
Definition sortAlerts (alerts : list Alert) : list Alert :=
  jsSort bySeverity alerts.

(** [GET /monitoring/alerts]: [severity] is the query parameter, absent or
    empty when no filter is asked for; [performanceAlerts] is the result of
    [generatePerformanceAlerts]. *)
Definition alertsRoute (healthCheck : HealthCheck) (severity : string)
    (performanceAlerts : list Alert) : AlertsResponse :=
  let alerts := alertsOf healthCheck in
  let alerts :=
    if String.eqb severity "" then alerts
    else filter (fun a => String.eqb (al_severity a) severity) alerts in
  let alerts := sortAlerts (alerts ++ performanceAlerts) in
  {| ar_total := lengthZ alerts;
     ar_critical := countSeverity "critical" alerts;
     ar_warning := countSeverity "warning" alerts;
     ar_info := countSeverity "info" alerts;
     ar_items := alerts |}.

(** ** Endpoint patterns

    A path is a string of code units below 256, which is what the HTTP
    layer delivers and what the route table holds. *)

Definition code (c : ascii) : nat := nat_of_ascii c.

Definition inRange (lo hi : nat) (c : ascii) : bool :=
  ((lo <=? code c) && (code c <=? hi))%nat.

(** [\d] and [[0-9]] *)
Definition isDigit (c : ascii) : bool := inRange 48 57 c.

(** [[0-9a-f]] under the flag [i] *)
Definition isHexDigit (c : ascii) : bool :=
  isDigit c || inRange 97 102 c || inRange 65 70 c.

(** [[a-zA-Z0-9]] *)
Definition isAlnum (c : ascii) : bool :=
  inRange 97 122 c || inRange 65 90 c || isDigit c.

Definition isSlash (c : ascii) : bool := Ascii.eqb c "/".

(** The length of the longest prefix made of characters of a class: what a
    greedy [+] or [{8,}] consumes. *)
Fixpoint runLength (p : ascii -> bool) (s : string) : nat :=
  match s with
  | String c t => if p c then S (runLength p t) else O
  | EmptyString => O
  end.

Definition isHyphen (c : ascii) : bool := Ascii.eqb c "-".

(** An expression of fixed length is a sequence of character classes, one
    for each character it consumes. *)
Fixpoint matchClasses (classes : list (ascii -> bool)) (s : string) : bool :=
  match classes with
  | [] => true
  | p :: classes' =>
      match s with
      | String c t => p c && matchClasses classes' t
      | EmptyString => false
      end
  end.

(** [[0-9a-f]{8}-[0-9a-f]{4}-[0-9a-f]{4}-[0-9a-f]{4}-[0-9a-f]{12}] *)
Definition uuidClasses : list (ascii -> bool) :=
  repeat isHexDigit 8 ++ [isHyphen]
  ++ repeat isHexDigit 4 ++ [isHyphen]
  ++ repeat isHexDigit 4 ++ [isHyphen]
  ++ repeat isHexDigit 4 ++ [isHyphen]
  ++ repeat isHexDigit 12.

(** Each matcher tells whether its expression matches at the start of the
    string, and the length of the match. *)

(** [/\/[0-9a-f]{8}-[0-9a-f]{4}-[0-9a-f]{4}-[0-9a-f]{4}-[0-9a-f]{12}/i] *)
Definition matchUuid (s : string) : option nat :=
  match s with
  | String c t =>
      if isSlash c && matchClasses uuidClasses t
      then Some (S (length uuidClasses)) else None
  | EmptyString => None
  end.

(** [/\/\d+/] *)
Definition matchNumeric (s : string) : option nat :=
  match s with
  | String c t =>
      if isSlash c && (1 <=? runLength isDigit t)%nat
      then Some (S (runLength isDigit t)) else None
  | EmptyString => None
  end.

(** [/\/[a-zA-Z0-9]{8,}/] *)
Definition matchCode (s : string) : option nat :=
  match s with
  | String c t =>
      if isSlash c && (8 <=? runLength isAlnum t)%nat
      then Some (S (runLength isAlnum t)) else None
  | EmptyString => None
  end.

(** [s.replace(re, repl)] for a global expression that never matches the
    empty string: the string is scanned from the left; where the expression
    matches, the replacement is written and the scan resumes after the
    match ([skip] counts the characters of the match still to pass). *)
Fixpoint replaceFrom (m : string -> option nat) (repl : string)
    (skip : nat) (s : string) : string :=
  match s with
  | EmptyString => EmptyString
  | String c t =>
      match skip with
      | S k => replaceFrom m repl k t
      | O =>
          match m s with
          | Some n => (repl ++ replaceFrom m repl (Nat.pred n) t)%string
          | None => String c (replaceFrom m repl 0 t)
          end
      end
  end.

Definition replaceAll (m : string -> option nat) (repl s : string)
    : string :=
  replaceFrom m repl 0 s.

(** [toLowerCase] on a code unit below 256: the letters A to Z and the
    capital letters of the upper half (all of 192 to 222 but the
    multiplication sign) move up by 32. *)
Definition toLowerChar (c : ascii) : ascii :=
  if inRange 65 90 c || (inRange 192 222 c && negb (code c =? 215)%nat)
  then ascii_of_nat (code c + 32) else c.

Fixpoint toLowerCase (s : string) : string :=
  match s with
  | EmptyString => EmptyString
  | String c t => String (toLowerChar c) (toLowerCase t)
  end.

(** [getEndpointPattern]; the empty string stands for every falsy path. *)
Definition getEndpointPattern (path : string) : string :=
  if String.eqb path "" then "unknown"
  else
    toLowerCase
      (replaceAll matchCode "/:code"
         (replaceAll matchNumeric "/:id"
            (replaceAll matchUuid "/:id" path))).

(** ** Dashboard metrics *)

Record MediaRow := mkMediaRow {
  md_created_at : Z;
  md_file_size : Z;
  md_type : string
}.

Record PlaylistRow := mkPlaylistRow {
  pl_created_at : Z;
  pl_updated_at : Z
}.

(** The start of the range, [timeThreshold]. *)
Definition timeThreshold (now : Z) (timeRange : string) : Z :=
  if String.eqb timeRange "6h" then now - 6 * 60 * 60 * 1000
  else if String.eqb timeRange "24h" then now - 24 * 60 * 60 * 1000
  else if String.eqb timeRange "7d" then now - 7 * 24 * 60 * 60 * 1000
  else now - 60 * 60 * 1000.

(** The two queries with [.gte(column, timeThreshold)], on the rows of the
    tables; [None] is the [null] a failed query leaves in [data]. *)
Definition selectMedia (threshold : Z) (table : option (list MediaRow))
    : option (list MediaRow) :=
  option_map (filter (fun m => threshold <=? md_created_at m)) table.

Definition selectPlaylists (threshold : Z)
    (table : option (list PlaylistRow)) : option (list PlaylistRow) :=
  option_map (filter (fun p => threshold <=? pl_updated_at p)) table.

(** [rows?.length || 0] and [rows?.filter(p).length || 0] *)
Definition countRows {A} (rows : option (list A)) : Z :=
  match rows with Some l => lengthZ l | None => 0 end.

Definition countWhere {A} (p : A -> bool) (rows : option (list A)) : Z :=
  match rows with Some l => lengthZ (filter p l) | None => 0 end.

Definition bucketSize (timeRange : string) : Z :=
  if String.eqb timeRange "7d" then 24 * 60 * 60 * 1000
  else 60 * 60 * 1000.

Definition bucketCount (timeRange : string) : nat :=
  if String.eqb timeRange "7d" then 7%nat
  else if String.eqb timeRange "24h" then 24%nat
  else 6%nat.

Definition bucketStart (now size : Z) (i : nat) : Z :=
  now - (Z.of_nat i + 1) * size.

Definition bucketEnd (now size : Z) (i : nat) : Z :=
  now - Z.of_nat i * size.

(** The test both filters of a bucket apply to a time stamp. *)
Definition inBucket (now size : Z) (i : nat) (t : Z) : bool :=
  (bucketStart now size i <=? t) && (t <? bucketEnd now size i).

Record Bucket := mkBucket {
  bk_timestamp : Z;
  bk_mediaUploads : Z;
  bk_playlistUpdates : Z
}.

Definition makeBucket (now size : Z) (mediaMetrics : option (list MediaRow))
    (playlistMetrics : option (list PlaylistRow)) (i : nat) : Bucket :=
  {| bk_timestamp := bucketStart now size i;
     bk_mediaUploads :=
       countWhere (fun m => inBucket now size i (md_created_at m))
         mediaMetrics;
     bk_playlistUpdates :=
       countWhere (fun p => inBucket now size i (pl_updated_at p))
         playlistMetrics |}.

(** The loop [for (i = 0; i < bucketCount; i++) buckets.unshift(...)]. *)
Definition historyBuckets (now : Z) (timeRange : string)
    (mediaMetrics : option (list MediaRow))
    (playlistMetrics : option (list PlaylistRow)) : list Bucket :=
  fold_left
    (fun buckets i =>
       makeBucket now (bucketSize timeRange) mediaMetrics playlistMetrics i
       :: buckets)
    (seq 0 (bucketCount timeRange)) [].

(** The part of the response of [GET /dashboard/metrics] that is computed
    from the media and playlist rows. *)
Record DashboardMetrics := mkDashboardMetrics {
  dm_timeRange : string;
  dm_mediaUploads : Z;
  dm_playlistUpdates : Z;
  dm_history : option (list Bucket)
}.

Definition dashboardMetrics (now : Z) (timeRange : string)
    (includeHistory : bool) (mediaTable : option (list MediaRow))
    (playlistTable : option (list PlaylistRow)) : DashboardMetrics :=
  let threshold := timeThreshold now timeRange in
  let mediaMetrics := selectMedia threshold mediaTable in
  let playlistMetrics := selectPlaylists threshold playlistTable in
  {| dm_timeRange := timeRange;
     dm_mediaUploads := countRows mediaMetrics;
     dm_playlistUpdates := countRows playlistMetrics;
     dm_history :=
       if includeHistory
       then Some (historyBuckets now timeRange mediaMetrics playlistMetrics)
       else None |}.

Definition sumZ (l : list Z) : Z := fold_right Z.add 0 l.

(** ** Auxiliary definitions of the proofs *)

(** The update both recording operations apply to their map. *)
Definition pushCapped {R} (cap : nat) (m : JsMap.t (list R)) (k : string)
    (x : R) : JsMap.t (list R) :=
  let m' := if JsMap.has m k then m else JsMap.set m k [] in
  JsMap.set m' k (truncate cap (getOr m' k ++ [x])).

Definition pushAll {R} (cap : nat) (m : JsMap.t (list R))
    (ps : list (string * R)) : JsMap.t (list R) :=
  fold_left (fun m p => pushCapped cap m (fst p) (snd p)) ps m.

(** The worst of a list of statuses in the words of the specification:
    critical when one of them is error or critical, else warning when one
    of them is warning, else healthy. *)
Definition isWarning (status : string) : bool := String.eqb status "warning".

Definition worstStatus (statuses : list string) : string :=
  if existsb isFailure statuses then "critical"
  else if existsb isWarning statuses then "warning"
  else "healthy".

(** The effect of one check on [results.overall]. *)
Definition overallStep (overall status : string) : string :=
  if isFailure status then "critical"
  else if isWarning status && String.eqb overall "healthy" then "warning"
  else overall.

(** The statuses the checks of a pass contribute, in the order they run. *)
Definition statusesOf (checks : list (string * CheckOutcome)) : list string :=
  map (fun entry => outcomeStatus (snd entry)) checks.

(** The candidates of [recent]: for each error kind, in the order of the
    map, the last ten of its records in the window. *)
Definition recentCandidates (since : Z) (m : Metrics) : list RecentError :=
  flat_map
    (fun entry =>
       map (toRecent (fst entry))
         (lastn 10
            (filter (fun e => since <=? er_timestamp e) (snd entry))))
    (errors m).

(** Every record of the window, of every kind, in the order of the map. *)
Definition recordsInWindow (since : Z) (m : Metrics) : list RecentError :=
  flat_map
    (fun entry =>
       map (toRecent (fst entry))
         (filter (fun e => since <=? er_timestamp e) (snd entry)))
    (errors m).

(** An error of kind [name] recorded at time [now]. *)
Definition errorAt (name : string) (now : Z) : Call :=
  CallError
    {| ec_now := now;
       ec_error :=
         {| err_name := name; err_message := "failed"; err_stack := "" |};
       ec_context := [] |}.

(** A list in decreasing order of a key. *)
Definition descending {A} (key : A -> Z) : list A -> Prop :=
  StronglySorted (fun a b => key b <= key a).

(** A store with 21 errors of one kind, recorded at times 100 to 120, and
    one error of another kind recorded at time 1. *)
Definition lopsidedStore : Metrics :=
  run newMetrics
    (map (fun t => errorAt "DatabaseError" (Z.of_nat t)) (seq 100 21)
     ++ [errorAt "ValidationError" 1]).

(** The sum of a field over the buckets of a history. *)
Definition historyTotal (field : Bucket -> Z) (history : option (list Bucket))
    : Z :=
  match history with
  | Some buckets => sumZ (map field buckets)
  | None => 0
  end.

(** The 24 hours before [now], oldest first: hour [k] runs from
    [hourStart now k] included to one hour later excluded. *)
Definition hour : Z := 60 * 60 * 1000.

Definition hourStart (now : Z) (k : nat) : Z :=
  now - 24 * hour + Z.of_nat k * hour.

Definition inHour (now : Z) (k : nat) (t : Z) : bool :=
  (hourStart now k <=? t) && (t <? hourStart now k + hour).

Definition indicator (b : bool) : Z := if b then 1 else 0.

(** A string in which an expression matches nowhere. *)
Fixpoint noMatch (m : string -> option nat) (s : string) : Prop :=
  match s with
  | EmptyString => True
  | String c t => m s = None /\ noMatch m t
  end.

(** The three replacements of [getEndpointPattern], before the case is
    folded. *)
Definition replaceSegments (path : string) : string :=
  replaceAll matchCode "/:code"
    (replaceAll matchNumeric "/:id" (replaceAll matchUuid "/:id" path)).

(** * The rest of the monitoring code *)

(** ** Metric stores: what the logs hold *)

(** The severity [getErrorSeverity] gives to an error of a kind. *)
Definition severityOfKind (kind : string) : string :=
  getErrorSeverity
    {| err_name := kind; err_message := ""; err_stack := "" |}.

Definition severities : list string := ["low"; "medium"; "high"; "critical"].

(** The request records of the window, of every key, in the order of the
    map. *)
Definition requestsInWindow (since : Z) (m : Metrics) : list RequestRecord :=
  flat_map
    (fun entry => filter (fun r => since <=? rq_timestamp r) (snd entry))
    (requests m).

(** The sum of the counters of an object of counters. *)
Definition sumValues (counters : JsMap.t Z) : Z := sumZ (map snd counters).

(** ** System snapshots *)

(** [Math.min(...keys)] and [Math.max(...keys)] on a list that is not
    empty. *)
Definition minKey (keys : list Z) : Z :=
  match keys with
  | [] => 0
  | k :: keys' => fold_left Z.min keys' k
  end.

Definition maxKey (keys : list Z) : Z :=
  match keys with
  | [] => 0
  | k :: keys' => fold_left Z.max keys' k
  end.

(** [this.metrics.system.set(timestamp, ...)] and [.delete(key)], on the
    keys. *)
Definition systemSet (timestamp : Z) (keys : list Z) : list Z :=
  if existsb (Z.eqb timestamp) keys then keys else keys ++ [timestamp].

Definition systemDelete (key : Z) (keys : list Z) : list Z :=
  filter (fun k => negb (k =? key)) keys.

(** What the body of the [try] of [collectSystemMetrics] comes to: the
    snapshot is built, or one of the readings throws. *)
Inductive CollectOutcome :=
| Collected
| CollectFailed (error : JsError) (errorTime : Z).

(** [collectSystemMetrics]: [timestamp] is the clock at the start, and
    [errorTime] the clock when [recordError] runs in the [catch]. *)
Definition collectSystemMetrics (timestamp : Z) (outcome : CollectOutcome)
    (m : Metrics) : Metrics :=
  match outcome with
  | Collected =>
      let keys := systemSet timestamp (system m) in
      {| requests := requests m;
         errors := errors m;
         system :=
           if (100 <? length keys)%nat
           then systemDelete (minKey keys) keys else keys |}
  | CollectFailed error errorTime =>
      recordError errorTime error
        [("context", "system_metrics_collection")] m
  end.

(** [getLatestSystemMetrics]: the snapshot returned, named by the time
    stamp it carries; [None] is [null]. *)
Definition getLatestSystemMetrics (m : Metrics) : option Z :=
  if (length (system m) =? 0)%nat then None else Some (maxKey (system m)).

(** Everything that changes the state of the service. *)
Inductive Event :=
| EvCall (c : Call)
| EvCollect (timestamp : Z) (outcome : CollectOutcome)
| EvClean (now : Z).

Definition doEvent (m : Metrics) (e : Event) : Metrics :=
  match e with
  | EvCall c => doCall m c
  | EvCollect timestamp outcome => collectSystemMetrics timestamp outcome m
  | EvClean now => cleanOldMetrics now m
  end.

Definition runEvents (m : Metrics) (es : list Event) : Metrics :=
  fold_left doEvent es m.

(** The time stamps of the snapshots built during a sequence of events. *)
Definition collectedAt (es : list Event) : list Z :=
  flat_map
    (fun e =>
       match e with
       | EvCollect timestamp Collected => [timestamp]
       | _ => []
       end) es.

(** A property of every log of a map, and a property of every record of
    every log; both may depend on the key. *)
Definition AllLogs {R} (Q : string -> list R -> Prop)
    (m : JsMap.t (list R)) : Prop :=
  Forall (fun entry => Q (fst entry) (snd entry)) m.

Definition AllRecords {R} (P : string -> R -> Prop)
    (m : JsMap.t (list R)) : Prop :=
  AllLogs (fun k l => Forall (P k) l) m.

(** Three requests to one endpoint answered in 100, 200 and 300 ms. *)
Definition threeRequests : Metrics :=
  run newMetrics
    [requestWith "/screens/:id" "GET" (1000, 200, 100, None);
     requestWith "/screens/:id" "GET" (1001, 200, 200, None);
     requestWith "/screens/:id" "GET" (1002, 200, 300, None)].

(** The error records of the window, of every kind, in the order of the
    map. *)
Definition errorsInWindow (since : Z) (m : Metrics) : list ErrorRecord :=
  flat_map
    (fun entry => filter (fun e => since <=? er_timestamp e) (snd entry))
    (errors m).

(** The counter an object of counters holds under a key; 0 when it holds
    none. *)
Definition counter (counters : JsMap.t Z) (k : string) : Z :=
  match JsMap.get counters k with Some n => n | None => 0 end.

(** A store with two old requests and an error, for the examples. *)
Definition agedStore : Metrics :=
  run newMetrics
    [requestWith "/media/:id" "GET" (1000, 200, 15, None);
     requestWith "/media/:id" "GET" (5000000, 404, 20, None);
     errorAt "HTTPError" 5000000;
     requestWith "/screens" "POST" (9000000, 201, 30, None)].

(** The greatest and the least element of a list. *)
Definition isMax (M : Z) (l : list Z) : Prop :=
  In M l /\ Forall (fun x => x <= M) l.

Definition isMin (M : Z) (l : list Z) : Prop :=
  In M l /\ Forall (fun x => M <= x) l.

(** ** The health checks *)

(** [x.toFixed(2)] for the non-negative readings the service formats. *)
Definition toFixed2 (q : Q) : string :=
  let hundredths := Qfloor (q * inject_Z 100 + (1 # 2)) in
  let cents := hundredths mod 100 in
  let pad := if (cents <? 10)%Z then "0" else "" in
  (showZ (hundredths / 100) ++ "." ++ pad ++ showZ cents)%string.

(** What the awaited query of [checkDatabaseHealth] comes to, and the
    bucket listing of [checkStorageHealth]: a result without error, a
    result with an error, or an exception. The names of the buckets listed
    are [None] when the listing returns no array. *)
Inductive QueryOutcome :=
| QueryOk
| QueryError (message : string)
| QueryThrew (message : string).

Inductive ListingOutcome :=
| ListingOk (buckets : option (list string))
| ListingError (message : string)
| ListingThrew (message : string).

Definition checkDatabaseHealth (outcome : QueryOutcome) (responseTime : Z)
    : CheckResult :=
  match outcome with
  | QueryError message =>
      {| cr_status := "error";
         cr_message := ("Database error: " ++ message)%string |}
  | QueryOk =>
      if th_responseTime alertThresholds <? responseTime then
        {| cr_status := "warning";
           cr_message :=
             ("Slow response: " ++ showZ responseTime ++ "ms")%string |}
      else
        {| cr_status := "healthy"; cr_message := "Database responsive" |}
  | QueryThrew message =>
      {| cr_status := "critical";
         cr_message :=
           ("Database connection failed: " ++ message)%string |}
  end.

(** [buckets?.find(b => b.name === 'media')], as a truth value. *)
Definition hasMediaBucket (buckets : option (list string)) : bool :=
  match buckets with
  | Some names => existsb (fun name => String.eqb name "media") names
  | None => false
  end.

Definition checkStorageHealth (outcome : ListingOutcome) : CheckResult :=
  match outcome with
  | ListingError message =>
      {| cr_status := "error";
         cr_message := ("Storage error: " ++ message)%string |}
  | ListingOk buckets =>
      if hasMediaBucket buckets then
        {| cr_status := "healthy"; cr_message := "Storage accessible" |}
      else
        {| cr_status := "warning"; cr_message := "Media bucket not found" |}
  | ListingThrew message =>
      {| cr_status := "critical";
         cr_message :=
           ("Storage connection failed: " ++ message)%string |}
  end.

(** The result of [getDiskMetrics]: the directory can be read, or the
    message of the error. *)
Inductive DiskMetrics :=
| DiskAvailable (path : string)
| DiskUnavailable (error : string).

Definition checkDiskHealth (disk : DiskMetrics) : CheckResult :=
  match disk with
  | DiskUnavailable error =>
      {| cr_status := "error";
         cr_message := ("Disk check failed: " ++ error)%string |}
  | DiskAvailable _ =>
      {| cr_status := "healthy"; cr_message := "Disk accessible" |}
  end.

(** The fields of [getCpuMetrics] the check reads: the number of cores,
    the load average over one minute and the usage of the process. *)
Record CpuMetrics := mkCpuMetrics {
  cpu_cores : Z;
  cpu_loadAverage1 : Q;
  cpu_usagePercent : Q
}.

Definition checkCpuHealth (cpu : CpuMetrics) : CheckResult :=
  let usage := cpu_usagePercent cpu in
  let loadAvg := cpu_loadAverage1 cpu in
  let afterUsage :=
    if gtQ usage (th_cpuUsage alertThresholds * inject_Z 100)%Q then
      {| cr_status := "warning";
         cr_message := ("High CPU usage: " ++ toFixed1 usage ++ "%")%string |}
    else
      {| cr_status := "healthy"; cr_message := "CPU usage normal" |} in
  if gtQ loadAvg (inject_Z (cpu_cores cpu) * (8 # 10))%Q then
    {| cr_status := "warning";
       cr_message := ("High load average: " ++ toFixed2 loadAvg)%string |}
  else afterUsage.

Definition checkNetworkHealth : CheckResult :=
  {| cr_status := "healthy"; cr_message := "Network interfaces available" |}.

(** What the six checks of the service read in one pass. *)
Record HealthReadings := mkHealthReadings {
  hd_query : QueryOutcome;
  hd_queryTime : Z;
  hd_listing : ListingOutcome;
  hd_memory : MemoryMetrics;
  hd_disk : DiskMetrics;
  hd_cpu : CpuMetrics
}.

(** The outcomes of the checks [initializeHealthChecks] registers, in the
    order of registration. Each of them returns: the first two catch what
    their call throws. *)
Definition registeredChecks (env : HealthReadings)
    : list (string * CheckOutcome) :=
  [("database",
    Returned (checkDatabaseHealth (hd_query env) (hd_queryTime env)));
   ("storage", Returned (checkStorageHealth (hd_listing env)));
   ("memory", Returned (checkMemoryHealth (hd_memory env)));
   ("disk", Returned (checkDiskHealth (hd_disk env)));
   ("cpu", Returned (checkCpuHealth (hd_cpu env)));
   ("network", Returned checkNetworkHealth)].

(** The component [performHealthCheck] files for a check. *)
Definition componentOf (outcome : CheckOutcome) : CheckResult :=
  match outcome with
  | Returned result => result
  | Threw message => {| cr_status := "error"; cr_message := message |}
  end.

(** The first status of a list that is a failure or a warning. *)
Definition firstProblem (statuses : list string) : option string :=
  find (fun s => isFailure s || isWarning s) statuses.

Definition startsWithWarning (statuses : list string) : bool :=
  match firstProblem statuses with
  | Some s => isWarning s
  | None => false
  end.

(** Readings with which every check is healthy. *)
Definition quietReadings : HealthReadings :=
  {| hd_query := QueryOk;
     hd_queryTime := 40;
     hd_listing := ListingOk (Some ["media"]);
     hd_memory :=
       {| mm_processUsage := inject_Z 50; mm_systemUsage := inject_Z 60 |};
     hd_disk := DiskAvailable "/srv/app";
     hd_cpu :=
       {| cpu_cores := 4;
          cpu_loadAverage1 := 1 # 2;
          cpu_usagePercent := inject_Z 3 |} |}.






(** ** Request monitoring middleware *)

(** The body handed to [res.send] or [res.json], as [recordMetrics] looks
    at it: [null]; an object, with the text of its [error] and [code]
    properties (empty when missing or falsy); anything else. *)
Inductive ResponseData :=
| DataNull
| DataObject (error code : string)
| DataOther.

(** What a call of [recordMetrics] leaves: the state, and whether it
    threw. *)
Record Recorded := mkRecorded {
  rd_state : Metrics;
  rd_threw : bool
}.

(** The error object the middleware builds for a response with a status of
    400 or more; [stack] is the trace the runtime attaches. *)
Definition responseError (data : ResponseData) (statusCode : Z)
    (stack : string) : JsError :=
  match data with
  | DataObject error code =>
      if String.eqb error "" then
        {| err_name := "HTTPError";
           err_message := ("HTTP " ++ showZ statusCode ++ " Error")%string;
           err_stack := stack |}
      else
        {| err_name := orElse code "APIError";
           err_message := error;
           err_stack := stack |}
  | _ =>
      {| err_name := "HTTPError";
         err_message := ("HTTP " ++ showZ statusCode ++ " Error")%string;
         err_stack := stack |}
  end.

(** [recordMetrics]: [path] is [req.route?.path || req.path]; [now] and
    [errorTime] are the clock when the request and then the error are
    recorded; [details] holds the rest of the error context (user agent,
    address, body, query, parameters). Reading [data.error] of [null]
    throws. *)
Definition recordMetrics (now errorTime : Z) (path method : string)
    (statusCode responseTime : Z) (userId : option string)
    (data : ResponseData) (stack : string) (details : Context)
    (m : Metrics) : Recorded :=
  let endpoint := getEndpointPattern path in
  let m1 := recordRequest now endpoint method statusCode responseTime
              userId m in
  if 400 <=? statusCode then
    match data with
    | DataNull => {| rd_state := m1; rd_threw := true |}
    | _ =>
        let errorContext :=
          [("endpoint", endpoint); ("method", method);
           ("statusCode", showZ statusCode);
           ("responseTime", showZ responseTime);
           ("userId", match userId with Some u => u | None => "" end)]
          ++ details in
        {| rd_state :=
             recordError errorTime (responseError data statusCode stack)
               errorContext m1;
           rd_threw := false |}
    end
  else {| rd_state := m1; rd_threw := false |}.

(** ** Monitoring routes: performance and errors *)

(** [getTimeSince] *)
Definition getTimeSince (now : Z) (range : string) : Z :=
  if String.eqb range "15m" then now - 15 * 60 * 1000
  else if String.eqb range "1h" then now - 60 * 60 * 1000
  else if String.eqb range "6h" then now - 6 * 60 * 60 * 1000
  else if String.eqb range "24h" then now - 24 * 60 * 60 * 1000
  else if String.eqb range "7d" then now - 7 * 24 * 60 * 60 * 1000
  else now - 60 * 60 * 1000.

Record Analysis := mkAnalysis {
  an_status : string;
  an_issues : list string;
  an_recommendations : list string
}.

(** [rate > limit] where [rate] may be missing: [undefined > limit] is
    false. *)
Definition rateAbove (rate : option Q) (limit : Q) : bool :=
  match rate with
  | Some q => gtQ q limit
  | None => false
  end.

(** The text [(rate * 100).toFixed(1)] in a message. *)
Definition ratePercent (rate : option Q) : string :=
  match rate with
  | Some q => toFixed1 (q * inject_Z 100)
  | None => "NaN"
  end.

(** [analyzePerformance]: the three blocks, each on the analysis the one
    before left. *)
Definition analyzeErrorRate (requestMetrics : RequestMetrics) : Analysis :=
  if rateAbove (rm_errorRate requestMetrics) (1 # 10) then
    {| an_status := "poor";
       an_issues :=
         [("High error rate: " ++ ratePercent (rm_errorRate requestMetrics)
           ++ "%")%string];
       an_recommendations :=
         ["Investigate error causes and implement fixes"] |}
  else if rateAbove (rm_errorRate requestMetrics) (5 # 100) then
    {| an_status := "fair";
       an_issues :=
         [("Elevated error rate: "
           ++ ratePercent (rm_errorRate requestMetrics) ++ "%")%string];
       an_recommendations := [] |}
  else
    {| an_status := "good"; an_issues := []; an_recommendations := [] |}.

Definition analyzeResponseTime (requestMetrics : RequestMetrics)
    (analysis : Analysis) : Analysis :=
  if 2000 <? rm_averageResponseTime requestMetrics then
    {| an_status := "poor";
       an_issues :=
         an_issues analysis
         ++ [("Slow response time: "
              ++ showZ (rm_averageResponseTime requestMetrics) ++ "ms")
               %string];
       an_recommendations :=
         an_recommendations analysis
         ++ ["Optimize database queries and API endpoints"] |}
  else if 1000 <? rm_averageResponseTime requestMetrics then
    {| an_status :=
         if String.eqb (an_status analysis) "good" then "fair"
         else an_status analysis;
       an_issues :=
         an_issues analysis
         ++ [("Elevated response time: "
              ++ showZ (rm_averageResponseTime requestMetrics) ++ "ms")
               %string];
       an_recommendations := an_recommendations analysis |}
  else analysis.

Definition analyzeCriticalErrors (errorMetrics : ErrorMetrics)
    (analysis : Analysis) : Analysis :=
  if 0 <? counter (xm_bySeverity errorMetrics) "critical" then
    {| an_status := "poor";
       an_issues :=
         an_issues analysis
         ++ [(showZ (counter (xm_bySeverity errorMetrics) "critical")
              ++ " critical errors")%string];
       an_recommendations :=
         an_recommendations analysis
         ++ ["Address critical errors immediately"] |}
  else analysis.

Definition analyzePerformance (requestMetrics : RequestMetrics)
    (errorMetrics : ErrorMetrics) : Analysis :=
  analyzeCriticalErrors errorMetrics
    (analyzeResponseTime requestMetrics (analyzeErrorRate requestMetrics)).

(** [arr.slice(0, limit)]: a negative limit counts from the end. *)
Definition sliceTo {A} (limit : Z) (l : list A) : list A :=
  if 0 <=? limit then firstn (Z.to_nat limit) l
  else firstn (length l - Z.to_nat (- limit)) l.

(** [parseInt(req.query.limit) || 50]: [None] is a parameter that is
    missing or not a number. *)
Definition limitOr50 (parsed : option Z) : Z :=
  match parsed with
  | Some n => if n =? 0 then 50 else n
  | None => 50
  end.

(** [GET /monitoring/errors]: the [errors] object of the response;
    [range] and [severity] are empty when the parameter is missing. *)
Definition errorsRoute (now : Z) (range severity : string)
    (limit : option Z) (m : Metrics) : ErrorMetrics :=
  let timeRange := orElse range "1h" in
  let since := getTimeSince now timeRange in
  let errorMetrics := getErrorMetrics since m in
  let recent :=
    if String.eqb severity "" then xm_recent errorMetrics
    else filter (fun e => String.eqb (re_severity e) severity)
           (xm_recent errorMetrics) in
  {| xm_total := xm_total errorMetrics;
     xm_byType := xm_byType errorMetrics;
     xm_bySeverity := xm_bySeverity errorMetrics;
     xm_recent := sliceTo (limitOr50 limit) recent |}.

(** ** Dashboard health *)

(** What the database probe and the bucket listing of [GET
    /dashboard/health] come to. A listing that returns may carry an error
    beside, or instead of, the buckets. *)
Inductive ProbeOutcome :=
| ProbeReturned (error : option string) (responseTime : Z)
| ProbeThrew (message : string).

Inductive BucketsOutcome :=
| BucketsReturned (buckets : option (list string)) (error : option string)
    (responseTime : Z)
| BucketsThrew (message : string).

Record ScreenRow := mkScreenRow {
  sc_status : string;
  sc_last_heartbeat : option Z
}.

(** A row of [screen_assignments]: the status of the screen, when the
    screen is joined, and the number of items of the playlist, when the
    playlist and its items are. *)
Record AssignmentRow := mkAssignmentRow {
  as_screenStatus : option string;
  as_items : option nat
}.

Record DashAlert := mkDashAlert {
  da_type : string;
  da_component : string;
  da_message : string
}.

(** The [healthCheck] object under construction: the overall status, the
    status of each component, the alerts, and [metrics.screens?.total]. *)
Record DashHealth := mkDashHealth {
  dh_overall : string;
  dh_components : JsMap.t string;
  dh_alerts : list DashAlert;
  dh_screensTotal : option Z
}.

Definition isSome {A} (o : option A) : bool :=
  match o with Some _ => true | None => false end.

(** [a >= b] on numbers. *)
Definition geQ (a b : Q) : bool := Qle_bool b a.

(** The status a rate in percent gives a component. *)
Definition rateStatus (rate : Q) : string :=
  if geQ rate (inject_Z 80) then "healthy"
  else if geQ rate (inject_Z 50) then "warning"
  else "critical".

Definition dashDatabase (probe : ProbeOutcome) (h : DashHealth)
    : DashHealth :=
  match probe with
  | ProbeReturned error responseTime =>
      {| dh_overall := dh_overall h;
         dh_components :=
           JsMap.set (dh_components h) "database"
             (if isSome error then "error" else "healthy");
         dh_alerts :=
           if 1000 <? responseTime then
             dh_alerts h
             ++ [{| da_type := "warning";
                    da_component := "database";
                    da_message :=
                      ("Slow database response: " ++ showZ responseTime
                       ++ "ms")%string |}]
           else dh_alerts h;
         dh_screensTotal := dh_screensTotal h |}
  | ProbeThrew _ =>
      {| dh_overall := "error";
         dh_components := JsMap.set (dh_components h) "database" "error";
         dh_alerts := dh_alerts h;
         dh_screensTotal := dh_screensTotal h |}
  end.

Definition dashStorage (listing : BucketsOutcome) (h : DashHealth)
    : DashHealth :=
  match listing with
  | BucketsReturned buckets error _ =>
      let mediaBucket := hasMediaBucket buckets in
      {| dh_overall := if mediaBucket then dh_overall h else "degraded";
         dh_components :=
           JsMap.set (dh_components h) "storage"
             (if isSome error then "error"
              else if mediaBucket then "healthy" else "warning");
         dh_alerts :=
           if mediaBucket then dh_alerts h
           else
             dh_alerts h
             ++ [{| da_type := "error";
                    da_component := "storage";
                    da_message := "Media storage bucket not found" |}];
         dh_screensTotal := dh_screensTotal h |}
  | BucketsThrew _ =>
      {| dh_overall := "error";
         dh_components := JsMap.set (dh_components h) "storage" "error";
         dh_alerts := dh_alerts h;
         dh_screensTotal := dh_screensTotal h |}
  end.

(** [s.last_heartbeat && new Date(s.last_heartbeat) > fiveMinutesAgo] *)
Definition recentlyActive (now : Z) (s : ScreenRow) : bool :=
  match sc_last_heartbeat s with
  | Some t => now - 5 * 60 * 1000 <? t
  | None => false
  end.

Definition staleConnection (now : Z) (s : ScreenRow) : bool :=
  String.eqb (sc_status s) "online"
  && match sc_last_heartbeat s with
     | Some t => t <? now - 5 * 60 * 1000
     | None => true
     end.

Definition connectivityRate (now : Z) (screens : list ScreenRow) : Q :=
  if 0 <? lengthZ screens then
    (inject_Z (lengthZ (filter (recentlyActive now) screens))
     / inject_Z (lengthZ screens) * inject_Z 100)%Q
  else inject_Z 100.

(** The block on the screens; [None] is a query that fails or returns
    nothing. *)
Definition dashScreens (now : Z) (screens : option (list ScreenRow))
    (h : DashHealth) : DashHealth :=
  match screens with
  | None => h
  | Some rows =>
      let rate := connectivityRate now rows in
      let stale := lengthZ (filter (staleConnection now) rows) in
      let staleAlert :=
        if 0 <? stale then
          [{| da_type := "warning";
              da_component := "screens";
              da_message :=
                (showZ stale
                 ++ " screens show online but haven't sent heartbeat recently")
                  %string |}]
        else [] in
      let components :=
        JsMap.set (dh_components h) "screens" (rateStatus rate) in
      if negb (geQ rate (inject_Z 50)) then
        {| dh_overall := "critical";
           dh_components := components;
           dh_alerts :=
             dh_alerts h ++ staleAlert
             ++ [{| da_type := "critical";
                    da_component := "screens";
                    da_message :=
                      ("Low screen connectivity: "
                       ++ showZ (mathRound rate) ++ "%")%string |}];
           dh_screensTotal := Some (lengthZ rows) |}
      else if negb (geQ rate (inject_Z 80)) then
        {| dh_overall :=
             if String.eqb (dh_overall h) "healthy" then "warning"
             else dh_overall h;
           dh_components := components;
           dh_alerts :=
             dh_alerts h ++ staleAlert
             ++ [{| da_type := "warning";
                    da_component := "screens";
                    da_message :=
                      ("Moderate screen connectivity: "
                       ++ showZ (mathRound rate) ++ "%")%string |}];
           dh_screensTotal := Some (lengthZ rows) |}
      else
        {| dh_overall := dh_overall h;
           dh_components := components;
           dh_alerts := dh_alerts h ++ staleAlert;
           dh_screensTotal := Some (lengthZ rows) |}
  end.

(** [!a.playlists?.playlist_items || a.playlists.playlist_items.length
    === 0] *)
Definition emptyPlaylist (a : AssignmentRow) : bool :=
  match as_items a with
  | Some n => (n =? 0)%nat
  | None => true
  end.

Definition assignmentRate (assignments : list AssignmentRow)
    (screensTotal : option Z) : Q :=
  match screensTotal with
  | Some total =>
      if 0 <? total then
        (inject_Z (lengthZ assignments) / inject_Z total * inject_Z 100)%Q
      else 0
  | None => 0
  end.

(** The block on the assignments; it never touches the overall status. *)
Definition dashContent (assignments : option (list AssignmentRow))
    (h : DashHealth) : DashHealth :=
  match assignments with
  | None => h
  | Some rows =>
      let rate := assignmentRate rows (dh_screensTotal h) in
      let empty := lengthZ (filter emptyPlaylist rows) in
      {| dh_overall := dh_overall h;
         dh_components :=
           JsMap.set (dh_components h) "content" (rateStatus rate);
         dh_alerts :=
           dh_alerts h
           ++ (if 0 <? empty then
                 [{| da_type := "warning";
                     da_component := "content";
                     da_message :=
                       (showZ empty ++ " screens assigned to empty playlists")
                         %string |}]
               else [])
           ++ (if negb (geQ rate (inject_Z 50)) then
                 [{| da_type := "warning";
                     da_component := "content";
                     da_message :=
                       ("Low content assignment rate: "
                        ++ showZ (mathRound rate) ++ "%")%string |}]
               else []);
         dh_screensTotal := dh_screensTotal h |}
  end.

(** The system component and the check of the heap. *)
Definition dashSystem (heapUsed heapTotal : Z) (h : DashHealth)
    : DashHealth :=
  let memoryUsagePercent :=
    (inject_Z heapUsed / inject_Z heapTotal * inject_Z 100)%Q in
  let components := JsMap.set (dh_components h) "system" "healthy" in
  if gtQ memoryUsagePercent (inject_Z 90) then
    {| dh_overall := "critical";
       dh_components := components;
       dh_alerts :=
         dh_alerts h
         ++ [{| da_type := "critical";
                da_component := "system";
                da_message :=
                  ("High memory usage: "
                   ++ showZ (mathRound memoryUsagePercent) ++ "%")%string |}];
       dh_screensTotal := dh_screensTotal h |}
  else if gtQ memoryUsagePercent (inject_Z 75) then
    {| dh_overall := dh_overall h;
       dh_components := components;
       dh_alerts :=
         dh_alerts h
         ++ [{| da_type := "warning";
                da_component := "system";
                da_message :=
                  ("Elevated memory usage: "
                   ++ showZ (mathRound memoryUsagePercent) ++ "%")%string |}];
       dh_screensTotal := dh_screensTotal h |}
  else
    {| dh_overall := dh_overall h;
       dh_components := components;
       dh_alerts := dh_alerts h;
       dh_screensTotal := dh_screensTotal h |}.

(** [componentStatuses.includes(status)] *)
Definition includesStatus (status : string) (components : JsMap.t string)
    : bool :=
  existsb (fun entry => String.eqb (snd entry) status) components.

(** The final determination of the overall status. *)
Definition dashFinal (h : DashHealth) : DashHealth :=
  {| dh_overall :=
       if includesStatus "error" (dh_components h) then "error"
       else if includesStatus "critical" (dh_components h) then "critical"
       else if includesStatus "warning" (dh_components h) then "warning"
       else dh_overall h;
     dh_components := dh_components h;
     dh_alerts := dh_alerts h;
     dh_screensTotal := dh_screensTotal h |}.

Record DashReadings := mkDashReadings {
  dr_probe : ProbeOutcome;
  dr_listing : BucketsOutcome;
  dr_now : Z;
  dr_screens : option (list ScreenRow);
  dr_assignments : option (list AssignmentRow);
  dr_heapUsed : Z;
  dr_heapTotal : Z
}.

(** [GET /dashboard/health]: the [health] object of the answer, without
    the figures it carries along, when the queries on the screens and on
    the assignments return (one that throws ends in the outer [catch] and
    a 500). *)
Definition dashboardHealth (env : DashReadings) : DashHealth :=
  dashFinal
    (dashSystem (dr_heapUsed env) (dr_heapTotal env)
       (dashContent (dr_assignments env)
          (dashScreens (dr_now env) (dr_screens env)
             (dashStorage (dr_listing env)
                (dashDatabase (dr_probe env)
                   {| dh_overall := "healthy";
                      dh_components := JsMap.empty;
                      dh_alerts := [];
                      dh_screensTotal := None |}))))).

(** The status the route files for the database and for the storage. *)
Definition probeStatus (probe : ProbeOutcome) : string :=
  match probe with
  | ProbeReturned error _ => if isSome error then "error" else "healthy"
  | ProbeThrew _ => "error"
  end.

Definition bucketsStatus (listing : BucketsOutcome) : string :=
  match listing with
  | BucketsReturned buckets error _ =>
      if isSome error then "error"
      else if hasMediaBucket buckets then "healthy" else "warning"
  | BucketsThrew _ => "error"
  end.

Definition heapPercent (env : DashReadings) : Q :=
  (inject_Z (dr_heapUsed env) / inject_Z (dr_heapTotal env)
   * inject_Z 100)%Q.

(** Readings with a heap that is nearly full and no media bucket. *)
Definition strainedReadings : DashReadings :=
  {| dr_probe := ProbeReturned None 20;
     dr_listing := BucketsReturned (Some ["backups"]) None 35;
     dr_now := 1000000;
     dr_screens := Some [mkScreenRow "online" (Some 990000)];
     dr_assignments := Some [mkAssignmentRow (Some "online") (Some 3%nat)];
     dr_heapUsed := 95;
     dr_heapTotal := 100 |}.

(** ** Dashboard alerts *)

(** The rows [GET /dashboard/alerts] reads, with the dates they carry as
    milliseconds. *)
Record NamedScreen := mkNamedScreen {
  ns_name : string;
  ns_status : string;
  ns_last_heartbeat : option Z
}.

Record DatedRow := mkDatedRow {
  row_name : string;
  row_created_at : Z
}.

(** An alert of the dashboard, without its texts and metadata. *)
Record BoardAlert := mkBoardAlert {
  ba_id : string;
  ba_type : string;
  ba_severity : string;
  ba_timestamp : Z
}.

(** [screen.last_heartbeat || now.toISOString()] *)
Definition heartbeatOr (now : Z) (s : NamedScreen) : Z :=
  match ns_last_heartbeat s with Some t => t | None => now end.

(** The body of [screens.forEach]: what one screen pushes. *)
Definition screenAlerts (now : Z) (s : NamedScreen) : list BoardAlert :=
  if String.eqb (ns_status s) "offline" then
    [{| ba_id := ("screen-offline-" ++ ns_name s)%string;
        ba_type := "screen";
        ba_severity := "warning";
        ba_timestamp := heartbeatOr now s |}]
  else if String.eqb (ns_status s) "online"
          && match ns_last_heartbeat s with
             | Some t => t <? now - 5 * 60 * 1000
             | None => true
             end then
    [{| ba_id := ("screen-stale-" ++ ns_name s)%string;
        ba_type := "screen";
        ba_severity := "warning";
        ba_timestamp := heartbeatOr now s |}]
  else [].

Definition unassignedAlert (screen : DatedRow) : BoardAlert :=
  {| ba_id := ("screen-unassigned-" ++ row_name screen)%string;
     ba_type := "content";
     ba_severity := "info";
     ba_timestamp := row_created_at screen |}.

Definition emptyPlaylistAlert (playlist : DatedRow) : BoardAlert :=
  {| ba_id := ("playlist-empty-" ++ row_name playlist)%string;
     ba_type := "content";
     ba_severity := "warning";
     ba_timestamp := row_created_at playlist |}.

(** [if (rows) rows.forEach(...)]: a query without data pushes nothing. *)
Definition rowsOrNone {A} (rows : option (list A)) : list A :=
  match rows with Some l => l | None => [] end.

(** The alerts in the order they are pushed. *)
Definition collectedAlerts (now : Z) (screens : option (list NamedScreen))
    (unassigned playlists : option (list DatedRow)) : list BoardAlert :=
  flat_map (screenAlerts now) (rowsOrNone screens)
  ++ map unassignedAlert (rowsOrNone unassigned)
  ++ map emptyPlaylistAlert (rowsOrNone playlists).

(** [(a, b) => new Date(b.timestamp) - new Date(a.timestamp)] *)
Definition byTimestamp (a b : BoardAlert) : Z :=
  ba_timestamp b - ba_timestamp a.

(** [l.reduce((acc, x) => { acc[key(x)] = (acc[key(x)] || 0) + 1; return
    acc }, {})] *)
Definition countBy {A} (key : A -> string) (l : list A) : JsMap.t Z :=
  fold_left
    (fun acc x => JsMap.set acc (key x) (counter acc (key x) + 1))
    l JsMap.empty.

Record BoardAnswer := mkBoardAnswer {
  bd_alerts : list BoardAlert;
  bd_total : Z;
  bd_bySeverity : JsMap.t Z;
  bd_byType : JsMap.t Z;
  bd_recent : Z;
  bd_filterSeverity : string;
  bd_filterLimit : Z
}.

(** [GET /dashboard/alerts]: [severity] is empty when the parameter is
    missing; the three options are the data of the three queries. *)
Definition dashboardAlerts (now : Z) (severity : string) (limit : option Z)
    (screens : option (list NamedScreen))
    (unassigned playlists : option (list DatedRow)) : BoardAnswer :=
  let limit := limitOr50 limit in
  let alerts := collectedAlerts now screens unassigned playlists in
  let filteredAlerts :=
    if String.eqb severity "" then alerts
    else filter (fun alert => String.eqb (ba_severity alert) severity)
           alerts in
  let sortedAlerts := sliceTo limit (jsSort byTimestamp filteredAlerts) in
  {| bd_alerts := sortedAlerts;
     bd_total := lengthZ sortedAlerts;
     bd_bySeverity := countBy ba_severity sortedAlerts;
     bd_byType := countBy ba_type sortedAlerts;
     bd_recent :=
       lengthZ
         (filter (fun a => now - 60 * 60 * 1000 <? ba_timestamp a)
            sortedAlerts);
     bd_filterSeverity := orElse severity "all";
     bd_filterLimit := limit |}.

(** A board with an offline screen, a stale one and an empty playlist. *)
Definition troubledScreens : list NamedScreen :=
  [mkNamedScreen "lobby" "offline" (Some 100000);
   mkNamedScreen "hall" "online" None;
   mkNamedScreen "cafe" "online" (Some 9990000)].

(** * Properties *)

(** ** Facts about [JsMap] *)

Module JsMapFacts.
Import JsMap.
Section Facts.
Context {V : Type}.
Implicit Types (m : JsMap.t V) (k : string) (v : V).

Lemma get_set_same m k v : get (set m k v) k = Some v.
Proof.
  induction m as [|[k' v'] m IH]; simpl.
  - now rewrite String.eqb_refl.
  - destruct (String.eqb k k') eqn:E; simpl; rewrite E; auto.
Qed.

Lemma get_set_other m k k' v : k <> k' -> get (set m k v) k' = get m k'.
Proof.
  intros Hne. induction m as [|[k0 v0] m IH]; simpl.
  - apply String.eqb_neq in Hne. rewrite String.eqb_sym in Hne.
    now rewrite Hne.
  - destruct (String.eqb k k0) eqn:E; simpl.
    + apply String.eqb_eq in E. subst k0.
      assert (String.eqb k' k = false) as ->; auto.
      apply String.eqb_neq. congruence.
    + now rewrite IH.
Qed.

Lemma has_In_keys m k : has m k = true <-> In k (keys m).
Proof.
  unfold has, keys. induction m as [|[k0 v0] m IH]; simpl.
  - split; [discriminate | tauto].
  - destruct (String.eqb k k0) eqn:E.
    + apply String.eqb_eq in E. split; auto.
    + apply String.eqb_neq in E. rewrite IH. split; auto.
      intros [H|H]; auto. congruence.
Qed.

Lemma keys_set_present m k v : In k (keys m) -> keys (set m k v) = keys m.
Proof.
  unfold keys. induction m as [|[k0 v0] m IH]; simpl; [tauto|].
  destruct (String.eqb k k0) eqn:E; simpl; intros H; auto.
  f_equal. apply IH. destruct H as [H|H]; auto.
  apply String.eqb_neq in E. congruence.
Qed.

Lemma keys_set_absent m k v :
  ~ In k (keys m) -> keys (set m k v) = keys m ++ [k].
Proof.
  unfold keys. induction m as [|[k0 v0] m IH]; simpl; auto.
  destruct (String.eqb k k0) eqn:E; simpl; intros H.
  - apply String.eqb_eq in E. subst k0. tauto.
  - f_equal. apply IH. tauto.
Qed.

End Facts.
End JsMapFacts.

(** ** Bounded logs *)

Section LastN.
Context {A : Type}.
Implicit Types (l : list A) (n : nat).

Lemma truncate_lastn n l : truncate n l = lastn n l.
Proof.
  unfold truncate, lastn. destruct (n <? length l)%nat eqn:E; auto.
  apply Nat.ltb_ge in E.
  now replace (length l - n)%nat with 0%nat by lia.
Qed.

Lemma length_lastn n l : length (lastn n l) = Nat.min n (length l).
Proof. unfold lastn. rewrite length_skipn. lia. Qed.

Lemma lastn_all n l : (length l <= n)%nat -> lastn n l = l.
Proof.
  intros H. unfold lastn.
  now replace (length l - n)%nat with 0%nat by lia.
Qed.

(** Truncating after every insertion keeps what truncating once at the end
    keeps. *)
Lemma lastn_snoc_lastn n l x : lastn n (lastn n l ++ [x]) = lastn n (l ++ [x]).
Proof.
  destruct (Nat.le_gt_cases (length l) n) as [Hle|Hgt].
  - now rewrite (lastn_all n l).
  - unfold lastn at 1 3. rewrite !length_app, length_lastn. simpl.
    rewrite Nat.min_l by lia.
    unfold lastn. rewrite !skipn_app, length_skipn, skipn_skipn.
    replace (n + 1 - n + (length l - n))%nat
      with (length l + 1 - n)%nat by lia.
    f_equal. f_equal. lia.
Qed.

Lemma In_lastn n l x : In x (lastn n l) -> In x l.
Proof.
  intros H. rewrite <- (firstn_skipn (length l - n) l).
  apply in_or_app. now right.
Qed.

End LastN.

Section PushCapped.
Context {R : Type}.
Implicit Types (m : JsMap.t (list R)) (k : string) (x : R).
Import JsMap JsMapFacts.

Lemma getOr_pushCapped_same cap m k x :
  getOr (pushCapped cap m k x) k = lastn cap (getOr m k ++ [x]).
Proof.
  unfold pushCapped, getOr at 1. rewrite get_set_same, truncate_lastn.
  unfold has, getOr. destruct (get m k) eqn:E.
  - now rewrite E.
  - now rewrite get_set_same.
Qed.

Lemma get_pushCapped_other cap m k k' x :
  k <> k' -> get (pushCapped cap m k x) k' = get m k'.
Proof.
  intros Hne. unfold pushCapped. rewrite get_set_other by auto.
  destruct (has m k); auto. now rewrite get_set_other.
Qed.

Lemma keys_pushCapped cap m k x :
  keys (pushCapped cap m k x)
  = if has m k then keys m else keys m ++ [k].
Proof.
  unfold pushCapped. destruct (has m k) eqn:E.
  - apply keys_set_present. now apply has_In_keys.
  - assert (~ In k (keys m)) as Hn.
    { rewrite <- has_In_keys. congruence. }
    rewrite keys_set_present.
    + now apply keys_set_absent.
    + rewrite keys_set_absent by auto. apply in_or_app. simpl. auto.
Qed.

Lemma getOr_pushAll cap ps : forall m k,
  getOr (pushAll cap m ps) k = lastn cap (getOr m k ++ valuesFor k ps)
  \/ (valuesFor k ps = [] /\ getOr (pushAll cap m ps) k = getOr m k).
Proof.
  induction ps as [|[k0 x0] ps IH] using rev_ind; intros m k.
  - right. auto.
  - unfold pushAll, valuesFor. rewrite fold_left_app, filter_app, map_app.
    simpl. fold (pushAll cap m ps). fold (valuesFor k ps).
    destruct (String.eqb k0 k) eqn:E; simpl.
    + apply String.eqb_eq in E. subst k0. left.
      rewrite getOr_pushCapped_same.
      destruct (IH m k) as [H|[H1 H2]].
      * rewrite H, lastn_snoc_lastn. now rewrite app_assoc.
      * rewrite H2, H1. reflexivity.
    + apply String.eqb_neq in E. rewrite app_nil_r.
      unfold getOr at 1 3. rewrite get_pushCapped_other by auto.
      apply IH.
Qed.

Lemma getOr_pushAll_empty cap ps k :
  getOr (pushAll cap (@empty (list R)) ps) k = lastn cap (valuesFor k ps).
Proof.
  destruct (getOr_pushAll cap ps (@empty (list R)) k) as [H|[H1 H2]].
  - exact H.
  - rewrite H2, H1. reflexivity.
Qed.

Lemma keys_pushAll cap ps : forall m,
  NoDup (keys m) ->
  NoDup (keys (pushAll cap m ps))
  /\ (forall k, In k (keys (pushAll cap m ps))
                <-> In k (keys m) \/ In k (map fst ps)).
Proof.
  induction ps as [|[k0 x0] ps IH]; intros m Hm; simpl.
  - split; auto. intros k. tauto.
  - assert (NoDup (keys (pushCapped cap m k0 x0))) as Hnd.
    { rewrite keys_pushCapped. destruct (has m k0) eqn:E; auto.
      apply NoDup_app; auto.
      - constructor; [simpl; tauto | constructor].
      - intros k Hk [<-|[]]. apply has_In_keys in Hk. congruence. }
    destruct (IH _ Hnd) as [H1 H2]. split; auto.
    intros k. rewrite H2, keys_pushCapped.
    destruct (has m k0) eqn:E.
    + apply has_In_keys in E. split; [tauto|].
      intros [H|[<-|H]]; auto.
    + rewrite in_app_iff. simpl. tauto.
Qed.

End PushCapped.

(** The request map and the error map after a sequence of calls. *)
Lemma run_stores cs : forall m,
  requests (run m cs) = pushAll 1000 (requests m) (requestPairs cs)
  /\ errors (run m cs) = pushAll 500 (errors m) (errorPairs cs).
Proof.
  induction cs as [|[c|c] cs IH]; intros m; simpl; auto.
  - destruct (IH (doRequest m c)) as [H1 H2]. now rewrite H1, H2.
  - destruct (IH (doError m c)) as [H1 H2]. now rewrite H1, H2.
Qed.

(** C1. Whatever calls of [recordRequest] and [recordError] a fresh service
    receives, the log of every endpoint key is the last 1000 of the records
    sent to that key, in the order they were sent, and the log of every
    error kind is the last 500 of the records of that kind: no log exceeds
    its bound, and what is missing from a log is a prefix of what was sent,
    the oldest records. *)
Theorem bounded_logs_keep_most_recent (cs : list Call) (k : string) :
  let m := run newMetrics cs in
  let sentRequests := valuesFor k (requestPairs cs) in
  let sentErrors := valuesFor k (errorPairs cs) in
  getOr (requests m) k = lastn 1000 sentRequests
  /\ (length (getOr (requests m) k) <= 1000)%nat
  /\ (exists evicted, sentRequests = evicted ++ getOr (requests m) k)
  /\ getOr (errors m) k = lastn 500 sentErrors
  /\ (length (getOr (errors m) k) <= 500)%nat
  /\ (exists evicted, sentErrors = evicted ++ getOr (errors m) k).
Proof.
  intros m sentRequests sentErrors.
  destruct (run_stores cs newMetrics) as [Hr He].
  assert (getOr (requests m) k = lastn 1000 sentRequests) as H1.
  { unfold m. rewrite Hr. apply getOr_pushAll_empty. }
  assert (getOr (errors m) k = lastn 500 sentErrors) as H2.
  { unfold m. rewrite He. apply getOr_pushAll_empty. }
  rewrite H1, H2, !length_lastn. repeat split; try lia.
  - exists (firstn (length sentRequests - 1000) sentRequests).
    unfold lastn. now rewrite firstn_skipn.
  - exists (firstn (length sentErrors - 500) sentErrors).
    unfold lastn. now rewrite firstn_skipn.
Qed.

(** ** Statistics *)

Lemma size_pushAll_empty {R} cap (ps : list (string * R)) :
  JsMap.size (pushAll cap (@JsMap.empty (list R)) ps)
  = length (nodup string_dec (map fst ps)).
Proof.
  destruct (keys_pushAll cap ps (@JsMap.empty (list R))) as [Hnd Hin].
  { constructor. }
  unfold JsMap.size. rewrite <- (length_map fst).
  fold (JsMap.keys (pushAll cap (@JsMap.empty (list R)) ps)).
  apply Permutation_length, NoDup_Permutation; auto.
  - apply NoDup_nodup.
  - intros k. rewrite Hin, nodup_In. simpl. tauto.
Qed.

Lemma requestPairs_requestWith endpoint method args :
  map fst (requestPairs (map (requestWith endpoint method) args))
  = map (fun _ => requestKey method endpoint) args.
Proof.
  induction args as [|[[[now sc] rt] uid] args IH]; simpl; auto.
  now rewrite IH.
Qed.

Lemma nodup_constant (k : string) {B} (x : B) (l : list B) :
  nodup string_dec (map (fun _ => k) (x :: l)) = [k].
Proof.
  revert x. induction l as [|y l IH]; intros x; auto.
  change (map (fun _ : B => k) (x :: y :: l))
    with (k :: map (fun _ : B => k) (y :: l)).
  cbn [nodup].
  destruct (in_dec string_dec k (map (fun _ : B => k) (y :: l))) as [|n].
  - apply IH.
  - exfalso. apply n. simpl. auto.
Qed.

(** C10. The [requests] and [errors] fields of [getStats] are the sizes of
    the two maps: in every state the number of keys present, and after any
    calls on a fresh service the number of distinct endpoint keys and of
    distinct error kinds recorded, whatever the number of records. After
    one or more requests to a single endpoint and method [requests] is 1,
    and pruning the records leaves both fields as they are. *)
Theorem getStats_counts_keys :
  (forall m : Metrics,
     st_requests (getStats m) = length (JsMap.keys (requests m))
     /\ st_errors (getStats m) = length (JsMap.keys (errors m)))
  /\ (forall cs : list Call,
        st_requests (getStats (run newMetrics cs))
        = length (nodup string_dec (map fst (requestPairs cs)))
        /\ st_errors (getStats (run newMetrics cs))
           = length (nodup string_dec (map fst (errorPairs cs))))
  /\ (forall endpoint method (a : RequestArgs) (rest : list RequestArgs),
        st_requests
          (getStats
             (run newMetrics (map (requestWith endpoint method) (a :: rest))))
        = 1%nat)
  /\ (forall now m,
        st_requests (getStats (cleanOldMetrics now m))
        = st_requests (getStats m)
        /\ st_errors (getStats (cleanOldMetrics now m))
           = st_errors (getStats m)).
Proof.
  assert (forall cs : list Call,
     st_requests (getStats (run newMetrics cs))
     = length (nodup string_dec (map fst (requestPairs cs)))
     /\ st_errors (getStats (run newMetrics cs))
        = length (nodup string_dec (map fst (errorPairs cs)))) as H.
  { intros cs. simpl. destruct (run_stores cs newMetrics) as [Hr He].
    rewrite Hr, He. split; apply size_pushAll_empty. }
  split; [|split; [exact H|split]].
  - intros m. unfold JsMap.keys. simpl. unfold JsMap.size.
    now rewrite !length_map.
  - intros endpoint method a rest.
    destruct (H (map (requestWith endpoint method) (a :: rest))) as [-> _].
    now rewrite requestPairs_requestWith, nodup_constant.
  - intros now m. simpl. unfold JsMap.size. now rewrite !length_map.
Qed.

(** ** Health evaluation *)

Lemma healthStep_overall results entry :
  hr_overall (healthStep results entry)
  = overallStep (hr_overall results) (outcomeStatus (snd entry)).
Proof.
  destruct entry as [name [result|message]]; unfold healthStep, overallStep;
    simpl; auto.
  unfold isWarning.
  destruct (isFailure (cr_status result)); auto.
  destruct (String.eqb (cr_status result) "warning"
            && String.eqb (hr_overall results) "healthy"); auto.
Qed.

Lemma performHealthCheck_overall checks : forall results,
  hr_overall (fold_left healthStep checks results)
  = fold_left overallStep (statusesOf checks) (hr_overall results).
Proof.
  induction checks as [|entry checks IH]; intros results; simpl; auto.
  now rewrite IH, healthStep_overall.
Qed.

Lemma overall_from_critical statuses :
  fold_left overallStep statuses "critical" = "critical".
Proof.
  induction statuses as [|s statuses IH]; simpl; auto.
  unfold overallStep at 2. simpl. rewrite andb_false_r.
  destruct (isFailure s); auto.
Qed.

Lemma overall_from_warning statuses :
  fold_left overallStep statuses "warning"
  = if existsb isFailure statuses then "critical" else "warning".
Proof.
  induction statuses as [|s statuses IH]; simpl; auto.
  unfold overallStep at 2. simpl. rewrite andb_false_r.
  destruct (isFailure s); simpl; auto using overall_from_critical.
Qed.

Lemma overall_from_healthy statuses :
  fold_left overallStep statuses "healthy" = worstStatus statuses.
Proof.
  unfold worstStatus.
  induction statuses as [|s statuses IH]; simpl; auto.
  unfold overallStep at 2. simpl. rewrite andb_true_r.
  destruct (isFailure s); simpl; auto using overall_from_critical.
  destruct (isWarning s); simpl; auto using overall_from_warning.
Qed.

Lemma statusRank_worstStatus statuses :
  statusRank (worstStatus statuses) = list_max (map statusRank statuses).
Proof.
  unfold worstStatus.
  induction statuses as [|s statuses IH]; simpl; auto.
  unfold statusRank at 2. unfold isWarning at 1.
  destruct (isFailure s); simpl.
  - change (statusRank "critical") with 2%nat.
    destruct (existsb isFailure statuses);
      [|destruct (existsb isWarning statuses)]; rewrite <- IH;
      reflexivity.
  - destruct (String.eqb s "warning"); simpl; rewrite <- IH;
      destruct (existsb isFailure statuses); auto;
      destruct (existsb isWarning statuses); auto.
Qed.

(** C2. Whatever the checks of a pass return or throw, the overall status
    of [performHealthCheck] is the worst of their statuses: critical when a
    check is critical or in error (a check that throws counts as error),
    else warning when a check is in warning, else healthy; its rank in the
    order error/critical > warning > healthy is the greatest rank among
    the checks. *)
Theorem overall_is_worst_status (checks : list (string * CheckOutcome)) :
  let overall := hr_overall (performHealthCheck checks) in
  overall = worstStatus (statusesOf checks)
  /\ statusRank overall = list_max (map statusRank (statusesOf checks))
  /\ (overall = "healthy" \/ overall = "warning" \/ overall = "critical").
Proof.
  intros overall.
  assert (overall = worstStatus (statusesOf checks)) as H.
  { unfold overall, performHealthCheck.
    rewrite performHealthCheck_overall. apply overall_from_healthy. }
  rewrite H. split; [reflexivity|]. split.
  - apply statusRank_worstStatus.
  - unfold worstStatus.
    destruct (existsb isFailure (statusesOf checks)); auto.
    destruct (existsb isWarning (statusesOf checks)); auto.
Qed.

(** ** Health endpoint *)

Lemma healthStatusCode_cases overall :
  healthStatusCode overall = if isFailure overall then 503 else 200.
Proof.
  unfold healthStatusCode, isFailure.
  destruct (String.eqb overall "warning") eqn:E; auto.
  apply String.eqb_eq in E. now subst overall.
Qed.

Lemma isFailure_iff status :
  isFailure status = true <-> status = "critical" \/ status = "error".
Proof.
  unfold isFailure. rewrite orb_true_iff, !String.eqb_eq. tauto.
Qed.

(** C3. The health endpoint answers 503 exactly when the overall status of
    the health check is critical or error, and 200 in every other case,
    warning included; the status is error when [performHealthCheck] itself
    throws in the middleware. *)
Theorem health_endpoint_status (healthCheck : HealthCheck) :
  let response := healthRoute healthCheck in
  let overall := overallOf healthCheck in
  (hp_statusCode response = 503
   <-> overall = "critical" \/ overall = "error")
  /\ (hp_statusCode response = 200
      <-> ~ (overall = "critical" \/ overall = "error"))
  /\ healthStatusCode "warning" = 200
  /\ healthStatusCode "healthy" = 200
  /\ healthStatusCode "critical" = 503
  /\ healthStatusCode "error" = 503.
Proof.
  intros response overall. unfold response, healthRoute. simpl.
  fold overall. rewrite healthStatusCode_cases, <- isFailure_iff.
  destruct (isFailure overall); repeat split; auto; try discriminate;
    try congruence.
Qed.

(** ** Request metrics *)

(** The object the literal at the head of [getRequestMetrics] builds. *)
Lemma getRequestMetrics_none_recent (since : Z) (m : Metrics) :
  Forall
    (fun entry =>
       filter (fun r => since <=? rq_timestamp r) (snd entry) = [])
    (requests m) ->
  getRequestMetrics since m
  = {| rm_total := 0; rm_successful := 0; rm_failed := 0;
       rm_averageResponseTime := 0; rm_errorRate := None;
       rm_endpoints := [] |}.
Proof.
  intros H. unfold getRequestMetrics.
  match goal with
  | |- context [fold_left _ _ ?init] =>
      assert (fold_left (requestMetricsStep since) (requests m) init = init)
        as ->
  end.
  - induction H as [|entry l Hentry _ IH]; simpl; auto.
    unfold requestMetricsStep at 2. now rewrite Hentry.
  - reflexivity.
Qed.

(** C4. With no record in the window (the store is empty, or every record
    is older than the cutoff) [getRequestMetrics] returns the four zero
    counters without dividing, but the object has no [errorRate] property:
    the property is not in the literal and is only assigned when a request
    was counted. *)
Theorem request_metrics_without_errorRate :
  (forall since : Z,
     getRequestMetrics since newMetrics
     = {| rm_total := 0; rm_successful := 0; rm_failed := 0;
          rm_averageResponseTime := 0; rm_errorRate := None;
          rm_endpoints := [] |})
  /\ (let m :=
        run newMetrics
          [requestWith "/media/:id" "GET" (100, 200, 12, None);
           requestWith "/media/:id" "GET" (150, 500, 40, None)] in
      getRequestMetrics 1000 m
      = {| rm_total := 0; rm_successful := 0; rm_failed := 0;
           rm_averageResponseTime := 0; rm_errorRate := None;
           rm_endpoints := [] |}
      /\ rm_errorRate (getRequestMetrics 1000 m) <> Some 0%Q).
Proof.
  split.
  - intros since. apply getRequestMetrics_none_recent. constructor.
  - simpl. split.
    + apply getRequestMetrics_none_recent. repeat constructor.
    + vm_compute. discriminate.
Qed.

(** ** Memory check *)

Lemma gtQ_true (a b : Q) : gtQ a b = true <-> (b < a)%Q.
Proof.
  unfold gtQ. rewrite negb_true_iff, <- not_true_iff_false, Qle_bool_iff.
  split; [apply Qnot_le_lt | apply Qlt_not_le].
Qed.

Lemma gtQ_false (a b : Q) : gtQ a b = false <-> (a <= b)%Q.
Proof.
  unfold gtQ. rewrite negb_false_iff. apply Qle_bool_iff.
Qed.

Lemma memory_limit_is_90 :
  (th_memoryUsage alertThresholds * inject_Z 100 == inject_Z 90)%Q.
Proof. reflexivity. Qed.

(** The status of the memory check as a function of the two usages. *)
Lemma checkMemoryHealth_status (memory : MemoryMetrics) :
  cr_status (checkMemoryHealth memory)
  = if gtQ (mm_processUsage memory) (inject_Z 90) then "critical"
    else if gtQ (mm_systemUsage memory) (inject_Z 90) then "warning"
    else if gtQ (mm_processUsage memory) (inject_Z 75) then "warning"
    else "healthy".
Proof.
  unfold checkMemoryHealth.
  assert (forall q, gtQ q (th_memoryUsage alertThresholds * inject_Z 100)
                    = gtQ q (inject_Z 90)) as Hlimit.
  { intros q. unfold gtQ. f_equal.
    destruct (Qle_bool q (inject_Z 90)) eqn:E.
    - apply Qle_bool_iff. apply Qle_bool_iff in E.
      now rewrite memory_limit_is_90.
    - apply not_true_iff_false. apply not_true_iff_false in E.
      rewrite Qle_bool_iff in *. now rewrite memory_limit_is_90. }
  rewrite !Hlimit.
  destruct (gtQ (mm_processUsage memory) (inject_Z 90)); auto.
  destruct (gtQ (mm_systemUsage memory) (inject_Z 90)); auto.
  destruct (gtQ (mm_processUsage memory) (inject_Z 75)); auto.
Qed.

(** C5, as the code has it. While the system usage is not above 90%, a
    process usage of exactly 90% is classified warning, and so is 89.9%;
    74.9% is healthy; the check is critical exactly when the process usage
    is strictly above 90%, and healthy exactly when it is at most 75%. *)
Theorem memory_check_boundaries (systemUsage : Q)
    (Hsystem : (systemUsage <= inject_Z 90)%Q) :
  let status processUsage :=
    cr_status
      (checkMemoryHealth
         {| mm_processUsage := processUsage;
            mm_systemUsage := systemUsage |}) in
  status (inject_Z 90) = "warning"
  /\ status (899 # 10) = "warning"
  /\ status (749 # 10) = "healthy"
  /\ (forall p, status p = "critical" <-> (inject_Z 90 < p)%Q)
  /\ (forall p, status p = "healthy" <-> (p <= inject_Z 75)%Q).
Proof.
  intros status.
  assert (forall p, status p
                    = if gtQ p (inject_Z 90) then "critical"
                      else if gtQ p (inject_Z 75) then "warning"
                      else "healthy") as H.
  { intros p. unfold status. rewrite checkMemoryHealth_status. simpl.
    apply gtQ_false in Hsystem. now rewrite Hsystem. }
  repeat split; try (rewrite H; reflexivity).
  - rewrite H. destruct (gtQ p (inject_Z 90)) eqn:E.
    + intros _. now apply gtQ_true.
    + destruct (gtQ p (inject_Z 75)); discriminate.
  - intros Hp. apply gtQ_true in Hp. now rewrite H, Hp.
  - rewrite H. destruct (gtQ p (inject_Z 90)) eqn:E; [discriminate|].
    destruct (gtQ p (inject_Z 75)) eqn:E'; [discriminate|].
    intros _. now apply gtQ_false.
  - intros Hp. rewrite H.
    assert (gtQ p (inject_Z 75) = false) as -> by now apply gtQ_false.
    assert (gtQ p (inject_Z 90) = false) as ->; auto.
    apply gtQ_false. eapply Qle_trans; [exact Hp|]. discriminate.
Qed.

Lemma memory_check_boundaries_witness :
  (inject_Z 50 <= inject_Z 90)%Q
  /\ cr_status
       (checkMemoryHealth
          {| mm_processUsage := inject_Z 90;
             mm_systemUsage := inject_Z 50 |})
     = "warning".
Proof.
  assert (inject_Z 50 <= inject_Z 90)%Q as H.
  { unfold Qle. simpl. lia. }
  split; [exact H|].
  exact (proj1 (memory_check_boundaries (inject_Z 50) H)).
Defined.

(** At exactly 90% the check does not answer critical. *)
Lemma memory_at_90_is_not_critical :
  ~ (cr_status
       (checkMemoryHealth
          {| mm_processUsage := inject_Z 90;
             mm_systemUsage := inject_Z 50 |})
     = "critical").
Proof. vm_compute. discriminate. Qed.

(** ** The sort, for a comparator that orders by a key, greatest first *)

Section SortByKey.
Context {A : Type} (key : A -> Z).

Local Abbreviation cmp := (fun a b : A => key b - key a).

Lemma insertSorted_perm x l : Permutation (insertSorted cmp x l) (x :: l).
Proof.
  induction l as [|y l IH]; simpl; auto.
  destruct (cmp x y <=? 0); auto.
  rewrite IH. apply perm_swap.
Qed.

Lemma jsSort_perm l : Permutation (jsSort cmp l) l.
Proof.
  induction l as [|x l IH]; simpl; auto.
  rewrite insertSorted_perm. now constructor.
Qed.

Lemma insertSorted_descending x l :
  descending key l -> descending key (insertSorted cmp x l).
Proof.
  unfold descending.
  induction 1 as [|y l Hl IH Hy]; simpl.
  - repeat constructor.
  - destruct (cmp x y <=? 0) eqn:E.
    + apply Z.leb_le in E.
      constructor; [now constructor|].
      constructor; [lia|].
      eapply Forall_impl; [|exact Hy]. simpl. intros; lia.
    + apply Z.leb_gt in E.
      constructor; auto.
      eapply Permutation_Forall.
      * symmetry. apply insertSorted_perm.
      * constructor; [lia | exact Hy].
Qed.

Lemma jsSort_descending l : descending key (jsSort cmp l).
Proof.
  induction l as [|x l IH]; simpl.
  - constructor.
  - now apply insertSorted_descending.
Qed.

Lemma insertSorted_filter z x l :
  filter (fun a => key a =? z) (insertSorted cmp x l)
  = filter (fun a => key a =? z) (x :: l).
Proof.
  induction l as [|y l IH]; simpl; auto.
  destruct (cmp x y <=? 0) eqn:E; auto.
  apply Z.leb_gt in E. simpl.
  rewrite IH. simpl.
  destruct (key x =? z) eqn:Ex; destruct (key y =? z) eqn:Ey; auto.
  apply Z.eqb_eq in Ex, Ey. lia.
Qed.

(** Stability: the elements of any one key come out in the order they went
    in. *)
Lemma jsSort_stable z l :
  filter (fun a => key a =? z) (jsSort cmp l)
  = filter (fun a => key a =? z) l.
Proof.
  induction l as [|x l IH]; simpl; auto.
  rewrite insertSorted_filter. simpl. now rewrite IH.
Qed.

(** A prefix of a descending list dominates the rest. *)
Lemma descending_firstn n l :
  descending key l ->
  descending key (firstn n l)
  /\ forall a b, In a (firstn n l) -> In b (skipn n l) -> key b <= key a.
Proof.
  unfold descending. intros H. revert n.
  induction H as [|x l Hl IH Hx]; intros n.
  - rewrite firstn_nil, skipn_nil. split; [constructor | intros ? ? []].
  - destruct n as [|n]; simpl.
    + split; [constructor | tauto].
    + destruct (IH n) as [IH1 IH2]. split.
      * constructor; auto.
        rewrite Forall_forall in *. intros a Ha. apply Hx.
        rewrite <- (firstn_skipn n l). apply in_or_app. auto.
      * intros a b [<-|Ha] Hb; auto.
        rewrite Forall_forall in Hx. apply Hx.
        rewrite <- (firstn_skipn n l). apply in_or_app. auto.
Qed.

End SortByKey.

Lemma newestFirst_by_key :
  newestFirst = fun a b => re_timestamp b - re_timestamp a.
Proof. reflexivity. Qed.

Lemma bySeverity_by_key :
  bySeverity
  = fun a b => severityOrder (al_severity b) - severityOrder (al_severity a).
Proof. reflexivity. Qed.

(** ** Alerts endpoint *)

(** C8. The alerts endpoint returns the combined list sorted by severity,
    critical before warning before info: the result is a rearrangement of
    the combined list, in decreasing severity order, and the alerts of any
    one severity rank come out in the order they went in; the list
    [warning A, critical B, info C, critical D] comes out as
    [critical B, critical D, warning A, info C]. *)
Theorem alerts_sorted_by_severity_stable :
  (forall alerts : list Alert,
     Permutation (sortAlerts alerts) alerts
     /\ descending (fun a => severityOrder (al_severity a))
          (sortAlerts alerts)
     /\ forall rank : Z,
          filter (fun a => severityOrder (al_severity a) =? rank)
            (sortAlerts alerts)
          = filter (fun a => severityOrder (al_severity a) =? rank) alerts)
  /\ (forall healthCheck severity performanceAlerts,
        ar_items (alertsRoute healthCheck severity performanceAlerts)
        = sortAlerts
            ((if String.eqb severity "" then alertsOf healthCheck
              else filter (fun a => String.eqb (al_severity a) severity)
                     (alertsOf healthCheck))
             ++ performanceAlerts))
  /\ (forall A B C D : Alert,
        al_severity A = "warning" -> al_severity B = "critical" ->
        al_severity C = "info" -> al_severity D = "critical" ->
        sortAlerts [A; B; C; D] = [B; D; A; C]).
Proof.
  split; [|split].
  - intros alerts. unfold sortAlerts. rewrite bySeverity_by_key.
    split; [|split].
    + apply (jsSort_perm (fun a => severityOrder (al_severity a))).
    + apply (jsSort_descending (fun a => severityOrder (al_severity a))).
    + intros rank.
      apply (jsSort_stable (fun a => severityOrder (al_severity a))).
  - reflexivity.
  - intros A B C D HA HB HC HD. unfold sortAlerts, bySeverity.
    cbn [jsSort insertSorted].
    do 3 (rewrite ?HA, ?HB, ?HC, ?HD; cbn). reflexivity.
Qed.

Lemma alerts_sorted_by_severity_stable_witness :
  al_severity (mkAlert "storage" "warning" "A") = "warning"
  /\ al_severity (mkAlert "database" "critical" "B") = "critical"
  /\ al_severity (mkAlert "system" "info" "C") = "info"
  /\ al_severity (mkAlert "disk" "critical" "D") = "critical"
  /\ sortAlerts
       [mkAlert "storage" "warning" "A"; mkAlert "database" "critical" "B";
        mkAlert "system" "info" "C"; mkAlert "disk" "critical" "D"]
     = [mkAlert "database" "critical" "B"; mkAlert "disk" "critical" "D";
        mkAlert "storage" "warning" "A"; mkAlert "system" "info" "C"].
Proof.
  repeat (split; [reflexivity|]).
  apply (proj2 (proj2 alerts_sorted_by_severity_stable)); reflexivity.
Defined.

(** ** Error metrics *)

Lemma errorMetricsStep_recent since metrics entry :
  xm_recent (errorMetricsStep since metrics entry)
  = xm_recent metrics
    ++ map (toRecent (fst entry))
         (lastn 10 (filter (fun e => since <=? er_timestamp e) (snd entry))).
Proof.
  unfold errorMetricsStep.
  destruct (filter (fun e => since <=? er_timestamp e) (snd entry)) eqn:E.
  - simpl. now rewrite app_nil_r.
  - reflexivity.
Qed.

Lemma xm_recent_fold since es : forall metrics,
  xm_recent (fold_left (errorMetricsStep since) es metrics)
  = xm_recent metrics
    ++ flat_map
         (fun entry =>
            map (toRecent (fst entry))
              (lastn 10
                 (filter (fun e => since <=? er_timestamp e) (snd entry))))
         es.
Proof.
  induction es as [|entry es IH]; intros metrics; simpl.
  - now rewrite app_nil_r.
  - now rewrite IH, errorMetricsStep_recent, app_assoc.
Qed.

Lemma getErrorMetrics_recent since m :
  xm_recent (getErrorMetrics since m)
  = firstn 20 (jsSort newestFirst (recentCandidates since m)).
Proof.
  unfold getErrorMetrics. cbn [xm_recent]. now rewrite xm_recent_fold.
Qed.

Lemma recentCandidates_in_window since m r :
  In r (recentCandidates since m) -> since <= re_timestamp r.
Proof.
  unfold recentCandidates. rewrite in_flat_map.
  intros [entry [_ H]]. apply in_map_iff in H.
  destruct H as [e [<- He]]. apply In_lastn, filter_In in He.
  simpl. now apply Z.leb_le.
Qed.

(** C7, as the code has it. The candidates of [recent] are, for each error
    kind, the last ten of its records with a time stamp at or after the
    cutoff. [recent] holds min(20, number of candidates) of them, newest
    first; each is in the window, and each is at least as recent as every
    candidate left out. *)
Theorem recent_errors_from_last_ten_per_kind (since : Z) (m : Metrics) :
  let recent := xm_recent (getErrorMetrics since m) in
  let candidates := recentCandidates since m in
  descending re_timestamp recent
  /\ length recent = Nat.min 20 (length candidates)
  /\ (forall r, In r recent -> since <= re_timestamp r)
  /\ exists omitted,
       Permutation (recent ++ omitted) candidates
       /\ forall r o, In r recent -> In o omitted ->
                      re_timestamp o <= re_timestamp r.
Proof.
  intros recent candidates.
  assert (recent = firstn 20 (jsSort newestFirst candidates)) as Hrecent
    by apply getErrorMetrics_recent.
  pose proof (jsSort_perm re_timestamp candidates) as Hperm.
  pose proof (jsSort_descending re_timestamp candidates) as Hsorted.
  rewrite <- newestFirst_by_key in Hperm, Hsorted.
  destruct (descending_firstn re_timestamp 20 _ Hsorted) as [H1 H2].
  rewrite <- Hrecent in H1, H2.
  split; [exact H1|]. split; [|split].
  - rewrite Hrecent, length_firstn. now rewrite (Permutation_length Hperm).
  - intros r Hr. apply (recentCandidates_in_window since m).
    eapply Permutation_in; [exact Hperm|].
    rewrite Hrecent in Hr.
    rewrite <- (firstn_skipn 20 (jsSort newestFirst candidates)).
    apply in_or_app. auto.
  - exists (skipn 20 (jsSort newestFirst candidates)). split; auto.
    rewrite Hrecent, firstn_skipn. exact Hperm.
Qed.

Lemma recent_errors_from_last_ten_per_kind_witness :
  descending re_timestamp (xm_recent (getErrorMetrics 0 lopsidedStore))
  /\ length (xm_recent (getErrorMetrics 0 lopsidedStore))
     = Nat.min 20 (length (recentCandidates 0 lopsidedStore)).
Proof.
  destruct (recent_errors_from_last_ten_per_kind 0 lopsidedStore)
    as [H1 [H2 _]].
  split; [exact H1 | exact H2].
Defined.

(** With 21 errors of one kind at times 100 to 120 and one error of
    another kind at time 1, all in the window, [recent] is not the 20 most
    recent records: it holds the old record of the second kind and leaves
    out the record of time 110. *)
Lemma recent_errors_miss_newer_records :
  xm_recent (getErrorMetrics 0 lopsidedStore)
  <> firstn 20 (jsSort newestFirst (recordsInWindow 0 lopsidedStore))
  /\ length (recordsInWindow 0 lopsidedStore) = 22%nat
  /\ length (xm_recent (getErrorMetrics 0 lopsidedStore)) = 11%nat
  /\ In (mkRecentError "DatabaseError" "failed" 110 "high")
       (recordsInWindow 0 lopsidedStore)
  /\ In (mkRecentError "ValidationError" "failed" 1 "low")
       (xm_recent (getErrorMetrics 0 lopsidedStore))
  /\ ~ In (mkRecentError "DatabaseError" "failed" 110 "high")
         (xm_recent (getErrorMetrics 0 lopsidedStore)).
Proof.
  vm_compute. repeat split; try discriminate.
  - do 10 right. left. reflexivity.
  - do 10 right. left. reflexivity.
  - intuition discriminate.
Qed.

(** ** Bucketed history *)

Lemma unshift_loop {B} (f : nat -> B) (l : list nat) : forall acc,
  fold_left (fun buckets i => f i :: buckets) l acc = rev (map f l) ++ acc.
Proof.
  induction l as [|i l IH]; intros acc; simpl; auto.
  now rewrite IH, <- app_assoc.
Qed.

Lemma historyBuckets_rev now timeRange mediaMetrics playlistMetrics :
  historyBuckets now timeRange mediaMetrics playlistMetrics
  = rev (map (makeBucket now (bucketSize timeRange) mediaMetrics
                playlistMetrics)
           (seq 0 (bucketCount timeRange))).
Proof.
  unfold historyBuckets. now rewrite unshift_loop, app_nil_r.
Qed.

Lemma sumZ_cons x l : sumZ (x :: l) = x + sumZ l.
Proof. reflexivity. Qed.

Lemma sumZ_app l1 l2 : sumZ (l1 ++ l2) = sumZ l1 + sumZ l2.
Proof. induction l1 as [|x l1 IH]; simpl; lia. Qed.

Lemma sumZ_rev l : sumZ (rev l) = sumZ l.
Proof.
  induction l as [|x l IH]; simpl; auto. rewrite sumZ_app. simpl. lia.
Qed.

(** The buckets are disjoint: a time stamp passes the test of one bucket at
    most. *)
Lemma inBucket_disjoint now size i j t :
  0 < size -> i <> j ->
  inBucket now size i t = true -> inBucket now size j t = false.
Proof.
  unfold inBucket, bucketStart, bucketEnd. intros Hsize Hij H.
  apply andb_true_iff in H. destruct H as [H1 H2].
  apply Z.leb_le in H1. apply Z.ltb_lt in H2.
  apply andb_false_iff.
  destruct (Nat.lt_ge_cases i j) as [Hlt|Hge].
  - right. apply Z.ltb_ge. nia.
  - left. apply Z.leb_gt. assert (j < i)%nat by lia. nia.
Qed.

(** Over the first [n] buckets, the tests a time stamp passes number one
    when it lies in the [n] bucket widths before [now], and none
    otherwise. *)
Lemma inBucket_count now size t n :
  0 < size ->
  sumZ (map (fun i => if inBucket now size i t then 1 else 0) (seq 0 n))
  = if (now - Z.of_nat n * size <=? t) && (t <? now) then 1 else 0.
Proof.
  intros Hsize. induction n as [|n IH].
  - cbn [seq map sumZ fold_right].
    destruct ((now - Z.of_nat 0 * size <=? t) && (t <? now)) eqn:E; auto.
    apply andb_true_iff in E. destruct E as [E1 E2].
    apply Z.leb_le in E1. apply Z.ltb_lt in E2. lia.
  - rewrite seq_S, map_app, sumZ_app, IH.
    cbn [Nat.add map sumZ fold_right].
    unfold inBucket, bucketStart, bucketEnd.
    rewrite Nat2Z.inj_succ.
    replace (Z.succ (Z.of_nat n) * size) with (Z.of_nat n * size + size)
      by ring.
    replace ((Z.of_nat n + 1) * size) with (Z.of_nat n * size + size)
      by ring.
    assert (0 <= Z.of_nat n * size) as Ha by nia. revert Ha.
    generalize (Z.of_nat n * size). intros a Ha.
    destruct (now - a <=? t) eqn:E1;
      destruct (t <? now) eqn:E2;
      destruct (now - (a + size) <=? t) eqn:E3;
      destruct (t <? now - a) eqn:E4;
      simpl; auto;
      rewrite ?Z.leb_le, ?Z.leb_gt, ?Z.ltb_lt, ?Z.ltb_ge in *; lia.
Qed.

Section BucketCounts.
Context {Row : Type} (time : Row -> Z) (now size : Z).
Hypothesis size_pos : 0 < size.

Lemma bucket_counts_sum (n : nat) (rows : list Row) :
  sumZ (map (fun i => lengthZ (filter (fun r => inBucket now size i (time r))
                                 rows))
          (seq 0 n))
  = lengthZ
      (filter
         (fun r => (now - Z.of_nat n * size <=? time r) && (time r <? now))
         rows).
Proof.
  induction rows as [|r rows IH].
  - simpl. induction (seq 0 n); simpl; auto.
  - assert (forall l : list nat,
      sumZ (map (fun i => lengthZ (filter
                   (fun r => inBucket now size i (time r)) (r :: rows))) l)
      = sumZ (map (fun i => if inBucket now size i (time r) then 1 else 0) l)
        + sumZ (map (fun i => lengthZ (filter
                   (fun r => inBucket now size i (time r)) rows)) l)) as H.
    { induction l as [|i l IHl]; [reflexivity|].
      rewrite !map_cons, !sumZ_cons, IHl. cbn [filter]. unfold lengthZ.
      destruct (inBucket now size i (time r)); simpl length; lia. }
    rewrite H, IH, inBucket_count by assumption.
    cbn [filter]. unfold lengthZ.
    destruct ((now - Z.of_nat n * size <=? time r) && (time r <? now));
      simpl length; lia.
Qed.

End BucketCounts.

Lemma rev_map_seq {B} (f : nat -> B) (n : nat) :
  rev (map f (seq 0 n)) = map (fun k => f (n - 1 - k)%nat) (seq 0 n).
Proof.
  induction n as [|n IH]; auto.
  rewrite seq_S at 1. rewrite map_app, rev_app_distr. simpl rev.
  cbn [app seq map]. f_equal.
  - f_equal. lia.
  - rewrite IH, <- seq_shift, map_map. apply map_ext_in.
    intros k Hk. apply in_seq in Hk. f_equal. lia.
Qed.

Lemma inHour_inBucket now k t :
  (k < 24)%nat -> inBucket now hour (24 - 1 - k) t = inHour now k t.
Proof.
  intros Hk. unfold inHour, inBucket, bucketStart, bucketEnd, hourStart.
  rewrite Nat2Z.inj_sub by lia. f_equal; f_equal; unfold hour; lia.
Qed.

Lemma countWhere_ext {A} (p q : A -> bool) rows :
  (forall a, p a = q a) -> countWhere p rows = countWhere q rows.
Proof.
  intros H. destruct rows as [l|]; simpl; auto.
  now rewrite (filter_ext _ _ H).
Qed.

(** Of rows that are all in the range, those before [now] are all but
    those at or after [now]. *)
Lemma count_before_now {Row} (time : Row -> Z) (lo now : Z) rows :
  lengthZ
    (filter (fun r => (lo <=? time r) && (time r <? now))
       (filter (fun r => lo <=? time r) rows))
  = lengthZ (filter (fun r => lo <=? time r) rows)
    - lengthZ
        (filter (fun r => now <=? time r)
           (filter (fun r => lo <=? time r) rows)).
Proof.
  unfold lengthZ. induction rows as [|r rows IH]; auto.
  cbn [filter]. destruct (lo <=? time r) eqn:E1; auto.
  cbn [filter]. rewrite E1. simpl andb.
  destruct (time r <? now) eqn:E2.
  - assert ((now <=? time r) = false) as ->.
    { apply Z.leb_gt. now apply Z.ltb_lt. }
    simpl length. lia.
  - assert ((now <=? time r) = true) as ->.
    { apply Z.leb_le. now apply Z.ltb_ge. }
    simpl length. lia.
Qed.

Lemma history_total_24h {Row} (time : Row -> Z) (now : Z)
    (table : option (list Row)) :
  let selected :=
    option_map (filter (fun r => now - 24 * hour <=? time r)) table in
  sumZ
    (map (fun i => countWhere (fun r => inBucket now hour i (time r)) selected)
       (seq 0 24))
  = countRows selected - countWhere (fun r => now <=? time r) selected.
Proof.
  destruct table as [rows|]; simpl option_map; cbv zeta.
  - unfold countWhere, countRows.
    rewrite (bucket_counts_sum time now hour) by reflexivity.
    change (Z.of_nat 24 * hour) with (24 * hour).
    apply count_before_now.
  - reflexivity.
Qed.

(** C9, as the code has it. For the range 24h with the history asked for,
    the endpoint returns 24 buckets, oldest first, one for each of the 24
    hours before [now]; bucket [k] counts the rows whose time stamp is at
    or after the start of hour [k] and before its end, so a time stamp of
    the 24 hours is counted in one bucket exactly and any other in none.
    The counts of the buckets add up to the count of the range less the
    rows time-stamped at or after [now], which the range counts and no
    bucket does. *)
Theorem history_24h_buckets (now : Z) (mediaTable : option (list MediaRow))
    (playlistTable : option (list PlaylistRow)) :
  let metrics := dashboardMetrics now "24h" true mediaTable playlistTable in
  let mediaMetrics := selectMedia (now - 24 * hour) mediaTable in
  let playlistMetrics := selectPlaylists (now - 24 * hour) playlistTable in
  dm_history metrics
  = Some
      (map
         (fun k =>
            {| bk_timestamp := hourStart now k;
               bk_mediaUploads :=
                 countWhere (fun m => inHour now k (md_created_at m))
                   mediaMetrics;
               bk_playlistUpdates :=
                 countWhere (fun p => inHour now k (pl_updated_at p))
                   playlistMetrics |})
         (seq 0 24))
  /\ (forall t : Z,
        sumZ (map (fun k => indicator (inHour now k t)) (seq 0 24))
        = indicator ((now - 24 * hour <=? t) && (t <? now)))
  /\ dm_mediaUploads metrics = countRows mediaMetrics
  /\ dm_playlistUpdates metrics = countRows playlistMetrics
  /\ historyTotal bk_mediaUploads (dm_history metrics)
     = dm_mediaUploads metrics
       - countWhere (fun m => now <=? md_created_at m) mediaMetrics
  /\ historyTotal bk_playlistUpdates (dm_history metrics)
     = dm_playlistUpdates metrics
       - countWhere (fun p => now <=? pl_updated_at p) playlistMetrics.
Proof.
  intros metrics mediaMetrics playlistMetrics.
  assert (dm_history metrics
          = Some (rev (map (makeBucket now hour mediaMetrics playlistMetrics)
                         (seq 0 24)))) as Hhist.
  { unfold metrics, dashboardMetrics. cbn [dm_history].
    now rewrite historyBuckets_rev. }
  split; [|split; [|split; [|split; [|split]]]].
  - rewrite Hhist, rev_map_seq. f_equal. apply map_ext_in.
    intros k Hk. apply in_seq in Hk. unfold makeBucket. f_equal.
    + unfold bucketStart, hourStart. rewrite Nat2Z.inj_sub by lia.
      unfold hour. lia.
    + apply countWhere_ext. intros m. apply inHour_inBucket. lia.
    + apply countWhere_ext. intros p. apply inHour_inBucket. lia.
  - intros t. unfold indicator.
    pose proof (inBucket_count now hour t 24 eq_refl) as Hcount.
    change (Z.of_nat 24 * hour) with (24 * hour) in Hcount.
    rewrite <- Hcount, <- (sumZ_rev (map _ (seq 0 24))), rev_map_seq.
    f_equal. apply map_ext_in. intros k Hk. apply in_seq in Hk.
    cbv beta. rewrite <- (inHour_inBucket now (24 - 1 - k) t) by lia.
    replace (24 - 1 - (24 - 1 - k))%nat with k by lia. reflexivity.
  - reflexivity.
  - reflexivity.
  - rewrite Hhist. unfold historyTotal. rewrite map_rev, sumZ_rev, map_map.
    apply (history_total_24h md_created_at now mediaTable).
  - rewrite Hhist. unfold historyTotal. rewrite map_rev, sumZ_rev, map_map.
    apply (history_total_24h pl_updated_at now playlistTable).
Qed.

(** A row stamped at [now] itself is in the count of the range and in no
    bucket. *)
Lemma history_24h_total_differs :
  historyTotal bk_mediaUploads
    (dm_history
       (dashboardMetrics 86400000 "24h" true
          (Some [mkMediaRow 86400000 1024 "image"]) None))
  <> dm_mediaUploads
       (dashboardMetrics 86400000 "24h" true
          (Some [mkMediaRow 86400000 1024 "image"]) None).
Proof. vm_compute. discriminate. Qed.

(** ** Endpoint patterns *)

(** A fact about every character, checked on each of the 256. *)
Ltac each_char c :=
  destruct c as [[] [] [] [] [] [] [] []]; vm_compute; auto.

Lemma isAlnum_lower c : isAlnum (toLowerChar c) = isAlnum c.
Proof. each_char c. Qed.

Lemma isDigit_lower c : isDigit (toLowerChar c) = isDigit c.
Proof. each_char c. Qed.

Lemma isHexDigit_lower c : isHexDigit (toLowerChar c) = isHexDigit c.
Proof. each_char c. Qed.

Lemma isSlash_lower c : isSlash (toLowerChar c) = isSlash c.
Proof. each_char c. Qed.

Lemma isHyphen_lower c : isHyphen (toLowerChar c) = isHyphen c.
Proof. each_char c. Qed.

Lemma toLowerChar_idem c : toLowerChar (toLowerChar c) = toLowerChar c.
Proof. each_char c. Qed.

Lemma isHexDigit_isAlnum c : isHexDigit c = true -> isAlnum c = true.
Proof. each_char c. Qed.

Lemma isAlnum_not_slash c : isAlnum c = true -> isSlash c = false.
Proof. each_char c. Qed.

Lemma isDigit_not_slash c : isDigit c = true -> isSlash c = false.
Proof. each_char c. Qed.

Lemma toLowerCase_app s t :
  toLowerCase (s ++ t)%string = (toLowerCase s ++ toLowerCase t)%string.
Proof. induction s as [|c s IH]; simpl; auto. now rewrite IH. Qed.

Lemma toLowerCase_idem s : toLowerCase (toLowerCase s) = toLowerCase s.
Proof.
  induction s as [|c s IH]; simpl; auto.
  now rewrite IH, toLowerChar_idem.
Qed.

Lemma runLength_lower p s :
  (forall c, p (toLowerChar c) = p c) ->
  runLength p (toLowerCase s) = runLength p s.
Proof.
  intros Hp. induction s as [|c s IH]; simpl; auto.
  rewrite Hp, IH. reflexivity.
Qed.

Lemma matchClasses_lower classes : forall s,
  Forall (fun p => forall c, p (toLowerChar c) = p c) classes ->
  matchClasses classes (toLowerCase s) = matchClasses classes s.
Proof.
  induction classes as [|p classes IH]; intros s H; simpl; auto.
  inversion H as [|? ? Hp Hrest]; subst.
  destruct s as [|c s]; simpl; auto.
  now rewrite Hp, IH.
Qed.

Lemma uuidClasses_lower :
  Forall (fun p => forall c, p (toLowerChar c) = p c) uuidClasses.
Proof.
  unfold uuidClasses. simpl.
  repeat (constructor;
          [first [exact isHexDigit_lower | exact isHyphen_lower]|]).
  constructor.
Qed.

(** The three expressions do not tell the cases apart. *)
Lemma matchUuid_lower s : matchUuid (toLowerCase s) = matchUuid s.
Proof.
  destruct s as [|c s]; auto. cbn [toLowerCase matchUuid].
  now rewrite isSlash_lower, (matchClasses_lower _ _ uuidClasses_lower).
Qed.

Lemma matchNumeric_lower s : matchNumeric (toLowerCase s) = matchNumeric s.
Proof.
  destruct s as [|c s]; auto. cbn [toLowerCase matchNumeric].
  now rewrite isSlash_lower, (runLength_lower _ _ isDigit_lower).
Qed.

Lemma matchCode_lower s : matchCode (toLowerCase s) = matchCode s.
Proof.
  destruct s as [|c s]; auto. cbn [toLowerCase matchCode].
  now rewrite isSlash_lower, (runLength_lower _ _ isAlnum_lower).
Qed.

Section Replace.
Variable m : string -> option nat.
Variable repl : string.

Lemma replaceFrom_lower :
  (forall s, m (toLowerCase s) = m s) ->
  toLowerCase repl = repl ->
  forall s skip,
    toLowerCase (replaceFrom m repl skip s)
    = replaceFrom m repl skip (toLowerCase s).
Proof.
  intros Hm Hrepl. induction s as [|c s IH]; intros skip; auto.
  cbn [replaceFrom toLowerCase]. destruct skip as [|k]; auto.
  change (String (toLowerChar c) (toLowerCase s))
    with (toLowerCase (String c s)) at 1.
  rewrite Hm. destruct (m (String c s)) as [n|].
  - now rewrite toLowerCase_app, Hrepl, IH.
  - cbn [toLowerCase]. now rewrite IH.
Qed.

Lemma replaceAll_noMatch s : noMatch m s -> replaceAll m repl s = s.
Proof.
  unfold replaceAll. induction s as [|c s IH]; auto.
  intros [H1 H2]. cbn [replaceFrom]. rewrite H1. now rewrite IH.
Qed.

Lemma replaceAll_nonempty s :
  s <> EmptyString -> repl <> EmptyString ->
  replaceAll m repl s <> EmptyString.
Proof.
  unfold replaceAll. destruct s as [|c s]; [congruence|].
  intros _ Hrepl. cbn [replaceFrom].
  destruct (m (String c s)); [|discriminate].
  destruct repl; [congruence | discriminate].
Qed.

(** Where the expression only matches at a slash and the replacement begins
    with one, replacing leaves the leading run of a class without slash as
    long as it was. *)
Lemma runLength_replace (p : ascii -> bool) :
  (forall c t, m (String c t) <> None -> isSlash c = true) ->
  (forall c, p c = true -> isSlash c = false) ->
  (exists c r, repl = String c r /\ isSlash c = true) ->
  forall s, runLength p (replaceFrom m repl 0 s) = runLength p s.
Proof.
  intros Hm Hp [c0 [r [-> Hc0]]]. induction s as [|c s IH]; auto.
  cbn [replaceFrom runLength].
  destruct (m (String c s)) as [n|] eqn:E.
  - assert (isSlash c = true) as Hc by (apply (Hm c s); congruence).
    cbn [append runLength].
    destruct (p c0) eqn:E0; [apply Hp in E0; congruence|].
    destruct (p c) eqn:E1; [apply Hp in E1; congruence|]. reflexivity.
  - cbn [runLength]. now rewrite IH.
Qed.

End Replace.

Lemma matchCode_at_slash c t :
  matchCode (String c t) <> None -> isSlash c = true.
Proof.
  simpl. destruct (isSlash c); auto.
Qed.

Lemma matchNumeric_at_slash c t :
  matchNumeric (String c t) <> None -> isSlash c = true.
Proof.
  simpl. destruct (isSlash c); auto.
Qed.

(** After the replacement of the codes no code is left. *)
Lemma noMatch_code_replaced s : forall skip,
  noMatch matchCode (replaceFrom matchCode "/:code" skip s).
Proof.
  induction s as [|c s IH]; intros skip; [exact I|].
  cbn [replaceFrom]. destruct skip as [|k]; auto.
  destruct (matchCode (String c s)) as [n|] eqn:E.
  - cbn. repeat split; auto.
  - split; [|apply IH].
    cbn [matchCode] in *.
    rewrite (runLength_replace matchCode "/:code" isAlnum); auto.
    + exact matchCode_at_slash.
    + exact isAlnum_not_slash.
    + now exists "/"%char, ":code".
Qed.

(** After the replacement of the numbers no number is left, and the
    replacement of the codes brings none back. *)
Lemma noMatch_numeric_replaced s : forall skip,
  noMatch matchNumeric (replaceFrom matchNumeric "/:id" skip s).
Proof.
  induction s as [|c s IH]; intros skip; [exact I|].
  cbn [replaceFrom]. destruct skip as [|k]; auto.
  destruct (matchNumeric (String c s)) as [n|] eqn:E.
  - cbn. repeat split; auto.
  - split; [|apply IH].
    cbn [matchNumeric] in *.
    rewrite (runLength_replace matchNumeric "/:id" isDigit); auto.
    + exact matchNumeric_at_slash.
    + exact isDigit_not_slash.
    + now exists "/"%char, ":id".
Qed.

Lemma noMatch_numeric_after_code s : forall skip,
  noMatch matchNumeric s ->
  noMatch matchNumeric (replaceFrom matchCode "/:code" skip s).
Proof.
  induction s as [|c s IH]; intros skip H; [exact I|].
  destruct H as [H1 H2].
  cbn [replaceFrom]. destruct skip as [|k]; auto.
  destruct (matchCode (String c s)) as [n|] eqn:E.
  - cbn. repeat split; auto.
  - split; [|now apply IH].
    cbn [matchNumeric] in *.
    rewrite (runLength_replace matchCode "/:code" isDigit); auto.
    + exact matchCode_at_slash.
    + exact isDigit_not_slash.
    + now exists "/"%char, ":code".
Qed.

(** A match of the UUID expression begins with a slash and eight
    alphanumeric characters, which the code expression matches too. *)
Lemma matchClasses_hex_run n rest : forall s,
  matchClasses (repeat isHexDigit n ++ rest) s = true ->
  (n <= runLength isAlnum s)%nat.
Proof.
  induction n as [|n IH]; intros s H; [lia|].
  cbn [repeat app matchClasses] in H.
  destruct s as [|c s]; [discriminate|].
  apply andb_true_iff in H. destruct H as [H1 H2].
  cbn [runLength]. rewrite (isHexDigit_isAlnum _ H1).
  apply IH in H2. lia.
Qed.

Lemma matchUuid_matchCode s : matchCode s = None -> matchUuid s = None.
Proof.
  destruct s as [|c s]; auto. cbn [matchCode matchUuid].
  destruct (isSlash c); auto. cbn [andb].
  destruct (matchClasses uuidClasses s) eqn:E; auto.
  apply (matchClasses_hex_run 8) in E. apply Nat.leb_le in E.
  rewrite E. discriminate.
Qed.

Lemma noMatch_uuid_of_code s : noMatch matchCode s -> noMatch matchUuid s.
Proof.
  induction s as [|c s IH]; auto.
  intros [H1 H2]. split; auto using matchUuid_matchCode.
Qed.

(** The three replacements change nothing in their own result. *)
Lemma replaceSegments_idem s :
  replaceSegments (replaceSegments s) = replaceSegments s.
Proof.
  set (z := replaceSegments s).
  assert (noMatch matchCode z) as Hcode.
  { apply noMatch_code_replaced. }
  assert (noMatch matchNumeric z) as Hnum.
  { apply noMatch_numeric_after_code, noMatch_numeric_replaced. }
  assert (noMatch matchUuid z) as Huuid.
  { now apply noMatch_uuid_of_code. }
  unfold replaceSegments.
  rewrite (replaceAll_noMatch matchUuid _ z Huuid).
  rewrite (replaceAll_noMatch matchNumeric _ z Hnum).
  exact (replaceAll_noMatch matchCode _ z Hcode).
Qed.

Lemma replaceSegments_lower s :
  toLowerCase (replaceSegments s) = replaceSegments (toLowerCase s).
Proof.
  unfold replaceSegments, replaceAll.
  rewrite (replaceFrom_lower _ _ matchCode_lower eq_refl).
  rewrite (replaceFrom_lower _ _ matchNumeric_lower eq_refl).
  rewrite (replaceFrom_lower _ _ matchUuid_lower eq_refl).
  reflexivity.
Qed.

Lemma replaceSegments_nonempty s :
  s <> EmptyString -> replaceSegments s <> EmptyString.
Proof.
  intros H. unfold replaceSegments.
  repeat (apply replaceAll_nonempty; [|discriminate]). exact H.
Qed.

Lemma getEndpointPattern_nonempty c s :
  getEndpointPattern (String c s) = replaceSegments (toLowerCase (String c s)).
Proof.
  unfold getEndpointPattern. cbn [String.eqb].
  fold (replaceSegments (String c s)). apply replaceSegments_lower.
Qed.

Lemma getEndpointPattern_idem path :
  getEndpointPattern (getEndpointPattern path) = getEndpointPattern path.
Proof.
  destruct path as [|c s]; [reflexivity|].
  rewrite getEndpointPattern_nonempty.
  set (y := toLowerCase (String c s)).
  assert (y <> EmptyString) as Hy by discriminate.
  apply replaceSegments_nonempty in Hy.
  destruct (replaceSegments y) as [|c' s'] eqn:E; [congruence|].
  rewrite getEndpointPattern_nonempty, <- E, <- replaceSegments_lower.
  rewrite replaceSegments_idem, replaceSegments_lower.
  unfold y. now rewrite toLowerCase_idem.
Qed.

Lemma getEndpointPattern_case p q :
  toLowerCase p = toLowerCase q -> getEndpointPattern p = getEndpointPattern q.
Proof.
  intros H. destruct p as [|c s]; destruct q as [|c' s'];
    try discriminate; auto.
  rewrite !getEndpointPattern_nonempty. now rewrite H.
Qed.

(** C6. The three paths of the specification normalise as it says; applying
    [getEndpointPattern] to its own result changes nothing; two paths that
    differ only in the case of their letters (their lower-case forms are
    the same) have the same pattern. *)
Theorem endpoint_pattern_normalization :
  getEndpointPattern "/screens/3fa85f64-5717-4562-b3fc-2c963f66afa6"
  = "/screens/:id"
  /\ getEndpointPattern "/media/42" = "/media/:id"
  /\ getEndpointPattern "/player/ABCD1234" = "/player/:code"
  /\ (forall path,
        getEndpointPattern (getEndpointPattern path)
        = getEndpointPattern path)
  /\ (forall p q,
        toLowerCase p = toLowerCase q ->
        getEndpointPattern p = getEndpointPattern q).
Proof.
  repeat split; try reflexivity.
  - exact getEndpointPattern_idem.
  - exact getEndpointPattern_case.
Qed.

Lemma endpoint_pattern_normalization_witness :
  toLowerCase "/Player/abcd1234/Status"
  = toLowerCase "/player/ABCD1234/status"
  /\ getEndpointPattern "/Player/abcd1234/Status"
     = getEndpointPattern "/player/ABCD1234/status".
Proof.
  split; [reflexivity|].
  apply (proj2 (proj2 (proj2 (proj2 endpoint_pattern_normalization)))).
  reflexivity.
Defined.

(** * Further properties of the monitoring code *)

(** ** What the logs hold *)

Section LogInvariant.
Context {R : Type} (Q : string -> list R -> Prop).

Lemma AllLogs_get m k l :
  AllLogs Q m -> JsMap.get m k = Some l -> Q k l.
Proof.
  unfold AllLogs. induction m as [|[k' l'] m IH]; simpl; [discriminate|].
  intros H Hget. inversion H as [|? ? H1 H2]; subst.
  destruct (String.eqb k k') eqn:E; auto.
  apply String.eqb_eq in E. subst k'. now inversion Hget; subst.
Qed.

Lemma AllLogs_set m k l : AllLogs Q m -> Q k l -> AllLogs Q (JsMap.set m k l).
Proof.
  unfold AllLogs. intros H Hl.
  induction m as [|[k' l'] m IH]; simpl.
  - repeat constructor. exact Hl.
  - inversion H as [|? ? H1 H2]; subst.
    destruct (String.eqb k k') eqn:E.
    + apply String.eqb_eq in E. subst k'. constructor; auto.
    + constructor; auto.
Qed.

(** A property of logs that holds of the empty log, and of a capped
    insertion into a log that has it, holds of every log after
    [pushCapped]. *)
Lemma AllLogs_pushCapped cap m k x :
  Q k [] ->
  (forall l, Q k l -> Q k (truncate cap (l ++ [x]))) ->
  AllLogs Q m -> AllLogs Q (pushCapped cap m k x).
Proof.
  intros Hnil Hstep H. unfold pushCapped.
  assert (AllLogs Q (if JsMap.has m k then m else JsMap.set m k [])) as H'.
  { destruct (JsMap.has m k); auto. apply AllLogs_set; auto. }
  apply AllLogs_set; auto. apply Hstep.
  unfold getOr. destruct (JsMap.get _ k) as [l|] eqn:E; auto.
  eapply AllLogs_get; eauto.
Qed.

Lemma AllLogs_map (f : list R -> list R) m :
  (forall k l, Q k l -> Q k (f l)) ->
  AllLogs Q m -> AllLogs Q (map (fun e => (fst e, f (snd e))) m).
Proof.
  unfold AllLogs. intros Hf H. apply Forall_map.
  eapply Forall_impl; [|exact H]. simpl. intros e He. now apply Hf.
Qed.

End LogInvariant.

Lemma Forall_truncate {R} cap (P : R -> Prop) l :
  Forall P l -> Forall P (truncate cap l).
Proof.
  intros H. rewrite truncate_lastn. apply Forall_forall.
  intros x Hx. apply In_lastn in Hx. rewrite Forall_forall in H. auto.
Qed.

Lemma Forall_filter_keep {R} (f : R -> bool) (P : R -> Prop) l :
  Forall P l -> Forall P (filter f l).
Proof.
  intros H. apply Forall_forall. intros x Hx. apply filter_In in Hx.
  rewrite Forall_forall in H. now apply H.
Qed.

Lemma AllRecords_pushCapped {R} (P : string -> R -> Prop) cap m k x :
  P k x -> AllRecords P m -> AllRecords P (pushCapped cap m k x).
Proof.
  intros Hx. apply AllLogs_pushCapped; [constructor|].
  intros l Hl. apply Forall_truncate, Forall_app.
  split; [exact Hl | repeat constructor; exact Hx].
Qed.

(** An invariant of the two maps that every operation of the service
    keeps: it is enough that it holds of the empty log, survives a capped
    insertion of a record built by the recording operations, and survives
    filtering. *)
Section Invariant.
Variable QR : string -> list RequestRecord -> Prop.
Variable QE : string -> list ErrorRecord -> Prop.
Hypothesis QR_nil : forall k, QR k [].
Hypothesis QE_nil : forall k, QE k [].
Hypothesis QR_push : forall c l,
  QR (callKey c) l -> QR (callKey c) (truncate 1000 (l ++ [callRecord c])).
Hypothesis QE_push : forall c l,
  QE (errCallKey c) l ->
  QE (errCallKey c) (truncate 500 (l ++ [errCallRecord c])).
Hypothesis QR_filter : forall f k l, QR k l -> QR k (filter f l).
Hypothesis QE_filter : forall f k l, QE k l -> QE k (filter f l).

Lemma doEvent_invariant m e :
  AllLogs QR (requests m) /\ AllLogs QE (errors m) ->
  AllLogs QR (requests (doEvent m e))
  /\ AllLogs QE (errors (doEvent m e)).
Proof.
  intros [Hr He].
  destruct e as [[c|c]|timestamp [|error errorTime]|now];
    unfold doEvent, doCall, doRequest, doError, recordRequest, recordError,
      collectSystemMetrics, cleanOldMetrics;
    cbn [requests errors]; split; auto.
  - apply (AllLogs_pushCapped QR 1000 (requests m) (callKey c)
             (callRecord c)); auto.
  - apply (AllLogs_pushCapped QE 500 (errors m) (errCallKey c)
             (errCallRecord c)); auto.
  - apply (AllLogs_pushCapped QE 500 (errors m)
             (errCallKey (mkErrorCall errorTime error
                            [("context", "system_metrics_collection")]))
             (errCallRecord (mkErrorCall errorTime error
                            [("context", "system_metrics_collection")])));
      auto.
  - apply (AllLogs_map QR); auto.
  - apply (AllLogs_map QE); auto.
Qed.

Lemma runEvents_invariant es : forall m,
  AllLogs QR (requests m) /\ AllLogs QE (errors m) ->
  AllLogs QR (requests (runEvents m es))
  /\ AllLogs QE (errors (runEvents m es)).
Proof.
  induction es as [|e es IH]; intros m H; simpl; auto.
  apply IH, doEvent_invariant, H.
Qed.

Lemma runEvents_invariant_new es :
  AllLogs QR (requests (runEvents newMetrics es))
  /\ AllLogs QE (errors (runEvents newMetrics es)).
Proof. apply runEvents_invariant. split; constructor. Qed.

End Invariant.

(** X1. Whatever the service has done (recording, pruning, collecting),
    every request record it holds has [success] set exactly when its
    status code is at least 200 and below 400, and every error record has
    the severity of the kind it is filed under, one of the four levels. *)
Theorem stored_records_well_formed (es : list Event) :
  AllRecords
    (fun _ r =>
       rq_success r
       = (200 <=? rq_statusCode r) && (rq_statusCode r <? 400))
    (requests (runEvents newMetrics es))
  /\ AllRecords
       (fun kind e =>
          er_severity e = severityOfKind kind
          /\ In (er_severity e) severities)
       (errors (runEvents newMetrics es)).
Proof.
  apply runEvents_invariant_new.
  - intros k. constructor.
  - intros k. constructor.
  - intros c l Hl. apply Forall_truncate, Forall_app.
    split; [exact Hl|]. repeat constructor.
  - intros c l Hl. apply Forall_truncate, Forall_app.
    split; [exact Hl|]. constructor; [|constructor]. split.
    + destruct c as [now [name message stack] context].
      unfold errCallRecord, errCallKey, errorKeyOf, severityOfKind,
        getErrorSeverity. cbn.
      destruct (String.eqb name "") eqn:E; [|reflexivity].
      apply String.eqb_eq in E. now subst name.
    + unfold errCallRecord, mkError, getErrorSeverity, severities. simpl.
      repeat match goal with
             | |- context [if ?b then _ else _] => destruct b
             end; simpl; auto.
  - intros f k l. apply Forall_filter_keep.
  - intros f k l. apply Forall_filter_keep.
Qed.

(** X2. Under every operation of the service the bounds hold: no request
    log has more than 1000 records, no error log more than 500, pruning
    and failed collections included. *)
Theorem log_bounds_always (es : list Event) :
  AllLogs (fun _ l => (length l <= 1000)%nat)
    (requests (runEvents newMetrics es))
  /\ AllLogs (fun _ l => (length l <= 500)%nat)
       (errors (runEvents newMetrics es)).
Proof.
  apply runEvents_invariant_new; simpl; try lia.
  - intros c l _. rewrite truncate_lastn, length_lastn. lia.
  - intros c l _. rewrite truncate_lastn, length_lastn. lia.
  - intros f k l H. pose proof (filter_length_le f l). lia.
  - intros f k l H. pose proof (filter_length_le f l). lia.
Qed.

(** ** Request metrics: the accounts *)

Lemma sumResponseTime_from (rs : list RequestRecord) : forall z,
  fold_left (fun sum r => sum + rq_responseTime r) rs z
  = z + sumResponseTime rs.
Proof.
  unfold sumResponseTime.
  induction rs as [|r rs IH]; intros z; simpl; [lia|].
  rewrite IH, (IH (rq_responseTime r)). lia.
Qed.

Lemma sumResponseTime_app rs1 rs2 :
  sumResponseTime (rs1 ++ rs2) = sumResponseTime rs1 + sumResponseTime rs2.
Proof.
  unfold sumResponseTime at 1. rewrite fold_left_app.
  fold (sumResponseTime rs1). apply sumResponseTime_from.
Qed.

Lemma lengthZ_app {A} (l1 l2 : list A) :
  lengthZ (l1 ++ l2) = lengthZ l1 + lengthZ l2.
Proof. unfold lengthZ. rewrite length_app. lia. Qed.

Lemma lengthZ_cons {A} (x : A) (l : list A) :
  lengthZ (x :: l) = 1 + lengthZ l.
Proof. unfold lengthZ. simpl length. lia. Qed.

Lemma lengthZ_nonneg {A} (l : list A) : 0 <= lengthZ l.
Proof. unfold lengthZ. lia. Qed.

Lemma lengthZ_filter_le {A} (f : A -> bool) (l : list A) :
  lengthZ (filter f l) <= lengthZ l.
Proof. unfold lengthZ. pose proof (filter_length_le f l). lia. Qed.

Lemma lengthZ_zero {A} (l : list A) : lengthZ l = 0 <-> l = [].
Proof.
  unfold lengthZ. destruct l; simpl length; split; auto;
    try discriminate; lia.
Qed.

(** The state of the loop of [getRequestMetrics] after a number of
    entries. *)
Lemma requestMetrics_loop since es : forall acc,
  let window :=
    flat_map
      (fun entry => filter (fun r => since <=? rq_timestamp r) (snd entry))
      es in
  let acc' := fold_left (requestMetricsStep since) es acc in
  rm_total (ra_metrics acc') = rm_total (ra_metrics acc) + lengthZ window
  /\ rm_successful (ra_metrics acc')
     = rm_successful (ra_metrics acc) + lengthZ (filter rq_success window)
  /\ rm_failed (ra_metrics acc')
     = rm_failed (ra_metrics acc)
       + (lengthZ window - lengthZ (filter rq_success window))
  /\ rm_averageResponseTime (ra_metrics acc')
     = rm_averageResponseTime (ra_metrics acc)
  /\ rm_errorRate (ra_metrics acc') = rm_errorRate (ra_metrics acc)
  /\ ra_totalResponseTime acc'
     = ra_totalResponseTime acc + sumResponseTime window
  /\ ra_requestCount acc' = ra_requestCount acc + lengthZ window.
Proof.
  induction es as [|entry es IH]; intros acc; cbn zeta.
  - simpl. change (sumResponseTime []) with 0.
    change (@lengthZ RequestRecord []) with 0.
    repeat split; lia.
  - cbn [fold_left flat_map].
    specialize (IH (requestMetricsStep since acc entry)). cbn zeta in IH.
    destruct IH as (H1 & H2 & H3 & H4 & H5 & H6 & H7).
    rewrite H1, H2, H3, H4, H5, H6, H7.
    rewrite filter_app, !lengthZ_app, sumResponseTime_app.
    unfold requestMetricsStep.
    set (recent := filter (fun r => since <=? rq_timestamp r) (snd entry)).
    destruct (0 <? lengthZ recent) eqn:E.
    + cbn [ra_metrics rm_total rm_successful rm_failed
             rm_averageResponseTime rm_errorRate ra_totalResponseTime
             ra_requestCount].
      repeat split; lia.
    + apply Z.ltb_ge in E. pose proof (lengthZ_nonneg recent).
      assert (recent = []) as -> by (apply lengthZ_zero; lia).
      simpl filter. change (sumResponseTime []) with 0.
      change (@lengthZ RequestRecord []) with 0.
      repeat split; lia.
Qed.

Lemma getRequestMetrics_fields since m :
  let r := getRequestMetrics since m in
  let window := requestsInWindow since m in
  rm_total r = lengthZ window
  /\ rm_successful r = lengthZ (filter rq_success window)
  /\ rm_failed r = lengthZ window - lengthZ (filter rq_success window)
  /\ rm_averageResponseTime r
     = (if 0 <? lengthZ window
        then mathRound (inject_Z (sumResponseTime window)
                        / inject_Z (lengthZ window))%Q
        else 0)
  /\ rm_errorRate r
     = (if 0 <? lengthZ window
        then Some (inject_Z (rm_failed r) / inject_Z (rm_total r))%Q
        else None).
Proof.
  cbn zeta. unfold getRequestMetrics, requestsInWindow.
  match goal with
  | |- context [fold_left _ _ ?init] =>
      destruct (requestMetrics_loop since (requests m) init)
        as (H1 & H2 & H3 & H4 & H5 & H6 & H7)
  end.
  cbn [ra_metrics rm_total rm_successful rm_failed rm_averageResponseTime
         rm_errorRate ra_totalResponseTime ra_requestCount] in *.
  rewrite H7. simpl Z.add.
  destruct (0 <? lengthZ _) eqn:E;
    cbn [rm_total rm_successful rm_failed rm_averageResponseTime
           rm_errorRate];
    rewrite ?H1, ?H2, ?H3, ?H4, ?H5, ?H6; simpl Z.add;
    repeat split; reflexivity.
Qed.

(** X3. For every store and cutoff, [getRequestMetrics] counts in [total]
    the records of all endpoints stamped at or after the cutoff, in
    [successful] those of them that succeeded and in [failed] the others;
    [errorRate] is missing exactly when no record is in the window, and is
    otherwise [failed / total], between 0 and 1. *)
Theorem request_metrics_accounting (since : Z) (m : Metrics) :
  let r := getRequestMetrics since m in
  let window := requestsInWindow since m in
  rm_total r = lengthZ window
  /\ rm_successful r = lengthZ (filter rq_success window)
  /\ rm_failed r = lengthZ (filter (fun x => negb (rq_success x)) window)
  /\ rm_total r = rm_successful r + rm_failed r
  /\ (rm_errorRate r = None <-> window = [])
  /\ match rm_errorRate r with
     | Some rate =>
         (rate == inject_Z (rm_failed r) / inject_Z (rm_total r))%Q
         /\ (0 <= rate)%Q /\ (rate <= 1)%Q
     | None => True
     end.
Proof.
  intros r window.
  destruct (getRequestMetrics_fields since m) as (H1 & H2 & H3 & _ & H5).
  fold r window in H1, H2, H3, H5.
  assert (lengthZ window
          = lengthZ (filter rq_success window)
            + lengthZ (filter (fun x => negb (rq_success x)) window)) as Hsplit.
  { unfold lengthZ. pose proof (filter_length rq_success window). lia. }
  pose proof (lengthZ_nonneg (filter rq_success window)) as Hs.
  pose proof (lengthZ_nonneg (filter (fun x => negb (rq_success x)) window))
    as Hf.
  repeat split; try lia.
  - rewrite H5. destruct (0 <? lengthZ window) eqn:E; [discriminate|].
    intros _. apply lengthZ_zero. apply Z.ltb_ge in E.
    pose proof (lengthZ_nonneg window). lia.
  - intros ->. now rewrite H5.
  - rewrite H5. destruct (0 <? lengthZ window) eqn:E; [|exact I].
    apply Z.ltb_lt in E. split; [reflexivity|].
    assert (0 <= rm_failed r <= rm_total r) as Hb by lia.
    assert (0 < rm_total r) as Ht by lia.
    revert Hb Ht. generalize (rm_failed r) (rm_total r). intros f t Hb Ht.
    split.
    + apply Qle_shift_div_l; [now apply (Qlt_alt 0 (inject_Z t)); simpl; destruct t|].
      rewrite Qmult_0_l. unfold Qle. simpl. lia.
    + apply Qle_shift_div_r; [unfold Qlt; simpl; lia|].
      rewrite Qmult_1_l. unfold Qle. simpl. lia.
Qed.

Lemma sumResponseTime_bounds lo hi rs :
  Forall (fun r => lo <= rq_responseTime r <= hi) rs ->
  lengthZ rs * lo <= sumResponseTime rs <= lengthZ rs * hi.
Proof.
  induction 1 as [|r rs Hr _ IH].
  - change (sumResponseTime []) with 0.
    change (@lengthZ RequestRecord []) with 0. lia.
  - change (r :: rs) with ([r] ++ rs).
    rewrite sumResponseTime_app, lengthZ_app.
    change (sumResponseTime [r]) with (0 + rq_responseTime r).
    change (lengthZ [r]) with 1. lia.
Qed.

Lemma mathRound_bounds (q : Q) (lo hi : Z) :
  (inject_Z lo <= q)%Q -> (q <= inject_Z hi)%Q -> lo <= mathRound q <= hi.
Proof.
  intros Hlo Hhi. unfold mathRound. split.
  - rewrite <- (Qfloor_Z lo). apply Qfloor_resp_le.
    rewrite <- (Qplus_0_r (inject_Z lo)).
    apply Qplus_le_compat; [exact Hlo | discriminate].
  - assert (inject_Z (Qfloor (q + (1 # 2))) < inject_Z (hi + 1))%Q as H.
    { eapply Qle_lt_trans; [apply Qfloor_le|].
      apply Qle_lt_trans with (inject_Z hi + (1 # 2))%Q.
      - apply Qplus_le_l. exact Hhi.
      - rewrite inject_Z_plus. apply Qplus_lt_r. reflexivity. }
    rewrite <- Zlt_Qlt in H. lia.
Qed.

(** X4. When the window holds a record, the average response time
    [getRequestMetrics] reports lies between the smallest and the largest
    response time of the window. *)
Theorem average_response_time_bounds (since : Z) (m : Metrics) (lo hi : Z) :
  requestsInWindow since m <> [] ->
  Forall (fun r => lo <= rq_responseTime r <= hi)
    (requestsInWindow since m) ->
  lo <= rm_averageResponseTime (getRequestMetrics since m) <= hi.
Proof.
  intros Hne Hall.
  destruct (getRequestMetrics_fields since m) as (_ & _ & _ & H4 & _).
  rewrite H4. clear H4.
  set (window := requestsInWindow since m) in *.
  assert (0 < lengthZ window) as Hpos.
  { pose proof (lengthZ_nonneg window).
    assert (lengthZ window <> 0) by (rewrite lengthZ_zero; exact Hne). lia. }
  assert ((0 <? lengthZ window) = true) as -> by now apply Z.ltb_lt.
  pose proof (sumResponseTime_bounds lo hi window Hall) as [H1 H2].
  assert (0 < inject_Z (lengthZ window))%Q as HposQ.
  { unfold Qlt. simpl. lia. }
  apply mathRound_bounds.
  - apply Qle_shift_div_l; [exact HposQ|].
    rewrite <- inject_Z_mult, <- Zle_Qle. lia.
  - apply Qle_shift_div_r; [exact HposQ|].
    rewrite <- inject_Z_mult, <- Zle_Qle. lia.
Qed.

Lemma average_response_time_bounds_witness :
  requestsInWindow 0 threeRequests <> []
  /\ Forall (fun r => 100 <= rq_responseTime r <= 300)
       (requestsInWindow 0 threeRequests)
  /\ 100 <= rm_averageResponseTime (getRequestMetrics 0 threeRequests)
     <= 300.
Proof.
  assert (requestsInWindow 0 threeRequests <> []) as H1.
  { vm_compute. discriminate. }
  assert (Forall (fun r => 100 <= rq_responseTime r <= 300)
            (requestsInWindow 0 threeRequests)) as H2.
  { vm_compute. repeat constructor; discriminate. }
  split; [exact H1|]. split; [exact H2|].
  exact (average_response_time_bounds 0 threeRequests 100 300 H1 H2).
Defined.

(** ** Error metrics: the accounts *)

Lemma sumValues_set (counters : JsMap.t Z) k v :
  sumValues (JsMap.set counters k v)
  = sumValues counters - counter counters k + v.
Proof.
  unfold sumValues, counter.
  induction counters as [|[k' n] counters IH]; simpl; [lia|].
  destruct (String.eqb k k') eqn:E; simpl; [lia|].
  unfold sumZ in *. simpl. rewrite IH. lia.
Qed.






Lemma keys_map_values {A B} (f : string * A -> B) (m : JsMap.t A) :
  JsMap.keys (map (fun e => (fst e, f e)) m) = JsMap.keys m.
Proof. unfold JsMap.keys. rewrite map_map. reflexivity. Qed.





(** ** Pruning *)

Lemma filter_idem {A} (f : A -> bool) l : filter f (filter f l) = filter f l.
Proof.
  induction l as [|x l IH]; simpl; auto.
  destruct (f x) eqn:E; simpl; rewrite ?E, IH; reflexivity.
Qed.

Lemma filter_since_after_cutoff {A} (time : A -> Z) (cutoff since : Z) l :
  cutoff <= since ->
  filter (fun r => since <=? time r) (filter (fun r => cutoff <=? time r) l)
  = filter (fun r => since <=? time r) l.
Proof.
  intros H. induction l as [|x l IH]; simpl; auto.
  destruct (cutoff <=? time x) eqn:E1; simpl; rewrite IH; auto.
  destruct (since <=? time x) eqn:E2; auto.
  apply Z.leb_le in E2. apply Z.leb_gt in E1. lia.
Qed.

(** X6. After [cleanOldMetrics] every record left in the two maps is at
    most one hour old; every key is still there, in its place, also when
    its log has become empty; pruning a second time at the same moment
    changes nothing. *)
Theorem cleaning_keeps_the_last_hour (now : Z) (m : Metrics) :
  let cleaned := cleanOldMetrics now m in
  AllRecords (fun _ r => now - 3600000 <= rq_timestamp r) (requests cleaned)
  /\ AllRecords (fun _ e => now - 3600000 <= er_timestamp e) (errors cleaned)
  /\ JsMap.keys (requests cleaned) = JsMap.keys (requests m)
  /\ JsMap.keys (errors cleaned) = JsMap.keys (errors m)
  /\ system cleaned = system m
  /\ cleanOldMetrics now cleaned = cleaned.
Proof.
  cbn zeta. unfold cleanOldMetrics. cbn [requests errors system].
  change (now - 60 * 60 * 1000) with (now - 3600000).
  repeat split.
  - unfold AllRecords, AllLogs. apply Forall_map, Forall_forall.
    intros entry _. cbn [fst snd]. apply Forall_forall.
    intros r Hr. apply filter_In in Hr. now apply Z.leb_le.
  - unfold AllRecords, AllLogs. apply Forall_map, Forall_forall.
    intros entry _. cbn [fst snd]. apply Forall_forall.
    intros r Hr. apply filter_In in Hr. now apply Z.leb_le.
  - apply (keys_map_values (fun e => filter _ (snd e))).
  - apply (keys_map_values (fun e => filter _ (snd e))).
  - f_equal; rewrite map_map; apply map_ext; intros entry;
      cbn [fst snd]; now rewrite filter_idem.
Qed.

Lemma fold_left_map_step {A B C} (step : A -> B -> A) (g : C -> B)
    (step' : A -> C -> A) (l : list C) :
  (forall a c, step a (g c) = step' a c) ->
  forall a, fold_left step (map g l) a = fold_left step' l a.
Proof.
  intros H. induction l as [|c l IH]; intros a; simpl; auto.
  now rewrite H, IH.
Qed.

(** X7. Pruning does not change what a query over a window inside the last
    hour returns: when the cutoff of the query is not older than one hour
    before the moment of the pruning, [getRequestMetrics] and
    [getErrorMetrics] give the same result before and after. *)
Theorem queries_unchanged_by_cleaning (now since : Z) (m : Metrics) :
  now - 3600000 <= since ->
  getRequestMetrics since (cleanOldMetrics now m) = getRequestMetrics since m
  /\ getErrorMetrics since (cleanOldMetrics now m) = getErrorMetrics since m.
Proof.
  intros H. unfold getRequestMetrics, getErrorMetrics, cleanOldMetrics.
  cbn [requests errors].
  change (now - 60 * 60 * 1000) with (now - 3600000).
  rewrite (fold_left_map_step (requestMetricsStep since) _
             (requestMetricsStep since)).
  - rewrite (fold_left_map_step (errorMetricsStep since) _
               (errorMetricsStep since)); [split; reflexivity|].
    intros metrics entry. unfold errorMetricsStep. cbn [fst snd].
    now rewrite (filter_since_after_cutoff er_timestamp).
  - intros acc entry. unfold requestMetricsStep. cbn [fst snd].
    now rewrite (filter_since_after_cutoff rq_timestamp).
Qed.

Lemma queries_unchanged_by_cleaning_witness :
  9000000 - 3600000 <= 5500000
  /\ getRequestMetrics 5500000 (cleanOldMetrics 9000000 agedStore)
     = getRequestMetrics 5500000 agedStore.
Proof.
  assert (9000000 - 3600000 <= 5500000) as H by lia.
  split; [exact H|].
  exact (proj1 (queries_unchanged_by_cleaning 9000000 5500000 agedStore H)).
Defined.

(** ** System snapshots *)

Lemma fold_max_spec l : forall k,
  isMax (fold_left Z.max l k) (k :: l).
Proof.
  unfold isMax. induction l as [|x l IH]; intros k; simpl.
  - split; auto. repeat constructor. lia.
  - destruct (IH (Z.max k x)) as [[H|H] H2].
    + split.
      * rewrite <- H. destruct (Z.max_spec k x) as [[_ ->]|[_ ->]]; auto.
      * inversion H2; subst. repeat constructor; try lia; auto.
    + split; auto. inversion H2; subst. repeat constructor; try lia; auto.
Qed.

Lemma fold_min_spec l : forall k,
  isMin (fold_left Z.min l k) (k :: l).
Proof.
  unfold isMin. induction l as [|x l IH]; intros k; simpl.
  - split; auto. repeat constructor. lia.
  - destruct (IH (Z.min k x)) as [[H|H] H2].
    + split.
      * rewrite <- H. destruct (Z.min_spec k x) as [[_ ->]|[_ ->]]; auto.
      * inversion H2; subst. repeat constructor; try lia; auto.
    + split; auto. inversion H2; subst. repeat constructor; try lia; auto.
Qed.

Lemma maxKey_isMax l : l <> [] -> isMax (maxKey l) l.
Proof. destruct l as [|k l]; [congruence|]. intros _. apply fold_max_spec. Qed.

Lemma minKey_isMin l : l <> [] -> isMin (minKey l) l.
Proof. destruct l as [|k l]; [congruence|]. intros _. apply fold_min_spec. Qed.

Lemma isMax_unique M M' l : isMax M l -> isMax M' l -> M = M'.
Proof.
  intros [H1 H2] [H1' H2']. rewrite Forall_forall in H2, H2'.
  apply H2 in H1'. apply H2' in H1. lia.
Qed.

Lemma In_systemSet t keys : In t (systemSet t keys).
Proof.
  unfold systemSet. destruct (existsb (Z.eqb t) keys) eqn:E.
  - apply existsb_exists in E. destruct E as [x [Hx E]].
    apply Z.eqb_eq in E. now subst x.
  - apply in_or_app. simpl. auto.
Qed.

Lemma systemSet_incl t keys x :
  In x (systemSet t keys) <-> In x keys \/ x = t.
Proof.
  unfold systemSet. destruct (existsb (Z.eqb t) keys) eqn:E.
  - apply existsb_exists in E. destruct E as [y [Hy E]].
    apply Z.eqb_eq in E. subst y. split; auto. intros [H| ->]; auto.
  - rewrite in_app_iff. simpl. intuition.
Qed.

Lemma systemSet_NoDup t keys : NoDup keys -> NoDup (systemSet t keys).
Proof.
  intros H. unfold systemSet. destruct (existsb (Z.eqb t) keys) eqn:E; auto.
  apply NoDup_app; auto.
  - constructor; [simpl; tauto | constructor].
  - intros x Hx [<-|[]].
    assert (existsb (Z.eqb t) keys = true); [|congruence].
    apply existsb_exists. exists t. split; auto. apply Z.eqb_refl.
Qed.

Lemma systemSet_length t keys :
  (length keys <= length (systemSet t keys) <= S (length keys))%nat.
Proof.
  unfold systemSet. destruct (existsb (Z.eqb t) keys); [lia|].
  rewrite length_app. simpl. lia.
Qed.

Lemma systemDelete_length k keys :
  NoDup keys -> In k keys ->
  S (length (systemDelete k keys)) = length keys.
Proof.
  unfold systemDelete. induction 1 as [|x keys Hx Hnd IH]; [intros []|].
  intros [->|Hin]; simpl.
  - rewrite Z.eqb_refl. simpl. f_equal.
    clear IH. induction keys as [|y keys IH]; simpl; auto.
    inversion Hnd; subst.
    destruct (y =? k) eqn:E.
    + apply Z.eqb_eq in E. subst y. exfalso. apply Hx. simpl. auto.
    + simpl. f_equal. apply IH; auto. intros H. apply Hx. simpl. auto.
  - destruct (x =? k) eqn:E.
    + apply Z.eqb_eq in E. subst x. tauto.
    + simpl. f_equal. now apply IH.
Qed.

Lemma In_systemDelete k keys x :
  In x (systemDelete k keys) <-> In x keys /\ x <> k.
Proof.
  unfold systemDelete. rewrite filter_In, negb_true_iff, Z.eqb_neq. tauto.
Qed.

(** What the snapshot map holds after a sequence of events, against the
    time stamps of the snapshots built. *)
Lemma system_invariant es : forall m cs,
  NoDup (system m) ->
  (length (system m) <= 100)%nat ->
  (forall x, In x (system m) -> In x cs) ->
  (forall M, isMax M cs -> In M (system m)) ->
  let m' := runEvents m es in
  let cs' := cs ++ collectedAt es in
  NoDup (system m')
  /\ (length (system m') <= 100)%nat
  /\ (forall x, In x (system m') -> In x cs')
  /\ (forall M, isMax M cs' -> In M (system m')).
Proof.
  induction es as [|e es IH]; intros m cs Hnd Hlen Hincl Hmax; cbn zeta.
  - simpl. rewrite app_nil_r. auto.
  - cbn [runEvents fold_left collectedAt flat_map].
    fold (runEvents (doEvent m e) es). fold (collectedAt es).
    destruct e as [[c|c]|timestamp [|error errorTime]|now];
      try (cbn [app]; apply IH; assumption).
    set (keys := systemSet timestamp (system m)).
    assert (NoDup keys) as Hnd' by now apply systemSet_NoDup.
    pose proof (systemSet_length timestamp (system m)) as Hlen'.
    fold keys in Hlen'.
    rewrite app_assoc. apply IH; unfold doEvent, collectSystemMetrics;
      cbn [system]; fold keys.
    + destruct (100 <? length keys)%nat; auto.
      unfold systemDelete. now apply NoDup_filter.
    + destruct (100 <? length keys)%nat eqn:E.
      * assert (keys <> []) as Hne.
        { apply Nat.ltb_lt in E.
          destruct keys; simpl in E; [lia|congruence]. }
        destruct (minKey_isMin keys Hne) as [Hin _].
        pose proof (systemDelete_length (minKey keys) keys Hnd' Hin). lia.
      * apply Nat.ltb_ge in E. exact E.
    + intros x Hx.
      assert (In x keys) as Hk.
      { destruct (100 <? length keys)%nat; auto.
        apply In_systemDelete in Hx. tauto. }
      apply systemSet_incl in Hk. apply in_or_app. simpl.
      destruct Hk as [Hk| ->]; auto.
    + intros M [HM HM'].
      assert (In M keys) as Hk.
      { apply systemSet_incl. apply in_app_or in HM.
        destruct HM as [HM|[<-|[]]]; auto.
        left. apply Hmax. split; auto.
        apply Forall_app in HM'. tauto. }
      destruct (100 <? length keys)%nat eqn:E; auto.
      apply In_systemDelete. split; auto.
      apply Nat.ltb_lt in E.
      assert (keys <> []) as Hne
        by (destruct keys; simpl in E; [lia|congruence]).
      destruct (minKey_isMin keys Hne) as [Hin Hmin].
      intros Heq.
      assert (forall x, In x keys -> x = M) as Hall.
      { intros x Hx. rewrite Forall_forall in Hmin, HM'.
        pose proof (Hmin x Hx).
        assert (In x (cs ++ [timestamp])) as Hx'.
        { apply systemSet_incl in Hx. apply in_or_app. simpl.
          destruct Hx as [Hx| ->]; auto. }
        pose proof (HM' x Hx'). lia. }
      clear Heq Hin Hmin Hne.
      destruct keys as [|a [|b keys']]; simpl in E; try lia.
      assert (a = M) as Ha by (apply Hall; simpl; auto).
      assert (b = M) as Hb by (apply Hall; simpl; auto).
      inversion Hnd' as [|? ? Hnot _]. apply Hnot. rewrite Ha, Hb.
      simpl. auto.
Qed.

(** X8. After whatever the service has done, the snapshot map holds at
    most 100 snapshots, all of them built by a collection, and
    [getLatestSystemMetrics] returns the one with the greatest time stamp
    ever collected: the eviction of the oldest never removes it. Before the
    first snapshot it returns null. *)
Theorem snapshots_bounded_latest_kept (es : list Event) :
  let m := runEvents newMetrics es in
  (length (system m) <= 100)%nat
  /\ (forall t, In t (system m) -> In t (collectedAt es))
  /\ getLatestSystemMetrics m
     = match collectedAt es with
       | [] => None
       | _ :: _ => Some (maxKey (collectedAt es))
       end.
Proof.
  intros m.
  assert (NoDup (system newMetrics)) as H1 by constructor.
  assert (length (system newMetrics) <= 100)%nat as H2 by (simpl; lia).
  assert (forall x, In x (system newMetrics) -> In x []) as H3
    by (intros x []).
  assert (forall M, isMax M [] -> In M (system newMetrics)) as H4
    by (intros M [[] _]).
  destruct (system_invariant es newMetrics [] H1 H2 H3 H4)
    as (Hnd & Hlen & Hincl & Hmax).
  fold m in Hnd, Hlen, Hincl, Hmax. simpl app in *.
  split; [exact Hlen|]. split; [exact Hincl|].
  unfold getLatestSystemMetrics.
  destruct (collectedAt es) as [|t ts] eqn:E.
  - destruct (system m) as [|x l]; auto. exfalso. apply (Hincl x). simpl. auto.
  - assert (isMax (maxKey (t :: ts)) (t :: ts)) as HM
      by (apply maxKey_isMax; discriminate).
    pose proof (Hmax _ HM) as Hin.
    destruct (system m) as [|x l] eqn:Es; [destruct Hin|].
    simpl Nat.eqb. cbv iota. f_equal.
    eapply isMax_unique; [apply maxKey_isMax; discriminate|].
    split; [exact Hin|].
    apply Forall_forall. intros y Hy. destruct HM as [_ HM].
    rewrite Forall_forall in HM. apply HM, Hincl, Hy.
Qed.

(** ** Health evaluation: alerts and components *)

Lemma countSeverity_app severity l1 l2 :
  countSeverity severity (l1 ++ l2)
  = countSeverity severity l1 + countSeverity severity l2.
Proof. unfold countSeverity. now rewrite filter_app, lengthZ_app. Qed.

Lemma healthStep_alerts results entry :
  let status := outcomeStatus (snd entry) in
  countSeverity "critical" (hr_alerts (healthStep results entry))
  = countSeverity "critical" (hr_alerts results)
    + (if isFailure status then 1 else 0)
  /\ countSeverity "warning" (hr_alerts (healthStep results entry))
     = countSeverity "warning" (hr_alerts results)
       + (if negb (isFailure status) && isWarning status
             && String.eqb (hr_overall results) "healthy"
          then 1 else 0)
  /\ lengthZ (hr_alerts (healthStep results entry))
     = lengthZ (hr_alerts results)
       + (if isFailure status then 1
          else if isWarning status
                  && String.eqb (hr_overall results) "healthy"
          then 1 else 0).
Proof.
  destruct entry as [name [result|message]]; cbn zeta;
    unfold healthStep; cbn [fst snd outcomeStatus].
  - unfold isWarning. destruct (isFailure (cr_status result)).
    + cbn [hr_alerts]. rewrite !countSeverity_app, lengthZ_app.
      repeat split; simpl; lia.
    + destruct (String.eqb (cr_status result) "warning");
        destruct (String.eqb (hr_overall results) "healthy");
        cbn [andb negb hr_alerts];
        rewrite ?countSeverity_app, ?lengthZ_app;
        repeat split; simpl; lia.
  - cbn [hr_alerts]. rewrite !countSeverity_app, lengthZ_app.
    repeat split; simpl; lia.
Qed.

Lemma overallStep_not_healthy overall status :
  String.eqb overall "healthy" = false ->
  String.eqb (overallStep overall status) "healthy" = false.
Proof.
  intros H. unfold overallStep. rewrite H, andb_false_r.
  destruct (isFailure status); auto.
Qed.

Lemma healthCheck_alerts checks : forall results,
  let final := fold_left healthStep checks results in
  let statuses := statusesOf checks in
  countSeverity "critical" (hr_alerts final)
  = countSeverity "critical" (hr_alerts results)
    + lengthZ (filter isFailure statuses)
  /\ countSeverity "warning" (hr_alerts final)
     = countSeverity "warning" (hr_alerts results)
       + (if String.eqb (hr_overall results) "healthy"
             && startsWithWarning statuses
          then 1 else 0)
  /\ lengthZ (hr_alerts final)
     = lengthZ (hr_alerts results)
       + lengthZ (filter isFailure statuses)
       + (if String.eqb (hr_overall results) "healthy"
             && startsWithWarning statuses
          then 1 else 0).
Proof.
  induction checks as [|entry checks IH]; intros results; cbn zeta.
  - simpl. rewrite andb_false_r. change (@lengthZ string []) with 0.
    repeat split; lia.
  - cbn [fold_left statusesOf map filter].
    fold (statusesOf checks).
    destruct (IH (healthStep results entry)) as (H1 & H2 & H3).
    destruct (healthStep_alerts results entry) as (S1 & S2 & S3).
    rewrite H1, H2, H3, S1, S2, S3, healthStep_overall.
    clear H1 H2 H3 S1 S2 S3.
    set (status := outcomeStatus (snd entry)).
    unfold startsWithWarning, firstProblem. cbn [find].
    fold (firstProblem (statusesOf checks)).
    fold (startsWithWarning (statusesOf checks)).
    unfold overallStep.
    destruct (isFailure status) eqn:Ef.
    + cbn [orb negb andb].
      assert (isWarning status = false) as ->.
      { unfold isFailure, isWarning in *.
        destruct (String.eqb status "warning") eqn:E; auto.
        apply String.eqb_eq in E. rewrite E in Ef. discriminate. }
      rewrite andb_false_r, lengthZ_cons.
      change (String.eqb "critical" "healthy") with false. cbn [andb].
      repeat split; lia.
    + cbn [orb negb andb].
      destruct (isWarning status) eqn:Ew; cbn [andb orb];
        destruct (String.eqb (hr_overall results) "healthy") eqn:Eo;
        cbn [andb]; rewrite ?Eo, ?Ew;
        change (String.eqb "warning" "healthy") with false;
        cbn [andb]; fold (startsWithWarning (statusesOf checks));
        repeat split; lia.
Qed.

(** X9. [performHealthCheck] raises one critical alert for every check that
    is critical, in error or throws, and at most one warning alert: a check
    in warning raises one only if no check before it was in warning or
    failed. These are all the alerts. *)
Theorem health_check_alerts (checks : list (string * CheckOutcome)) :
  let alerts := hr_alerts (performHealthCheck checks) in
  let statuses := statusesOf checks in
  countSeverity "critical" alerts = lengthZ (filter isFailure statuses)
  /\ countSeverity "warning" alerts
     = (if startsWithWarning statuses then 1 else 0)
  /\ lengthZ alerts
     = countSeverity "critical" alerts + countSeverity "warning" alerts.
Proof.
  cbn zeta. unfold performHealthCheck.
  match goal with
  | |- context [fold_left healthStep checks ?init] =>
      destruct (healthCheck_alerts checks init) as (H1 & H2 & H3)
  end.
  cbn [hr_alerts hr_overall] in H1, H2, H3.
  change (countSeverity "critical" []) with 0 in H1.
  change (countSeverity "warning" []) with 0 in H2.
  change (@lengthZ Alert []) with 0 in H3.
  change (String.eqb "healthy" "healthy") with true in H2, H3.
  cbn [andb] in H2, H3.
  rewrite H1, H2, H3. repeat split; lia.
Qed.

Lemma set_fresh_key {V} (m : JsMap.t V) k v :
  ~ In k (JsMap.keys m) -> JsMap.set m k v = m ++ [(k, v)].
Proof.
  unfold JsMap.keys. induction m as [|[k' v'] m IH]; simpl; auto.
  intros H. destruct (String.eqb k k') eqn:E.
  - apply String.eqb_eq in E. subst k'. tauto.
  - f_equal. apply IH. tauto.
Qed.

Lemma healthStep_components results entry :
  hr_components (healthStep results entry)
  = JsMap.set (hr_components results) (fst entry) (componentOf (snd entry)).
Proof.
  destruct entry as [name [result|message]]; unfold healthStep;
    cbn [fst snd componentOf]; auto.
  destruct (isFailure (cr_status result)); auto.
  destruct (String.eqb (cr_status result) "warning"
            && String.eqb (hr_overall results) "healthy"); auto.
Qed.

Lemma healthCheck_components checks : forall results,
  NoDup (JsMap.keys (hr_components results) ++ map fst checks) ->
  hr_components (fold_left healthStep checks results)
  = hr_components results
    ++ map (fun entry => (fst entry, componentOf (snd entry))) checks.
Proof.
  induction checks as [|entry checks IH]; intros results Hnd; simpl.
  - now rewrite app_nil_r.
  - rewrite IH, healthStep_components.
    + rewrite set_fresh_key, <- app_assoc; auto.
      apply NoDup_remove_2 in Hnd. intros H. apply Hnd.
      apply in_or_app. auto.
    + rewrite healthStep_components, set_fresh_key.
      * unfold JsMap.keys. rewrite map_app, <- app_assoc. exact Hnd.
      * apply NoDup_remove_2 in Hnd. intros H. apply Hnd.
        apply in_or_app. auto.
Qed.

(** X10. When the checks have distinct names, as the entries of a map do,
    the components of the result list every check under its name, in the
    order the checks ran, with the result it returned, or with status
    error and the message of the exception when it threw. *)
Theorem health_check_components (checks : list (string * CheckOutcome)) :
  NoDup (map fst checks) ->
  hr_components (performHealthCheck checks)
  = map (fun entry => (fst entry, componentOf (snd entry))) checks.
Proof.
  intros Hnd. unfold performHealthCheck.
  rewrite healthCheck_components; [reflexivity|].
  cbn [hr_components JsMap.keys JsMap.empty map app]. exact Hnd.
Qed.

Lemma health_check_components_witness :
  NoDup (map fst (registeredChecks quietReadings))
  /\ JsMap.get (hr_components
                  (performHealthCheck (registeredChecks quietReadings)))
       "disk"
     = Some {| cr_status := "healthy"; cr_message := "Disk accessible" |}.
Proof.
  assert (NoDup (map fst (registeredChecks quietReadings))) as H.
  { simpl. repeat constructor; simpl; intuition discriminate. }
  split; [exact H|].
  rewrite (health_check_components (registeredChecks quietReadings) H).
  reflexivity.
Defined.

(** ** The registered checks *)

Lemma gtQ_compat q a b : (a == b)%Q -> gtQ q a = gtQ q b.
Proof.
  intros H. unfold gtQ. f_equal.
  destruct (Qle_bool q b) eqn:E.
  - apply Qle_bool_iff. apply Qle_bool_iff in E. now rewrite H.
  - apply not_true_iff_false. apply not_true_iff_false in E.
    rewrite Qle_bool_iff in *. now rewrite H.
Qed.

Lemma gtQ_trans_false q a b : (a <= b)%Q -> gtQ q a = false -> gtQ q b = false.
Proof.
  intros H Ha. apply gtQ_false. apply gtQ_false in Ha.
  eapply Qle_trans; eauto.
Qed.

Lemma checkCpuHealth_status cpu :
  cr_status (checkCpuHealth cpu)
  = if gtQ (cpu_usagePercent cpu) (inject_Z 80)
       || gtQ (cpu_loadAverage1 cpu) (inject_Z (cpu_cores cpu) * (8 # 10))%Q
    then "warning" else "healthy".
Proof.
  unfold checkCpuHealth.
  rewrite (gtQ_compat _ (th_cpuUsage alertThresholds * inject_Z 100)
             (inject_Z 80)) by reflexivity.
  destruct (gtQ (cpu_loadAverage1 cpu) _);
    destruct (gtQ (cpu_usagePercent cpu) _); reflexivity.
Qed.

(** X11. The CPU check never answers critical or error: it warns when the
    usage of the process is above 80% or the load average above 0.8 times
    the number of cores, and is healthy otherwise; when both are high the
    message is the one about the load. *)
Theorem cpu_check_only_warns (cpu : CpuMetrics) :
  let result := checkCpuHealth cpu in
  let usage := cpu_usagePercent cpu in
  let load := cpu_loadAverage1 cpu in
  let limit := (inject_Z (cpu_cores cpu) * (8 # 10))%Q in
  (cr_status result = "warning"
   <-> (inject_Z 80 < usage)%Q \/ (limit < load)%Q)
  /\ (cr_status result = "healthy"
      <-> (usage <= inject_Z 80)%Q /\ (load <= limit)%Q)
  /\ isFailure (cr_status result) = false
  /\ (gtQ load limit = true ->
      cr_message result = ("High load average: " ++ toFixed2 load)%string).
Proof.
  cbn zeta. rewrite checkCpuHealth_status.
  rewrite <- !gtQ_true, <- !gtQ_false.
  split; [|split; [|split]].
  - destruct (gtQ (cpu_usagePercent cpu) _);
      destruct (gtQ (cpu_loadAverage1 cpu) _); simpl;
      split; auto; try discriminate; intros [H|H]; discriminate.
  - destruct (gtQ (cpu_usagePercent cpu) _);
      destruct (gtQ (cpu_loadAverage1 cpu) _); simpl;
      split; auto; try discriminate; intros [H1 H2]; discriminate.
  - destruct (gtQ (cpu_usagePercent cpu) _ || gtQ (cpu_loadAverage1 cpu) _);
      reflexivity.
  - intros H. unfold checkCpuHealth. now rewrite H.
Qed.

Lemma cpu_check_only_warns_witness :
  gtQ (17 # 10) (inject_Z 2 * (8 # 10))%Q = true
  /\ cr_message
       (checkCpuHealth
          {| cpu_cores := 2; cpu_loadAverage1 := 17 # 10;
             cpu_usagePercent := inject_Z 85 |})
     = "High load average: 1.70".
Proof.
  split; [reflexivity|].
  apply (proj2 (proj2 (proj2
           (cpu_check_only_warns
              {| cpu_cores := 2; cpu_loadAverage1 := 17 # 10;
                 cpu_usagePercent := inject_Z 85 |})))).
  reflexivity.
Defined.



(** ** Recording an error and asking for it *)

Lemma lastn_last_in {A} n (l : list A) x :
  (0 < n)%nat -> In x (lastn n (l ++ [x])).
Proof.
  intros Hn. unfold lastn. rewrite length_app, skipn_app. simpl length.
  apply in_or_app. right.
  replace (length l + 1 - n - length l)%nat with 0%nat by lia.
  simpl. auto.
Qed.

Lemma filter_snoc_kept {A} (f : A -> bool) l x :
  f x = true -> filter f (l ++ [x]) = filter f l ++ [x].
Proof. intros H. rewrite filter_app. simpl. now rewrite H. Qed.

Lemma get_In {V} (m : JsMap.t V) k v :
  JsMap.get m k = Some v -> In (k, v) m.
Proof.
  induction m as [|[k' v'] m IH]; simpl; [discriminate|].
  destruct (String.eqb k k') eqn:E.
  - apply String.eqb_eq in E. subst k'. intros H. inversion H. auto.
  - auto.
Qed.

(** The newest record of a log that was just written is among the
    candidates of [recent]. *)
Lemma new_record_is_candidate since now error context m :
  since <= now ->
  In (toRecent (errorKeyOf error) (mkError now error context))
    (recentCandidates since (recordError now error context m)).
Proof.
  intros Hsince. unfold recentCandidates. apply in_flat_map.
  set (key := errorKeyOf error).
  set (new := mkError now error context).
  assert (exists old,
            JsMap.get (errors (recordError now error context m)) key
            = Some (lastn 500 (old ++ [new]))) as [old Hget].
  { unfold recordError. cbn [errors]. fold key new.
    rewrite JsMapFacts.get_set_same, truncate_lastn. eauto. }
  exists (key, lastn 500 (old ++ [new])). split; [now apply get_In|].
  cbn [fst snd]. apply in_map.
  destruct (Nat.le_gt_cases (length (old ++ [new])) 500) as [Hle|Hgt].
  - rewrite (lastn_all 500) by exact Hle.
    rewrite filter_snoc_kept by (apply Z.leb_le; exact Hsince).
    apply lastn_last_in. lia.
  - unfold lastn at 2. rewrite skipn_app.
    replace (length (old ++ [new]) - 500 - length old)%nat with 0%nat
      by (rewrite length_app; simpl; lia).
    cbn [skipn]. rewrite filter_snoc_kept by (apply Z.leb_le; exact Hsince).
    apply lastn_last_in. lia.
Qed.

Lemma candidates_older_or_new since now error context m :
  AllRecords (fun _ e => er_timestamp e < now) (errors m) ->
  forall c,
    In c (recentCandidates since (recordError now error context m)) ->
    re_timestamp c < now
    \/ c = toRecent (errorKeyOf error) (mkError now error context).
Proof.
  intros Hold c Hc.
  set (key := errorKeyOf error) in *.
  set (new := mkError now error context) in *.
  assert (AllRecords
            (fun k e => er_timestamp e < now \/ (k = key /\ e = new))
            (errors (recordError now error context m))) as Hall.
  { unfold recordError. cbn [errors]. fold key new.
    apply (AllRecords_pushCapped
             (fun k e => er_timestamp e < now \/ (k = key /\ e = new))
             500 (errors m) key new); auto.
    unfold AllRecords, AllLogs in *.
    eapply Forall_impl; [|exact Hold]. simpl. intros entry Hentry.
    eapply Forall_impl; [|exact Hentry]. simpl. auto. }
  unfold recentCandidates in Hc. apply in_flat_map in Hc.
  destruct Hc as [entry [Hentry Hc]]. apply in_map_iff in Hc.
  destruct Hc as [e [<- He]]. apply In_lastn, filter_In in He.
  destruct He as [He _].
  unfold AllRecords, AllLogs in Hall. rewrite Forall_forall in Hall.
  specialize (Hall entry Hentry). rewrite Forall_forall in Hall.
  destruct (Hall e He) as [Hlt|[-> ->]]; auto.
Qed.

Lemma descending_head {A} (key : A -> Z) x l y :
  descending key (x :: l) -> In y (x :: l) -> key y <= key x.
Proof.
  unfold descending. intros H [<-|Hy]; [lia|].
  inversion H as [|? ? _ Hx]; subst. rewrite Forall_forall in Hx. auto.
Qed.

(** X13. When an error is recorded at a moment later than every error the
    store holds, a query whose cutoff is not after that moment lists it
    first in [recent], with its kind, its message and the severity of its
    kind. *)
Theorem recorded_error_is_listed_first (since now : Z) (error : JsError)
    (context : Context) (m : Metrics) :
  since <= now ->
  AllRecords (fun _ e => er_timestamp e < now) (errors m) ->
  exists rest,
    xm_recent (getErrorMetrics since (recordError now error context m))
    = {| re_type := errorKeyOf error;
         re_message := err_message error;
         re_timestamp := now;
         re_severity := getErrorSeverity error |} :: rest.
Proof.
  intros Hsince Hold.
  set (m' := recordError now error context m).
  set (x := toRecent (errorKeyOf error) (mkError now error context)).
  rewrite getErrorMetrics_recent.
  pose proof (jsSort_perm re_timestamp (recentCandidates since m')) as Hperm.
  pose proof (jsSort_descending re_timestamp (recentCandidates since m'))
    as Hsorted.
  rewrite <- newestFirst_by_key in Hperm, Hsorted.
  assert (In x (jsSort newestFirst (recentCandidates since m'))) as Hx.
  { eapply Permutation_in; [symmetry; exact Hperm|].
    now apply new_record_is_candidate. }
  destruct (jsSort newestFirst (recentCandidates since m')) as [|h sorted];
    [destruct Hx|].
  exists (firstn 19 sorted). cbn [firstn]. f_equal.
  assert (In h (recentCandidates since m')) as Hh.
  { eapply Permutation_in; [exact Hperm|]. simpl. auto. }
  destruct (candidates_older_or_new since now error context m Hold h Hh)
    as [Hlt|Heq]; [|exact Heq].
  pose proof (descending_head re_timestamp h sorted x Hsorted Hx) as Hle.
  change (re_timestamp x) with now in Hle. lia.
Qed.

Lemma recorded_error_is_listed_first_witness :
  0 <= 9500000
  /\ AllRecords (fun _ e => er_timestamp e < 9500000) (errors agedStore)
  /\ exists rest,
       xm_recent
         (getErrorMetrics 0
            (recordError 9500000
               {| err_name := "DatabaseError"; err_message := "timeout";
                  err_stack := "" |} [] agedStore))
       = {| re_type := "DatabaseError"; re_message := "timeout";
            re_timestamp := 9500000; re_severity := "high" |} :: rest.
Proof.
  assert (0 <= 9500000) as H1 by lia.
  assert (AllRecords (fun _ e => er_timestamp e < 9500000)
            (errors agedStore)) as H2.
  { unfold AllRecords, AllLogs, agedStore. simpl. repeat constructor. }
  split; [exact H1|]. split; [exact H2|].
  exact (recorded_error_is_listed_first 0 9500000
           {| err_name := "DatabaseError"; err_message := "timeout";
              err_stack := "" |} [] agedStore H1 H2).
Defined.

(** ** Request monitoring middleware *)

Lemma getOr_recordRequest now endpoint method statusCode responseTime userId
    m :
  getOr (requests (recordRequest now endpoint method statusCode responseTime
                     userId m))
    (requestKey method endpoint)
  = lastn 1000
      (getOr (requests m) (requestKey method endpoint)
       ++ [mkRequest now statusCode responseTime userId]).
Proof.
  unfold recordRequest. cbn [requests].
  apply (getOr_pushCapped_same 1000 (requests m)).
Qed.

Lemma getOr_recordError now error context m :
  getOr (errors (recordError now error context m)) (errorKeyOf error)
  = lastn 500
      (getOr (errors m) (errorKeyOf error) ++ [mkError now error context]).
Proof.
  unfold recordError. cbn [errors].
  apply (getOr_pushCapped_same 500 (errors m)).
Qed.

(** X14. Every call of [recordMetrics] appends the request to the log of
    its method and normalised endpoint. It records an error exactly when
    the status is 400 or more and the body is not [null]: of the kind given
    by the [code] of the body, or APIError, when the body is an object with
    an [error], and of kind HTTPError otherwise. With a status of 400 or
    more and a [null] body it throws once the request is recorded, and the
    error log is left as it was, as it is for a status below 400. *)
Theorem middleware_records_request_and_error (now errorTime : Z)
    (path method : string) (statusCode responseTime : Z)
    (userId : option string) (data : ResponseData) (stack : string)
    (details : Context) (m : Metrics) :
  let outcome :=
    recordMetrics now errorTime path method statusCode responseTime userId
      data stack details m in
  let key := requestKey method (getEndpointPattern path) in
  let error := responseError data statusCode stack in
  getOr (requests (rd_state outcome)) key
  = lastn 1000
      (getOr (requests m) key
       ++ [mkRequest now statusCode responseTime userId])
  /\ (rd_threw outcome = true <-> 400 <= statusCode /\ data = DataNull)
  /\ (statusCode < 400 \/ data = DataNull ->
      errors (rd_state outcome) = errors m)
  /\ (400 <= statusCode -> data <> DataNull ->
      exists errorContext,
        getOr (errors (rd_state outcome)) (errorKeyOf error)
        = lastn 500
            (getOr (errors m) (errorKeyOf error)
             ++ [mkError errorTime error errorContext])
        /\ rq_success (mkRequest now statusCode responseTime userId) = false)
  /\ (errorKeyOf error
      = match data with
        | DataObject e code =>
            if String.eqb e "" then "HTTPError" else orElse code "APIError"
        | _ => "HTTPError"
        end).
Proof.
  cbn zeta. unfold recordMetrics.
  split; [|split; [|split; [|split]]].
  - destruct (400 <=? statusCode); [destruct data|];
      cbn [rd_state]; unfold recordError; cbn [requests];
      apply getOr_recordRequest.
  - destruct (400 <=? statusCode) eqn:E.
    + apply Z.leb_le in E.
      destruct data; cbn [rd_threw]; split; auto;
        try discriminate; intros [_ H]; discriminate.
    + apply Z.leb_gt in E. cbn [rd_threw]. split; [discriminate|lia].
  - intros H. destruct (400 <=? statusCode) eqn:E.
    + apply Z.leb_le in E. destruct H as [H| ->]; [lia|]. reflexivity.
    + reflexivity.
  - intros H Hdata. apply Z.leb_le in H. rewrite H.
    assert (rq_success (mkRequest now statusCode responseTime userId)
            = false) as Hfail.
    { cbn [mkRequest rq_success]. apply Z.leb_le in H.
      assert ((statusCode <? 400) = false) as -> by (apply Z.ltb_ge; lia).
      apply andb_false_r. }
    destruct data as [|e code|]; [congruence| |];
      cbn [rd_state]; eexists; (split; [|exact Hfail]);
      rewrite getOr_recordError; unfold recordRequest; cbn [errors];
      reflexivity.
  - destruct data as [|e code|]; try reflexivity.
    unfold responseError. destruct (String.eqb e ""); [reflexivity|].
    unfold errorKeyOf, orElse. cbn [err_name].
    destruct (String.eqb code "") eqn:E; [reflexivity|]. now rewrite E.
Qed.

Lemma middleware_records_request_and_error_witness :
  400 <= 404
  /\ DataOther <> DataNull
  /\ exists errorContext,
       getOr (errors (rd_state (recordMetrics 10 11 "/media/42" "GET" 404 7
                                  None DataOther "" [] newMetrics)))
         "HTTPError"
       = lastn 500
           (getOr (errors newMetrics) "HTTPError"
            ++ [mkError 11 (responseError DataOther 404 "") errorContext])
       /\ rq_success (mkRequest 10 404 7 None) = false.
Proof.
  pose proof (middleware_records_request_and_error 10 11 "/media/42" "GET"
                404 7 None DataOther "" [] newMetrics) as H.
  cbn zeta in H. destruct H as (_ & _ & _ & H4 & _).
  assert (400 <= 404) as H1 by lia.
  assert (DataOther <> DataNull) as H2 by discriminate.
  split; [exact H1|]. split; [exact H2|].
  exact (H4 H1 H2).
Defined.

(** ** Performance analysis *)

(** X15. The status of [analyzePerformance] is poor when the error rate is
    above 10%, the average response time above 2000 ms or a critical error
    was counted; short of that it is fair when the error rate is above 5%
    or the average response time above 1000 ms; otherwise it is good. A
    missing error rate counts as not above any limit. The status is good
    exactly when no issue is listed, and there is never more
    recommendations than issues. *)
Theorem performance_status (requestMetrics : RequestMetrics)
    (errorMetrics : ErrorMetrics) :
  let analysis := analyzePerformance requestMetrics errorMetrics in
  let rate := rm_errorRate requestMetrics in
  let average := rm_averageResponseTime requestMetrics in
  let critical := counter (xm_bySeverity errorMetrics) "critical" in
  an_status analysis
  = (if rateAbove rate (1 # 10) || (2000 <? average) || (0 <? critical)
     then "poor"
     else if rateAbove rate (5 # 100) || (1000 <? average) then "fair"
     else "good")
  /\ (an_status analysis = "good" <-> an_issues analysis = [])
  /\ (length (an_recommendations analysis)
      <= length (an_issues analysis))%nat.
Proof.
  cbn zeta.
  unfold analyzePerformance, analyzeCriticalErrors, analyzeResponseTime,
    analyzeErrorRate.
  destruct (rateAbove (rm_errorRate requestMetrics) (1 # 10));
    destruct (rateAbove (rm_errorRate requestMetrics) (5 # 100));
    destruct (2000 <? rm_averageResponseTime requestMetrics) eqn:E1;
    destruct (1000 <? rm_averageResponseTime requestMetrics) eqn:E2;
    destruct (0 <? counter (xm_bySeverity errorMetrics) "critical");
    cbn; repeat split; try discriminate; try lia; auto;
    apply Z.ltb_lt in E1; apply Z.ltb_ge in E2; lia.
Qed.

Lemma errorMetrics_loop_quiet since es metrics :
  flat_map
    (fun entry => filter (fun e => since <=? er_timestamp e) (snd entry)) es
  = [] ->
  fold_left (errorMetricsStep since) es metrics = metrics.
Proof.
  revert metrics. induction es as [|entry es IH]; intros metrics H; auto.
  cbn [flat_map] in H. apply app_eq_nil in H. destruct H as [H1 H2].
  cbn [fold_left]. unfold errorMetricsStep at 2. rewrite H1.
  change (0 <? @lengthZ ErrorRecord []) with false. cbv iota. now apply IH.
Qed.

Lemma requestsInWindow_quiet since m :
  requestsInWindow since m = [] ->
  Forall
    (fun entry =>
       filter (fun r => since <=? rq_timestamp r) (snd entry) = [])
    (requests m).
Proof.
  unfold requestsInWindow. induction (requests m) as [|entry es IH]; auto.
  cbn [flat_map]. intros H. apply app_eq_nil in H. destruct H as [H1 H2].
  constructor; auto.
Qed.

(** X16. When neither a request nor an error lies in the window, the
    analysis of what the two queries return is good, with no issue and no
    recommendation: the error rate the request query leaves out is read as
    not elevated. *)
Theorem quiet_window_is_good (since : Z) (m : Metrics) :
  requestsInWindow since m = [] ->
  errorsInWindow since m = [] ->
  analyzePerformance (getRequestMetrics since m) (getErrorMetrics since m)
  = {| an_status := "good"; an_issues := []; an_recommendations := [] |}.
Proof.
  intros Hr He.
  rewrite (getRequestMetrics_none_recent since m)
    by now apply requestsInWindow_quiet.
  unfold getErrorMetrics.
  rewrite errorMetrics_loop_quiet by exact He.
  reflexivity.
Qed.

Lemma quiet_window_is_good_witness :
  requestsInWindow 9500000 agedStore = []
  /\ errorsInWindow 9500000 agedStore = []
  /\ an_status
       (analyzePerformance (getRequestMetrics 9500000 agedStore)
          (getErrorMetrics 9500000 agedStore))
     = "good".
Proof.
  assert (requestsInWindow 9500000 agedStore = []) as H1 by reflexivity.
  assert (errorsInWindow 9500000 agedStore = []) as H2 by reflexivity.
  split; [exact H1|]. split; [exact H2|].
  now rewrite (quiet_window_is_good 9500000 agedStore H1 H2).
Defined.

(** ** Errors endpoint *)

Lemma getErrorMetrics_recent_length since m :
  (length (xm_recent (getErrorMetrics since m)) <= 20)%nat.
Proof. rewrite getErrorMetrics_recent, length_firstn. lia. Qed.

Lemma sliceTo_length {A} limit (l : list A) :
  (length (sliceTo limit l) <= length l)%nat.
Proof.
  unfold sliceTo. destruct (0 <=? limit); rewrite length_firstn; lia.
Qed.

Lemma sliceTo_incl {A} limit (l : list A) x :
  In x (sliceTo limit l) -> In x l.
Proof.
  unfold sliceTo. destruct (0 <=? limit); intros H;
    match type of H with
    | In _ (firstn ?n _) =>
        rewrite <- (firstn_skipn n l); apply in_or_app; auto
    end.
Qed.

Lemma sliceTo_all {A} limit (l : list A) :
  Z.of_nat (length l) <= limit -> sliceTo limit l = l.
Proof.
  intros H. unfold sliceTo.
  assert ((0 <=? limit) = true) as -> by (apply Z.leb_le; lia).
  apply firstn_all2. lia.
Qed.

(** X17. The errors endpoint never lists more than 20 errors, whatever
    [limit] asks for, and a limit of 20 or more (the default is 50) cuts
    nothing. With a [severity] filter every error listed has that severity,
    while [total] and the counters by kind and by severity still count the
    errors of every severity in the range. *)
Theorem errors_endpoint_listing (now : Z) (range severity : string)
    (limit : option Z) (m : Metrics) :
  let response := errorsRoute now range severity limit m in
  let query := getErrorMetrics (getTimeSince now (orElse range "1h")) m in
  (length (xm_recent response) <= 20)%nat
  /\ (forall e, In e (xm_recent response) ->
        In e (xm_recent query)
        /\ (severity = "" \/ re_severity e = severity))
  /\ (20 <= limitOr50 limit ->
      xm_recent response
      = if String.eqb severity "" then xm_recent query
        else filter (fun e => String.eqb (re_severity e) severity)
               (xm_recent query))
  /\ xm_total response = xm_total query
  /\ xm_byType response = xm_byType query
  /\ xm_bySeverity response = xm_bySeverity query.
Proof.
  cbn zeta. unfold errorsRoute. cbn [xm_recent xm_total xm_byType
                                      xm_bySeverity].
  set (query := getErrorMetrics (getTimeSince now (orElse range "1h")) m).
  pose proof (getErrorMetrics_recent_length
                (getTimeSince now (orElse range "1h")) m) as Hlen.
  fold query in Hlen.
  set (recent := if String.eqb severity "" then xm_recent query
                 else filter (fun e => String.eqb (re_severity e) severity)
                        (xm_recent query)).
  assert (length recent <= length (xm_recent query))%nat as Hrecent.
  { unfold recent. destruct (String.eqb severity ""); [lia|].
    apply filter_length_le. }
  split; [|split; [|split]]; auto.
  - pose proof (sliceTo_length (limitOr50 limit) recent). lia.
  - intros e He. apply sliceTo_incl in He. unfold recent in He.
    destruct (String.eqb severity "") eqn:E.
    + apply String.eqb_eq in E. auto.
    + apply filter_In in He. destruct He as [He Hs].
      apply String.eqb_eq in Hs. auto.
  - intros Hlimit. apply sliceTo_all. lia.
Qed.

Lemma errors_endpoint_listing_witness :
  20 <= limitOr50 None
  /\ xm_recent (errorsRoute 9000000 "24h" "high" None lopsidedStore)
     = filter (fun e => String.eqb (re_severity e) "high")
         (xm_recent
            (getErrorMetrics (getTimeSince 9000000 "24h") lopsidedStore)).
Proof.
  assert (20 <= limitOr50 None) as H by (simpl; lia).
  split; [exact H|].
  exact (proj1 (proj2 (proj2
           (errors_endpoint_listing 9000000 "24h" "high" None
              lopsidedStore))) H).
Defined.

(** ** Alerts endpoint *)

Lemma healthStep_alert_severities results entry :
  Forall (fun a => al_severity a = "critical" \/ al_severity a = "warning")
    (hr_alerts results) ->
  Forall (fun a => al_severity a = "critical" \/ al_severity a = "warning")
    (hr_alerts (healthStep results entry)).
Proof.
  intros H. destruct entry as [name [result|message]]; unfold healthStep;
    cbn [fst snd].
  - destruct (isFailure (cr_status result)).
    + cbn [hr_alerts]. apply Forall_app. split; auto.
    + destruct (String.eqb (cr_status result) "warning"
                && String.eqb (hr_overall results) "healthy");
        cbn [hr_alerts]; auto.
      apply Forall_app. split; auto.
  - cbn [hr_alerts]. apply Forall_app. split; auto.
Qed.

Lemma health_alert_severities checks :
  Forall (fun a => al_severity a = "critical" \/ al_severity a = "warning")
    (hr_alerts (performHealthCheck checks)).
Proof.
  unfold performHealthCheck.
  match goal with
  | |- context [fold_left healthStep checks ?init] =>
      assert (Forall (fun a => al_severity a = "critical"
                               \/ al_severity a = "warning")
                (hr_alerts init)) as H by constructor;
      revert H; generalize init
  end.
  induction checks as [|entry checks IH]; intros results H; simpl; auto.
  apply IH, healthStep_alert_severities, H.
Qed.

Lemma performance_alert_severities heapUsed heapTotal uptime :
  Forall (fun a => al_severity a = "critical" \/ al_severity a = "warning"
                   \/ al_severity a = "info")
    (generatePerformanceAlerts heapUsed heapTotal uptime).
Proof.
  unfold generatePerformanceAlerts. apply Forall_app. split.
  - destruct (gtQ _ (inject_Z 90)); [|destruct (gtQ _ (inject_Z 75))];
      repeat (constructor; [simpl; auto|]); constructor.
  - destruct (uptime <? 300000);
      repeat (constructor; [simpl; auto|]); constructor.
Qed.

Lemma counts_add_up (alerts : list Alert) :
  Forall (fun a => al_severity a = "critical" \/ al_severity a = "warning"
                   \/ al_severity a = "info") alerts ->
  lengthZ alerts
  = countSeverity "critical" alerts + countSeverity "warning" alerts
    + countSeverity "info" alerts.
Proof.
  unfold countSeverity. induction 1 as [|a alerts Ha _ IH].
  - reflexivity.
  - cbn [filter]. rewrite lengthZ_cons, IH.
    destruct Ha as [Ha|[Ha|Ha]]; rewrite Ha;
      cbn [String.eqb Ascii.eqb Bool.eqb andb];
      rewrite ?lengthZ_cons; lia.
Qed.

(** X18. In the response of the alerts endpoint [total] is the sum of the
    three counters [critical], [warning] and [info]. The [severity] filter
    only applies to the alerts of the health check: every alert of
    [generatePerformanceAlerts] is returned whatever the filter, and every
    other alert returned is one of the health check with the severity asked
    for. *)
Theorem alerts_endpoint_counts (checks : list (string * CheckOutcome))
    (severity : string) (heapUsed heapTotal uptime : Z) :
  let health := hr_alerts (performHealthCheck checks) in
  let performance := generatePerformanceAlerts heapUsed heapTotal uptime in
  let response :=
    alertsRoute (HealthOk (performHealthCheck checks)) severity
      performance in
  ar_total response
  = ar_critical response + ar_warning response + ar_info response
  /\ ar_total response = lengthZ (ar_items response)
  /\ (forall a, In a performance -> In a (ar_items response))
  /\ (forall a, In a (ar_items response) ->
        In a performance
        \/ (In a health /\ (severity = "" \/ al_severity a = severity))).
Proof.
  cbn zeta. unfold alertsRoute.
  cbn [ar_total ar_critical ar_warning ar_info ar_items alertsOf].
  set (health := hr_alerts (performHealthCheck checks)).
  set (performance := generatePerformanceAlerts heapUsed heapTotal uptime).
  set (kept := if String.eqb severity "" then health
               else filter (fun a => String.eqb (al_severity a) severity)
                      health).
  assert (Permutation (sortAlerts (kept ++ performance))
            (kept ++ performance)) as Hperm.
  { unfold sortAlerts. rewrite bySeverity_by_key.
    apply (jsSort_perm (fun a => severityOrder (al_severity a))). }
  assert (forall a, In a kept ->
            In a health /\ (severity = "" \/ al_severity a = severity))
    as Hkept.
  { intros a Ha. unfold kept in Ha.
    destruct (String.eqb severity "") eqn:E.
    - apply String.eqb_eq in E. auto.
    - apply filter_In in Ha. destruct Ha as [Ha Hs].
      apply String.eqb_eq in Hs. auto. }
  split; [|split; [|split]].
  - apply counts_add_up.
    eapply Permutation_Forall; [symmetry; exact Hperm|].
    apply Forall_app. split.
    + apply Forall_forall. intros a Ha. apply Hkept in Ha.
      destruct Ha as [Ha _].
      pose proof (health_alert_severities checks) as Hh.
      rewrite Forall_forall in Hh. destruct (Hh a Ha); auto.
    + apply performance_alert_severities.
  - reflexivity.
  - intros a Ha. eapply Permutation_in; [symmetry; exact Hperm|].
    apply in_or_app. auto.
  - intros a Ha. eapply Permutation_in in Ha; [|exact Hperm].
    apply in_app_or in Ha. destruct Ha as [Ha|Ha]; auto.
Qed.

(** X19. On one reading of the heap, and while the system memory is not
    above 90%, [generatePerformanceAlerts] and the memory check agree: the
    alerts for the memory are none when the check is healthy, and otherwise
    one alert with the status of the check as its severity. *)
Theorem memory_alert_agrees_with_check (r : MemoryReadings) (uptime : Z) :
  (mm_systemUsage (getMemoryMetrics r) <= inject_Z 90)%Q ->
  let status := cr_status (checkMemoryHealth (getMemoryMetrics r)) in
  map al_severity
    (filter (fun a => String.eqb (al_component a) "memory")
       (generatePerformanceAlerts (heapUsed r) (heapTotal r) uptime))
  = if String.eqb status "healthy" then [] else [status].
Proof.
  intros Hsystem. cbn zeta. rewrite checkMemoryHealth_status.
  apply gtQ_false in Hsystem. rewrite Hsystem.
  unfold generatePerformanceAlerts, getMemoryMetrics.
  cbn [mm_processUsage]. rewrite filter_app.
  set (usage := (inject_Z (heapUsed r) / inject_Z (heapTotal r)
                 * inject_Z 100)%Q).
  assert (filter (fun a => String.eqb (al_component a) "memory")
            (if uptime <? 300000
             then [{| al_component := "system"; al_severity := "info";
                      al_message :=
                        ("System recently restarted (uptime: "
                         ++ showZ (mathRound (inject_Z uptime
                                              / inject_Z 1000)%Q)
                         ++ "s)")%string |}]
             else []) = []) as ->.
  { destruct (uptime <? 300000); reflexivity. }
  rewrite app_nil_r.
  destruct (gtQ usage (inject_Z 90)); [reflexivity|].
  destruct (gtQ usage (inject_Z 75)); reflexivity.
Qed.

Lemma memory_alert_agrees_with_check_witness :
  (mm_systemUsage
     (getMemoryMetrics
        {| heapUsed := 80; heapTotal := 100; totalmem := 1000;
           freemem := 400 |}) <= inject_Z 90)%Q
  /\ map al_severity
       (filter (fun a => String.eqb (al_component a) "memory")
          (generatePerformanceAlerts 80 100 600000))
     = ["warning"].
Proof.
  assert (mm_systemUsage
            (getMemoryMetrics
               {| heapUsed := 80; heapTotal := 100; totalmem := 1000;
                  freemem := 400 |}) <= inject_Z 90)%Q as H.
  { unfold Qle. simpl. lia. }
  split; [exact H|].
  exact (memory_alert_agrees_with_check
           {| heapUsed := 80; heapTotal := 100; totalmem := 1000;
              freemem := 400 |} 600000 H).
Defined.

(** ** Bucketed history, every range *)

Lemma threshold_covered now timeRange :
  now - Z.of_nat (bucketCount timeRange) * bucketSize timeRange
  <= timeThreshold now timeRange
  /\ 0 < bucketSize timeRange.
Proof.
  unfold bucketCount, bucketSize, timeThreshold.
  destruct (String.eqb timeRange "7d") eqn:E7.
  - apply String.eqb_eq in E7. subst timeRange. simpl. lia.
  - destruct (String.eqb timeRange "24h") eqn:E24.
    + apply String.eqb_eq in E24. subst timeRange. simpl. lia.
    + destruct (String.eqb timeRange "6h"); simpl; lia.
Qed.

Lemma count_in_covered_range {Row} (time : Row -> Z) (lo lo' now : Z) rows :
  lo' <= lo ->
  lengthZ
    (filter (fun r => (lo' <=? time r) && (time r <? now))
       (filter (fun r => lo <=? time r) rows))
  = lengthZ (filter (fun r => lo <=? time r) rows)
    - lengthZ
        (filter (fun r => now <=? time r)
           (filter (fun r => lo <=? time r) rows)).
Proof.
  intros Hlo. unfold lengthZ. induction rows as [|r rows IH]; auto.
  cbn [filter]. destruct (lo <=? time r) eqn:E1; auto.
  cbn [filter].
  assert ((lo' <=? time r) = true) as ->.
  { apply Z.leb_le. apply Z.leb_le in E1. lia. }
  cbn [andb].
  destruct (time r <? now) eqn:E2.
  - assert ((now <=? time r) = false) as ->.
    { apply Z.leb_gt. now apply Z.ltb_lt. }
    simpl length. lia.
  - assert ((now <=? time r) = true) as ->.
    { apply Z.leb_le. now apply Z.ltb_ge. }
    simpl length. lia.
Qed.

Lemma history_total_range {Row} (time : Row -> Z) (now : Z)
    (timeRange : string) (table : option (list Row)) :
  let selected :=
    option_map (filter (fun r => timeThreshold now timeRange <=? time r))
      table in
  sumZ
    (map (fun i =>
            countWhere
              (fun r => inBucket now (bucketSize timeRange) i (time r))
              selected)
       (seq 0 (bucketCount timeRange)))
  = countRows selected - countWhere (fun r => now <=? time r) selected.
Proof.
  destruct (threshold_covered now timeRange) as [Hcover Hsize].
  destruct table as [rows|]; simpl option_map; cbv zeta.
  - unfold countWhere, countRows.
    rewrite (bucket_counts_sum time now (bucketSize timeRange) Hsize).
    now apply count_in_covered_range.
  - unfold countWhere, countRows.
    induction (seq 0 (bucketCount timeRange)); simpl; auto.
Qed.

(** X20. For every range, with the history asked for, the endpoint returns
    as many buckets as the range has (7 for 7d, 24 for 24h, 6 otherwise),
    oldest first, each starting one bucket width after the one before and
    the last one ending at [now]; their counts add up to the count of the
    range less the rows time-stamped at or after [now]. Without the history
    flag no bucket is returned. *)
Theorem history_buckets_every_range (now : Z) (timeRange : string)
    (mediaTable : option (list MediaRow))
    (playlistTable : option (list PlaylistRow)) :
  let metrics := dashboardMetrics now timeRange true mediaTable playlistTable in
  let mediaMetrics := selectMedia (timeThreshold now timeRange) mediaTable in
  let playlistMetrics :=
    selectPlaylists (timeThreshold now timeRange) playlistTable in
  let n := bucketCount timeRange in
  let size := bucketSize timeRange in
  (exists buckets,
     dm_history metrics = Some buckets
     /\ length buckets = n
     /\ map bk_timestamp buckets
        = map (fun k => now - Z.of_nat (n - k) * size) (seq 0 n))
  /\ historyTotal bk_mediaUploads (dm_history metrics)
     = dm_mediaUploads metrics
       - countWhere (fun m => now <=? md_created_at m) mediaMetrics
  /\ historyTotal bk_playlistUpdates (dm_history metrics)
     = dm_playlistUpdates metrics
       - countWhere (fun p => now <=? pl_updated_at p) playlistMetrics
  /\ dm_history
       (dashboardMetrics now timeRange false mediaTable playlistTable)
     = None.
Proof.
  cbn zeta.
  set (mediaMetrics := selectMedia (timeThreshold now timeRange) mediaTable).
  set (playlistMetrics :=
         selectPlaylists (timeThreshold now timeRange) playlistTable).
  assert (dm_history
            (dashboardMetrics now timeRange true mediaTable playlistTable)
          = Some (rev (map (makeBucket now (bucketSize timeRange)
                              mediaMetrics playlistMetrics)
                         (seq 0 (bucketCount timeRange))))) as Hhist.
  { unfold dashboardMetrics. cbn [dm_history].
    now rewrite historyBuckets_rev. }
  split; [|split; [|split]].
  - eexists. split; [exact Hhist|]. split.
    + now rewrite length_rev, length_map, length_seq.
    + rewrite rev_map_seq, map_map. apply map_ext_in.
      intros k Hk. apply in_seq in Hk. cbn [makeBucket bk_timestamp].
      unfold bucketStart. f_equal. f_equal. lia.
  - rewrite Hhist. unfold historyTotal. rewrite map_rev, sumZ_rev, map_map.
    apply (history_total_range md_created_at now timeRange mediaTable).
  - rewrite Hhist. unfold historyTotal. rewrite map_rev, sumZ_rev, map_map.
    apply (history_total_range pl_updated_at now timeRange playlistTable).
  - reflexivity.
Qed.

Lemma countWhere_none {A} (p : A -> bool) rows :
  (forall a, p a = false) -> countWhere p rows = 0.
Proof.
  intros H. destruct rows as [l|]; simpl; auto.
  induction l as [|a l IH]; simpl; auto. now rewrite H.
Qed.

Lemma countWhere_selected_none {A} (sel p : A -> bool) table :
  (forall a, sel a = true -> p a = false) ->
  countWhere p (option_map (filter sel) table) = 0.
Proof.
  intros H. destruct table as [l|]; simpl; auto.
  induction l as [|a l IH]; simpl; auto.
  destruct (sel a) eqn:E; auto. simpl. now rewrite (H a E).
Qed.

(** X21. For the range 1h, and any range that is not 6h, 24h or 7d, the
    history has six hourly buckets although only the rows of the last hour
    are fetched: the five oldest buckets are always zero, and everything
    counted is in the last one. *)
Theorem default_range_history (now : Z) (timeRange : string)
    (mediaTable : option (list MediaRow))
    (playlistTable : option (list PlaylistRow)) :
  String.eqb timeRange "6h" = false ->
  String.eqb timeRange "24h" = false ->
  String.eqb timeRange "7d" = false ->
  exists newest,
    dm_history
      (dashboardMetrics now timeRange true mediaTable playlistTable)
    = Some
        (map (fun k =>
                {| bk_timestamp := now - (6 - Z.of_nat k) * hour;
                   bk_mediaUploads := 0;
                   bk_playlistUpdates := 0 |}) (seq 0 5)
         ++ [newest])
    /\ bk_timestamp newest = now - hour.
Proof.
  intros E6 E24 E7.
  unfold dashboardMetrics. cbn [dm_history].
  unfold historyBuckets, bucketCount, bucketSize, timeThreshold.
  rewrite E6, E24, E7. fold hour.
  set (media := selectMedia (now - hour) mediaTable).
  set (playlists := selectPlaylists (now - hour) playlistTable).
  assert (forall i, (1 <= i)%nat ->
            makeBucket now hour media playlists i
            = {| bk_timestamp := now - (Z.of_nat i + 1) * hour;
                 bk_mediaUploads := 0; bk_playlistUpdates := 0 |}) as Hold.
  { intros i Hi. unfold makeBucket. f_equal.
    - apply countWhere_selected_none. intros m Hm.
      apply Z.leb_le in Hm. unfold inBucket, bucketEnd.
      apply andb_false_iff. right. apply Z.ltb_ge. unfold hour in *. nia.
    - apply countWhere_selected_none. intros p Hp.
      apply Z.leb_le in Hp. unfold inBucket, bucketEnd.
      apply andb_false_iff. right. apply Z.ltb_ge. unfold hour in *. nia. }
  exists (makeBucket now hour media playlists 0).
  cbn [seq fold_left map app].
  rewrite !Hold by lia.
  split; [|cbn [makeBucket bk_timestamp]; unfold bucketStart, hour; lia].
  repeat f_equal; unfold hour; lia.
Qed.

Lemma default_range_history_witness :
  String.eqb "1h" "6h" = false
  /\ String.eqb "1h" "24h" = false
  /\ String.eqb "1h" "7d" = false
  /\ exists newest,
       dm_history
         (dashboardMetrics 90000000 "1h" true
            (Some [mkMediaRow 89999000 2048 "image"]) None)
       = Some
           (map (fun k =>
                   {| bk_timestamp := 90000000 - (6 - Z.of_nat k) * hour;
                      bk_mediaUploads := 0;
                      bk_playlistUpdates := 0 |}) (seq 0 5)
            ++ [newest])
       /\ bk_timestamp newest = 90000000 - hour.
Proof.
  repeat (split; [reflexivity|]).
  apply (default_range_history 90000000 "1h"); reflexivity.
Defined.

(** ** Dashboard health *)

Lemma dashScreens_components now screens h :
  dh_components (dashScreens now screens h)
  = match screens with
    | Some rows =>
        JsMap.set (dh_components h) "screens"
          (rateStatus (connectivityRate now rows))
    | None => dh_components h
    end
  /\ dh_screensTotal (dashScreens now screens h)
     = match screens with
       | Some rows => Some (lengthZ rows)
       | None => dh_screensTotal h
       end.
Proof.
  destruct screens as [rows|]; [|split; reflexivity].
  unfold dashScreens.
  destruct (negb (geQ (connectivityRate now rows) (inject_Z 50)));
    [split; reflexivity|].
  destruct (negb (geQ (connectivityRate now rows) (inject_Z 80)));
    split; reflexivity.
Qed.

Lemma dashSystem_components heapUsed heapTotal h :
  dh_components (dashSystem heapUsed heapTotal h)
  = JsMap.set (dh_components h) "system" "healthy".
Proof.
  unfold dashSystem.
  destruct (gtQ _ (inject_Z 90)); [reflexivity|].
  destruct (gtQ _ (inject_Z 75)); reflexivity.
Qed.

(** The components of the answer: the database, the storage, the screens
    and the content when their rows were read, and the system. *)
Lemma dashboardHealth_components env :
  dh_components (dashboardHealth env)
  = [("database", probeStatus (dr_probe env));
     ("storage", bucketsStatus (dr_listing env))]
    ++ match dr_screens env with
       | Some rows =>
           [("screens", rateStatus (connectivityRate (dr_now env) rows))]
       | None => []
       end
    ++ match dr_assignments env with
       | Some rows =>
           [("content",
             rateStatus
               (assignmentRate rows
                  (match dr_screens env with
                   | Some screens => Some (lengthZ screens)
                   | None => None
                   end)))]
       | None => []
       end
    ++ [("system", "healthy")].
Proof.
  unfold dashboardHealth, dashFinal. cbn [dh_components].
  rewrite dashSystem_components.
  set (h2 := dashStorage (dr_listing env) (dashDatabase (dr_probe env) _)).
  assert (dh_components h2
          = [("database", probeStatus (dr_probe env));
             ("storage", bucketsStatus (dr_listing env))]
          /\ dh_screensTotal h2 = None) as [H2 T2].
  { unfold h2. destruct (dr_probe env), (dr_listing env); split; reflexivity. }
  destruct (dashScreens_components (dr_now env) (dr_screens env) h2)
    as [H3 T3].
  set (h3 := dashScreens (dr_now env) (dr_screens env) h2) in *.
  rewrite H2 in H3. rewrite T2 in T3.
  unfold dashContent.
  destruct (dr_assignments env) as [assignments|];
    destruct (dr_screens env) as [screens|];
    cbn [dh_components]; rewrite H3, ?T3; reflexivity.
Qed.

Lemma rateStatus_cases rate :
  rateStatus rate = "healthy" /\ geQ rate (inject_Z 80) = true
  \/ rateStatus rate = "warning" /\ geQ rate (inject_Z 80) = false
     /\ geQ rate (inject_Z 50) = true
  \/ rateStatus rate = "critical" /\ geQ rate (inject_Z 80) = false
     /\ geQ rate (inject_Z 50) = false.
Proof.
  unfold rateStatus.
  destruct (geQ rate (inject_Z 80)); auto.
  destruct (geQ rate (inject_Z 50)); auto.
Qed.

Lemma geQ_80_50 rate :
  geQ rate (inject_Z 80) = true -> geQ rate (inject_Z 50) = true.
Proof.
  unfold geQ. rewrite !Qle_bool_iff. intros H.
  eapply Qle_trans; [|exact H]. discriminate.
Qed.

(** The overall status before the final determination, when no component
    has a status of error, critical or warning. *)
Lemma dashboardHealth_sound_overall env :
  let before :=
    dashSystem (dr_heapUsed env) (dr_heapTotal env)
      (dashContent (dr_assignments env)
         (dashScreens (dr_now env) (dr_screens env)
            (dashStorage (dr_listing env)
               (dashDatabase (dr_probe env)
                  {| dh_overall := "healthy";
                     dh_components := JsMap.empty;
                     dh_alerts := [];
                     dh_screensTotal := None |})))) in
  probeStatus (dr_probe env) = "healthy" ->
  bucketsStatus (dr_listing env) = "healthy" ->
  match dr_screens env with
  | Some rows => rateStatus (connectivityRate (dr_now env) rows) = "healthy"
  | None => True
  end ->
  dh_overall before
  = if gtQ (heapPercent env) (inject_Z 90) then "critical" else "healthy".
Proof.
  cbn zeta. intros Hp Hb Hs.
  unfold dashSystem, heapPercent.
  destruct (gtQ _ (inject_Z 90)); [reflexivity|].
  assert (forall h, dh_overall
                      (if gtQ (inject_Z (dr_heapUsed env)
                               / inject_Z (dr_heapTotal env)
                               * inject_Z 100)%Q (inject_Z 75)
                       then {| dh_overall := dh_overall h;
                               dh_components :=
                                 JsMap.set (dh_components h) "system"
                                   "healthy";
                               dh_alerts :=
                                 dh_alerts h
                                 ++ [{| da_type := "warning";
                                        da_component := "system";
                                        da_message :=
                                          ("Elevated memory usage: "
                                           ++ showZ
                                                (mathRound
                                                   (inject_Z (dr_heapUsed env)
                                                    / inject_Z
                                                        (dr_heapTotal env)
                                                    * inject_Z 100)%Q)
                                           ++ "%")%string |}];
                               dh_screensTotal := dh_screensTotal h |}
                       else {| dh_overall := dh_overall h;
                               dh_components :=
                                 JsMap.set (dh_components h) "system"
                                   "healthy";
                               dh_alerts := dh_alerts h;
                               dh_screensTotal := dh_screensTotal h |})
                    = dh_overall h) as Hsys.
  { intros h. destruct (gtQ _ (inject_Z 75)); reflexivity. }
  rewrite Hsys.
  assert (forall a h, dh_overall (dashContent a h) = dh_overall h) as Hct.
  { intros [rows|] h; reflexivity. }
  rewrite Hct.
  assert (dh_overall
            (dashStorage (dr_listing env)
               (dashDatabase (dr_probe env)
                  {| dh_overall := "healthy";
                     dh_components := JsMap.empty;
                     dh_alerts := [];
                     dh_screensTotal := None |})) = "healthy") as H2.
  { destruct (dr_probe env) as [[e|] rt|msg]; try discriminate.
    destruct (dr_listing env) as [buckets [e|] rt'|msg]; try discriminate.
    cbn in Hb |- *. destruct (hasMediaBucket buckets);
      [reflexivity | discriminate]. }
  destruct (dr_screens env) as [rows|]; [|exact H2].
  unfold dashScreens.
  destruct (rateStatus_cases (connectivityRate (dr_now env) rows))
    as [[_ H80]|[[H _]|[H _]]]; try congruence.
  rewrite H80, (geQ_80_50 _ H80). cbn [negb dh_overall]. exact H2.
Qed.

Lemma includesStatus_app status l1 l2 :
  includesStatus status (l1 ++ l2)
  = includesStatus status l1 || includesStatus status l2.
Proof. unfold includesStatus. apply existsb_app. Qed.

Lemma includesStatus_cons status key value rest :
  includesStatus status ((key, value) :: rest)
  = String.eqb value status || includesStatus status rest.
Proof. reflexivity. Qed.

Lemma dashSystem_alert heapUsed heapTotal h :
  gtQ (inject_Z heapUsed / inject_Z heapTotal * inject_Z 100)%Q
    (inject_Z 90) = true ->
  exists message,
    In {| da_type := "critical"; da_component := "system";
          da_message := message |}
      (dh_alerts (dashSystem heapUsed heapTotal h)).
Proof.
  intros H. unfold dashSystem. rewrite H. cbn [dh_alerts].
  eexists. apply in_or_app. right. left. reflexivity.
Qed.

(** X22. The overall status of [GET /dashboard/health] is the worst status
    among the components it files (error, then critical, then warning);
    when no component has any of these it is critical if the heap is above
    90% and healthy otherwise. So it is never "degraded", although the
    missing media bucket sets that on the way; it is error exactly when the
    database probe or the bucket listing fails; and a heap above 90%,
    which always raises a critical alert, leaves the overall status at
    warning when a component warns and none is critical or in error. *)
Theorem dashboard_health_overall (env : DashReadings) :
  let h := dashboardHealth env in
  let components := dh_components h in
  dh_overall h
  = (if includesStatus "error" components then "error"
     else if includesStatus "critical" components then "critical"
     else if includesStatus "warning" components then "warning"
     else if gtQ (heapPercent env) (inject_Z 90) then "critical"
     else "healthy")
  /\ dh_overall h <> "degraded"
  /\ (dh_overall h = "error"
      <-> probeStatus (dr_probe env) = "error"
          \/ bucketsStatus (dr_listing env) = "error")
  /\ (gtQ (heapPercent env) (inject_Z 90) = true ->
      exists message,
        In {| da_type := "critical"; da_component := "system";
              da_message := message |} (dh_alerts h)).
Proof.
  cbn zeta.
  assert (dh_overall (dashboardHealth env)
          = (if includesStatus "error" (dh_components (dashboardHealth env))
             then "error"
             else if includesStatus "critical"
                       (dh_components (dashboardHealth env))
             then "critical"
             else if includesStatus "warning"
                       (dh_components (dashboardHealth env))
             then "warning"
             else if gtQ (heapPercent env) (inject_Z 90) then "critical"
             else "healthy")) as Hoverall.
  { pose proof (dashboardHealth_components env) as Hc.
    unfold dashboardHealth at 1. unfold dashFinal at 1. cbn [dh_overall].
    change (dh_components (dashSystem _ _ _))
      with (dh_components (dashboardHealth env)).
    destruct (includesStatus "error" _) eqn:Ee; [reflexivity|].
    destruct (includesStatus "critical" _) eqn:Ec; [reflexivity|].
    destruct (includesStatus "warning" _) eqn:Ew; [reflexivity|].
    rewrite Hc in Ee, Ec, Ew.
    rewrite !includesStatus_app in Ee, Ec, Ew.
    apply dashboardHealth_sound_overall.
    - destruct (dr_probe env) as [[e|] rt|msg]; auto; discriminate.
    - apply orb_false_iff in Ee. destruct Ee as [Ee _].
      apply orb_false_iff in Ew. destruct Ew as [Ew _].
      rewrite includesStatus_cons in Ee, Ew.
      apply orb_false_iff in Ee. destruct Ee as [_ Ee].
      apply orb_false_iff in Ew. destruct Ew as [_ Ew].
      rewrite includesStatus_cons in Ee, Ew.
      apply orb_false_iff in Ee. destruct Ee as [Ee _].
      apply orb_false_iff in Ew. destruct Ew as [Ew _].
      destruct (dr_listing env) as [buckets [e|] rt|msg];
        try discriminate.
      cbn in Ew |- *. destruct (hasMediaBucket buckets);
        [reflexivity | discriminate].
    - destruct (dr_screens env) as [rows|]; [|exact I].
      destruct (rateStatus_cases (connectivityRate (dr_now env) rows))
        as [[H _]|[[H _]|[H _]]]; auto.
      + rewrite H in Ew. cbn in Ew. rewrite !orb_true_r in Ew. discriminate.
      + rewrite H in Ec. cbn in Ec. rewrite !orb_true_r in Ec. discriminate. }
  split; [exact Hoverall|]. split; [|split].
  - rewrite Hoverall.
    repeat match goal with
           | |- context [if ?b then _ else _] => destruct b
           end; discriminate.
  - rewrite Hoverall, dashboardHealth_components, !includesStatus_app.
    assert (forall key rate,
               includesStatus "error" [(key, rateStatus rate)] = false)
      as Hrate.
    { intros key rate. destruct (rateStatus_cases rate)
        as [[H _]|[[H _]|[H _]]]; unfold includesStatus; cbn; rewrite H;
        reflexivity. }
    destruct (dr_screens env) as [rows|];
      destruct (dr_assignments env) as [assignments|];
      rewrite ?Hrate;
      change (includesStatus "error" []) with false;
      cbn [orb].
    all: rewrite !includesStatus_cons.
    all: change (includesStatus "error" []) with false.
    all: change (String.eqb "healthy" "error") with false.
    all: rewrite !orb_false_r.
    all: destruct (String.eqb (probeStatus (dr_probe env)) "error") eqn:E1;
      destruct (String.eqb (bucketsStatus (dr_listing env)) "error") eqn:E2;
      cbn [orb]; rewrite ?String.eqb_eq in *; rewrite ?String.eqb_neq in *;
      try (split; auto; fail).
    all: split; [|tauto].
    all: repeat match goal with
                | |- context [if ?b then _ else _] => destruct b
                end; discriminate.
  - intros H. unfold dashboardHealth, dashFinal. cbn [dh_alerts].
    now apply dashSystem_alert.
Qed.

Lemma dashboard_health_overall_witness :
  gtQ (heapPercent strainedReadings) (inject_Z 90) = true
  /\ dh_overall (dashboardHealth strainedReadings) = "warning"
  /\ exists message,
       In {| da_type := "critical"; da_component := "system";
             da_message := message |}
         (dh_alerts (dashboardHealth strainedReadings)).
Proof.
  assert (gtQ (heapPercent strainedReadings) (inject_Z 90) = true) as H
    by reflexivity.
  split; [exact H|]. split; [reflexivity|].
  exact (proj2 (proj2 (proj2 (dashboard_health_overall strainedReadings)))
           H).
Defined.

(** ** Dashboard alerts *)

Lemma counter_set (counters : JsMap.t Z) k k' v :
  counter (JsMap.set counters k v) k'
  = if String.eqb k k' then v else counter counters k'.
Proof.
  unfold counter. destruct (String.eqb k k') eqn:E.
  - apply String.eqb_eq in E. subst.
    now rewrite JsMapFacts.get_set_same.
  - apply String.eqb_neq in E.
    now rewrite JsMapFacts.get_set_other.
Qed.

(** What the reduction counts: every element once, each under its key. *)
Lemma countBy_loop {A} (key : A -> string) (l : list A) : forall acc,
  let counters :=
    fold_left
      (fun acc x => JsMap.set acc (key x) (counter acc (key x) + 1))
      l acc in
  sumValues counters = sumValues acc + lengthZ l
  /\ forall k,
       counter counters k
       = counter acc k
         + lengthZ (filter (fun x => String.eqb (key x) k) l).
Proof.
  induction l as [|x l IH]; intros acc; cbn zeta; simpl fold_left.
  - change (@lengthZ A []) with 0. split; [lia|].
    intros k. simpl. change (@lengthZ A []) with 0. lia.
  - destruct (IH (JsMap.set acc (key x) (counter acc (key x) + 1)))
      as [Hs Hc].
    split.
    + rewrite Hs, sumValues_set, lengthZ_cons. lia.
    + intros k. rewrite Hc, counter_set. simpl filter.
      destruct (String.eqb (key x) k) eqn:E.
      * apply String.eqb_eq in E. subst. rewrite lengthZ_cons. lia.
      * lia.
Qed.

Lemma countBy_spec {A} (key : A -> string) (l : list A) :
  sumValues (countBy key l) = lengthZ l
  /\ forall k,
       counter (countBy key l) k
       = lengthZ (filter (fun x => String.eqb (key x) k) l).
Proof.
  destruct (countBy_loop key l JsMap.empty) as [Hs Hc].
  split; [exact Hs|]. intros k. unfold countBy. exact (Hc k).
Qed.

Lemma collectedAlerts_kinds now screens unassigned playlists :
  Forall
    (fun a =>
       (ba_severity a = "warning" \/ ba_severity a = "info")
       /\ (ba_type a = "screen" \/ ba_type a = "content"))
    (collectedAlerts now screens unassigned playlists).
Proof.
  unfold collectedAlerts. rewrite !Forall_app. repeat split.
  - apply Forall_forall. intros a Ha. apply in_flat_map in Ha.
    destruct Ha as [s [_ Ha]]. unfold screenAlerts in Ha.
    destruct (String.eqb (ns_status s) "offline").
    + destruct Ha as [<-|[]]. cbn. auto.
    + destruct (String.eqb (ns_status s) "online" && _); [|destruct Ha].
      destruct Ha as [<-|[]]. cbn. auto.
  - apply Forall_forall. intros a Ha. apply in_map_iff in Ha.
    destruct Ha as [row [<- _]]. cbn. auto.
  - apply Forall_forall. intros a Ha. apply in_map_iff in Ha.
    destruct Ha as [row [<- _]]. cbn. auto.
Qed.

Lemma Forall_jsSort {A} (cmp : A -> A -> Z) (P : A -> Prop) l :
  Forall P l -> Forall P (jsSort cmp l).
Proof.
  induction l as [|x l IH]; intros H; simpl; [constructor|].
  inversion H as [|? ? Hx Hl]; subst. specialize (IH Hl).
  clear H Hl. induction (jsSort cmp l) as [|y s IHs]; simpl.
  - constructor; [exact Hx | constructor].
  - inversion IH as [|? ? Hy Hs]; subst.
    destruct (cmp x y <=? 0); constructor; auto.
Qed.

Lemma Forall_sliceTo {A} (P : A -> Prop) limit (l : list A) :
  Forall P l -> Forall P (sliceTo limit l).
Proof.
  intros H. apply Forall_forall. intros x Hx.
  apply sliceTo_incl in Hx. rewrite Forall_forall in H. auto.
Qed.

Lemma descending_sliceTo {A} (key : A -> Z) limit (l : list A) :
  descending key l -> descending key (sliceTo limit l).
Proof.
  intros H. unfold sliceTo.
  destruct (0 <=? limit); now apply descending_firstn.
Qed.

Lemma sliceTo_limit {A} limit (l : list A) :
  0 <= limit -> lengthZ (sliceTo limit l) <= limit.
Proof.
  intros H. unfold sliceTo, lengthZ.
  assert ((0 <=? limit) = true) as -> by (apply Z.leb_le; lia).
  rewrite length_firstn. lia.
Qed.

Lemma filter_none {A} (f : A -> bool) (l : list A) :
  Forall (fun x => f x = false) l -> filter f l = [].
Proof.
  induction 1 as [|x l Hx _ IH]; simpl; [reflexivity|].
  now rewrite Hx.
Qed.

(** X23. [GET /dashboard/alerts] only ever lists alerts of severity
    warning or info, of type screen or content; with a severity asked for
    it lists alerts of that severity only, so asking for critical gives an
    empty list. The list is ordered newest first and holds at most [limit]
    alerts when the limit is not negative; the statistics count the
    listed alerts, not the collected ones: the total is the length of the
    list, the counters by severity and by type each add up to it, and the
    recent ones are among them. *)
Theorem dashboard_alerts_listing (now : Z) (severity : string)
    (limit : option Z) (screens : option (list NamedScreen))
    (unassigned playlists : option (list DatedRow)) :
  let answer :=
    dashboardAlerts now severity limit screens unassigned playlists in
  Forall
    (fun a =>
       (ba_severity a = "warning" \/ ba_severity a = "info")
       /\ (ba_type a = "screen" \/ ba_type a = "content"))
    (bd_alerts answer)
  /\ (severity <> "" ->
      Forall (fun a => ba_severity a = severity) (bd_alerts answer))
  /\ (severity = "critical" -> bd_alerts answer = [] /\ bd_total answer = 0)
  /\ descending ba_timestamp (bd_alerts answer)
  /\ bd_total answer = lengthZ (bd_alerts answer)
  /\ sumValues (bd_bySeverity answer) = bd_total answer
  /\ sumValues (bd_byType answer) = bd_total answer
  /\ counter (bd_bySeverity answer) "critical" = 0
  /\ 0 <= bd_recent answer <= bd_total answer
  /\ (0 <= limitOr50 limit -> bd_total answer <= limitOr50 limit).
Proof.
  cbn zeta. unfold dashboardAlerts. cbn [bd_alerts bd_total bd_bySeverity
    bd_byType bd_recent].
  set (alerts := collectedAlerts now screens unassigned playlists).
  set (filtered := if String.eqb severity "" then alerts else _).
  set (listed := sliceTo (limitOr50 limit) (jsSort byTimestamp filtered)).
  pose proof (collectedAlerts_kinds now screens unassigned playlists)
    as Hkinds. fold alerts in Hkinds.
  assert (Forall
            (fun a =>
               (ba_severity a = "warning" \/ ba_severity a = "info")
               /\ (ba_type a = "screen" \/ ba_type a = "content"))
            listed) as Hlisted.
  { apply Forall_sliceTo, Forall_jsSort. unfold filtered.
    destruct (String.eqb severity ""); [exact Hkinds|].
    now apply Forall_filter_keep. }
  assert (severity <> "" ->
          Forall (fun a => ba_severity a = severity) listed) as Hasked.
  { intros Hs. apply Forall_sliceTo, Forall_jsSort. unfold filtered.
    apply String.eqb_neq in Hs. rewrite Hs.
    apply Forall_forall. intros a Ha. apply filter_In in Ha.
    now apply String.eqb_eq. }
  assert (severity = "critical" -> listed = []) as Hcritical.
  { intros ->. assert ("critical" <> "") as Hs by discriminate.
    specialize (Hasked Hs).
    destruct listed as [|a rest]; [reflexivity|].
    inversion Hasked as [|? ? Ha _]; subst.
    inversion Hlisted as [|? ? [[Hb|Hb] _] _]; subst; congruence. }
  destruct (countBy_spec ba_severity listed) as [Hsev Hcount].
  destruct (countBy_spec ba_type listed) as [Htype _].
  repeat split; auto.
  - now rewrite (Hcritical H).
  - unfold listed. apply descending_sliceTo.
    apply (jsSort_descending ba_timestamp).
  - rewrite Hcount, filter_none; [reflexivity|].
    eapply Forall_impl; [|exact Hlisted].
    intros a [[H|H] _]; rewrite H; reflexivity.
  - apply lengthZ_nonneg.
  - unfold lengthZ. apply inj_le. apply filter_length_le.
  - intros H. now apply sliceTo_limit.
Qed.

Lemma dashboard_alerts_listing_witness :
  "critical" = "critical"
  /\ 0 <= limitOr50 (Some 2)
  /\ bd_alerts
       (dashboardAlerts 10000000 "critical" (Some 2) (Some troubledScreens)
          None (Some [mkDatedRow "idle" 500]))
     = []
  /\ bd_total
       (dashboardAlerts 10000000 "" (Some 2) (Some troubledScreens)
          None (Some [mkDatedRow "idle" 500]))
     <= limitOr50 (Some 2).
Proof.
  assert (0 <= limitOr50 (Some 2)) as H by (vm_compute; discriminate).
  split; [reflexivity|]. split; [exact H|]. split.
  - exact (proj1
             (proj1 (proj2 (proj2
                (dashboard_alerts_listing 10000000 "critical" (Some 2)
                   (Some troubledScreens) None
                   (Some [mkDatedRow "idle" 500]))))
                eq_refl)).
  - exact (proj2 (proj2 (proj2 (proj2 (proj2 (proj2 (proj2 (proj2 (proj2
             (dashboard_alerts_listing 10000000 "" (Some 2)
                (Some troubledScreens) None
                (Some [mkDatedRow "idle" 500])))))))))) H).
Defined.
